(** * SmartQueueService: admission-controlled priority job scheduler

    A shallow embedding of [src/services/smartQueueService.js], and of the
    two methods of [src/services/runpodService.js] it calls.

    Conventions of the embedding.
    - The service object ([this]) and the Redis keyspace it owns are one
      explicit [State] record; every method is a function on it.
    - [Date.now()] is an argument [now] (milliseconds).  One call of a method
      reads one instant; Redis expiry is measured on the same clock.
    - Redis lists hold [JSON.stringify]-ed jobs; the round trip through
      [JSON.parse] is the identity on the fields modelled here, so a list of
      job records stands for the list of strings.  [lpush] adds at the head,
      [rpop] removes at the tail.
    - The remote worker ([runpodService]) is an oracle: the outcome of each
      call is an argument, and every call is appended to [runpodCalls].  The
      two methods of the client are functions of the answers of the HTTP
      endpoint, given as a list.
    - Redis and the Mongo model [Separation] are taken to answer without
      error; the Mongo documents are not part of the state.
    - Instants, counters, sizes and the limits of the configuration are
      integers.  The average processing time and the estimated wait are
      doubles, as in the code: a [Num] is an IEEE 754 binary64 value, and
      each operation on it rounds to the nearest double.
    - A [separationId] is a string, [undefined] or [null]; the other optional
      fields are read for their truthiness only and have one absent value.
    - A method is a function: it runs from its call to its last effect with
      nothing in between.  [processQueue] is also given in two parts, cut at
      its first [await]: between the two, the event loop can run another
      task. *)

From Stdlib Require Import ZArith QArith Qround Qabs Qpower Qreduction Qcanon Lqa.
From Stdlib Require Import SpecFloat String List Bool Lia.
From stdpp Require Import gmap strings list fin_maps.
Import ListNotations.

Local Open Scope string_scope.
Local Open Scope list_scope.
Local Open Scope Z_scope.

(** ** Data model *)

Inductive Priority := HIGH | NORMAL.

Definition Priority_eqb (a b : Priority) : bool :=
  match a, b with
  | HIGH, HIGH | NORMAL, NORMAL => true
  | _, _ => false
  end.

Inductive Breaker := CLOSED | OPEN | HALF_OPEN.

Definition Breaker_eqb (a b : Breaker) : bool :=
  match a, b with
  | CLOSED, CLOSED | OPEN, OPEN | HALF_OPEN, HALF_OPEN => true
  | _, _ => false
  end.

(** A [separationId] as a caller hands it over: a string, or absent in one
    of JavaScript's two ways.  The two are both falsy, but they print
    differently in a template literal, are different keys of a [Map], and
    [JSON.stringify] keeps the one and drops the other. *)
Inductive Id := Str (s : string) | Undefined | Null.

#[global] Instance Id_eq_dec : EqDecision Id.
Proof. solve_decision. Defined.

(** What the service does with a value that may be absent: it tests it
    ([truthy], JavaScript truthiness) and it prints it inside a template
    literal ([idString]). *)
Class JsValue (A : Type) := {
  truthy : A -> bool;
  idString : A -> string
}.

Arguments truthy {A _} _ : simpl nomatch.
Arguments idString {A _} _ : simpl nomatch.

(** An optional string read for its truthiness only: [None] is [undefined] or
    [null], which print as [undefined] here because the service prints such a
    value only after it has found it truthy. *)
#[global] Instance optionValue : JsValue (option string) := {|
  truthy o := match o with
              | None => false
              | Some EmptyString => false
              | Some _ => true
              end;
  idString o := match o with
                | Some s => s
                | None => "undefined"
                end
|}.

#[global] Instance idValue : JsValue Id := {|
  truthy i := match i with
              | Str EmptyString => false
              | Str _ => true
              | Undefined | Null => false
              end;
  idString i := match i with
                | Str s => s
                | Undefined => "undefined"
                | Null => "null"
                end
|}.

(** [a || b] on optional strings. *)
Definition orElse (a b : option string) : option string :=
  if truthy a then a else b.

(** [hay.includes(needle)] *)
Fixpoint includes (hay needle : string) : bool :=
  if String.prefix needle hay then true
  else match hay with
       | EmptyString => false
       | String _ rest => includes rest needle
       end.

(** ** JavaScript numbers *)

(** A number of JavaScript is an IEEE 754 binary64 value.  A finite value is
    the rational it stands for, and [Fin 0] is the positive zero; every
    operation computes the exact result and rounds it to the nearest double,
    ties to even. *)
Inductive Num := Fin (q : Q) | NegZero | PInf | NInf | NaN.

(** The binary exponent of a positive rational: [2^e <= a < 2^(e+1)]. *)
Definition ilog2 (a : Q) : Z :=
  let e0 := Z.log2 (Qnum a) - Z.log2 (Zpos (Qden a)) in
  if Qle_bool (2 ^ e0) a then e0 else e0 - 1.

(** The nearest integer, the even one of two that are as near. *)
Definition roundEven (x : Q) : Z :=
  let f := Qfloor x in
  match (x - inject_Z f ?= 1 # 2)%Q with
  | Lt => f
  | Gt => f + 1
  | Eq => if Z.even f then f else f + 1
  end.

(** The binary64 value nearest to [a >= 0], ties to even: 53 significant bits,
    exponents down to [-1022] and gradual underflow below; [None] when the
    rounded value does not fit below [2^1024]. *)
Definition roundMagnitude (a : Q) : option Q :=
  if Qeq_bool a 0 then Some 0%Q
  else
    let x := Z.max (ilog2 a) (-1022) - 52 in
    let m := Qred (inject_Z (roundEven (a / 2 ^ x)) * 2 ^ x) in
    if Qle_bool (2 ^ 1024) m then None else Some m.

(** A rounded magnitude ([None]: infinite) with its sign. *)
Definition signed (negative : bool) (m : option Q) : Num :=
  match m with
  | None => if negative then NInf else PInf
  | Some q =>
      if negative then (if Qeq_bool q 0 then NegZero else Fin (Qred (- q))) else Fin q
  end.

Definition isNegative (x : Num) : bool :=
  match x with
  | Fin q => negb (Qle_bool 0 q)
  | NegZero | NInf => true
  | PInf | NaN => false
  end.

(** [None]: infinite. *)
Definition magnitude (x : Num) : option Q :=
  match x with
  | Fin q => Some (Qabs q)
  | NegZero => Some 0%Q
  | PInf | NInf | NaN => None
  end.

(** The double nearest to a rational. *)
Definition binary64 (q : Q) : Num := signed (negb (Qle_bool 0 q)) (roundMagnitude (Qabs q)).

Definition numOfZ (z : Z) : Num := binary64 (inject_Z z).

(** [x + y] *)
Definition numAdd (x y : Num) : Num :=
  match x, y with
  | NaN, _ | _, NaN => NaN
  | PInf, NInf | NInf, PInf => NaN
  | PInf, _ | _, PInf => PInf
  | NInf, _ | _, NInf => NInf
  | NegZero, NegZero => NegZero
  | NegZero, Fin b | Fin b, NegZero => if Qeq_bool b 0 then Fin 0 else Fin b
  | Fin a, Fin b => if Qeq_bool (a + b) 0 then Fin 0 else binary64 (a + b)
  end.

(** [x * y] *)
Definition numMul (x y : Num) : Num :=
  match x, y with
  | NaN, _ | _, NaN => NaN
  | _, _ =>
      let negative := xorb (isNegative x) (isNegative y) in
      match magnitude x, magnitude y with
      | Some a, Some b => signed negative (roundMagnitude (a * b))
      | Some a, None | None, Some a => if Qeq_bool a 0 then NaN else signed negative None
      | None, None => signed negative None
      end
  end.

(** [x / y] *)
Definition numDiv (x y : Num) : Num :=
  match x, y with
  | NaN, _ | _, NaN => NaN
  | _, _ =>
      let negative := xorb (isNegative x) (isNegative y) in
      match magnitude x, magnitude y with
      | Some a, Some b =>
          if Qeq_bool b 0
          then (if Qeq_bool a 0 then NaN else signed negative None)
          else signed negative (roundMagnitude (a / b))
      | Some _, None => signed negative (Some 0%Q)
      | None, Some _ => signed negative None
      | None, None => NaN
      end
  end.

(** [Math.ceil(x)] *)
Definition numCeil (x : Num) : Num :=
  match x with
  | Fin q =>
      if (Qceiling q =? 0) && negb (Qle_bool 0 q) then NegZero
      else Fin (inject_Z (Qceiling q))
  | other => other
  end.

(** [JSON.stringify] of the result of a [Math.ceil]: an integer, or [null]
    for a value that is not finite. *)
Definition jsonCeil (x : Num) : option Z :=
  match numCeil x with
  | Fin q => Some (Qfloor q)
  | NegZero => Some 0
  | PInf | NInf | NaN => None
  end.

(** *** The Standard Library's specification of IEEE 754

    [SpecFloat] specifies the operations on sign, mantissa and exponent.  A
    value of it is read as a [Num], and the operations of the two are
    compared on sample operands. *)
Definition numOfSF (x : spec_float) : Num :=
  match x with
  | S754_zero false => Fin 0
  | S754_zero true => NegZero
  | S754_infinity false => PInf
  | S754_infinity true => NInf
  | S754_nan => NaN
  | S754_finite sg m e =>
      Fin (Qred ((if sg then -1 else 1) * inject_Z (Z.pos m) * 2 ^ e))
  end.

(** The double of an integer, by [SpecFloat]. *)
Definition sfOfZ (z : Z) : spec_float :=
  match z with
  | Z0 => S754_zero false
  | _ => binary_normalize 53 1024 z 0 false
  end.

(** The same number: the same rational, or the same special value. *)
Definition sameNum (x y : Num) : bool :=
  match x, y with
  | Fin p, Fin q => Qeq_bool p q
  | NegZero, NegZero | PInf, PInf | NInf, NInf | NaN, NaN => true
  | _, _ => false
  end.

(** Sample operands: the numbers of the average and of the estimate, thirds,
    zeros of both signs, infinities, integers above [2^53], the least
    subnormal and the greatest double. *)
Definition sampleOperands : list (spec_float * spec_float) :=
  [(sfOfZ 25, SFdiv 53 1024 (sfOfZ 372) (sfOfZ 5));
   (sfOfZ 120, SFdiv 53 1024 (sfOfZ 28800) (sfOfZ 1000));
   (SFdiv 53 1024 (sfOfZ 744) (sfOfZ 5), sfOfZ 2);
   (SFmul 53 1024 (sfOfZ 25) (SFdiv 53 1024 (sfOfZ 372) (sfOfZ 5)), sfOfZ 60);
   (sfOfZ 1, sfOfZ 3); (sfOfZ (-7), sfOfZ 3); (sfOfZ 0, sfOfZ 0); (sfOfZ 5, sfOfZ 0);
   (sfOfZ (-5), S754_zero true); (S754_zero true, S754_zero true);
   (S754_zero true, sfOfZ 0);
   (S754_infinity false, sfOfZ 2); (S754_infinity false, S754_infinity true);
   (sfOfZ 0, S754_infinity true); (S754_nan, sfOfZ 1);
   (sfOfZ (2 ^ 60 + 1), sfOfZ (2 ^ 53 + 1)); (sfOfZ (2 ^ 53 + 1), sfOfZ (-(2 ^ 53)));
   (S754_finite false 1 (-1074), sfOfZ 3); (S754_finite false 3 (-1074), sfOfZ 2);
   (S754_finite false 9007199254740991 971, sfOfZ 2);
   (S754_finite false 9007199254740991 971, S754_finite false 9007199254740991 971);
   (S754_finite false 9007199254740991 971, S754_finite true 1 (-1074))].

Definition agreesOn (xy : spec_float * spec_float) : bool :=
  let (x, y) := xy in
  sameNum (numOfSF (SFadd 53 1024 x y)) (numAdd (numOfSF x) (numOfSF y)) &&
  sameNum (numOfSF (SFmul 53 1024 x y)) (numMul (numOfSF x) (numOfSF y)) &&
  sameNum (numOfSF (SFdiv 53 1024 x y)) (numDiv (numOfSF x) (numOfSF y)).

(** The job object.  The first six fields come from the caller; the others are
    written by the scheduler.  [None] is an absent field ([undefined] or
    [null]): the service reads these fields for their truthiness only.  The
    [separationId] is also printed into the key of a status record and used
    as a key of the processing map, absent or not, so it keeps the two absent
    values apart.  [retryCount] is only ever read as
    [jobData.retryCount || 0], so an absent count and [0] are the same
    value. *)
Record JobData := mkJob {
  separationId : Id;
  userId : option string;
  storageType : option string;
  filePath : option string;
  publicUrl : option string;
  fileSize : option Z;
  priority : option Priority;
  addedAt : option Z;
  retryCount : nat;
  estimatedTime : option Z;
  lastError : option string;
  retryAt : option Z
}.

(** An entry of the [processingJobs] map: the job spread, plus [startedAt],
    [runpodJobId] and [runpodSubmittedAt] (its [status] field is the constant
    ['PROCESSING'] and is never read). *)
Record ProcJob := mkProc {
  pjob : JobData;
  startedAt : Z;
  runpodJobId : option string;
  runpodSubmittedAt : option Z
}.

(** An [Error] as the service inspects it: [message], [code] and
    [response.status]. *)
Record JsError := mkError {
  message : string;
  code : option string;
  responseStatus : option Z
}.

(** What [runpodService.processAsynchronously] answers. *)
Inductive SubmitOutcome :=
| Accepted (id : option string)   (* a result object and its [id] field *)
| NoResult                         (* a falsy result *)
| SubmitThrows (e : JsError).

(** What [runpodService.checkStatus] answers. *)
Record RunpodStatus := mkRunpodStatus {
  rstatus : string;
  vocal_audio : option string;
  instrument_audio : option string;
  executionTime : option Z;
  rerror : option string
}.

Inductive PollOutcome :=
| PollOk (r : RunpodStatus)
| PollThrows.

(** The [additionalData] of a status record, one constructor per call site of
    [updateJobStatus].  The estimated wait in minutes is what
    [JSON.stringify] keeps of a number: an integer, or [null] ([None]) when
    the number is not finite. *)
Inductive StatusData :=
| DRateLimited (msg : string) (user : string)
| DServiceUnavailable (msg : string)
| DQueueFull (msg : string) (currentQueueSize maxQueueSize : Z)
| DQueued (p : Priority) (queuePosition : Z) (estimatedWaitMinutes : option Z)
          (user : string)
| DQueueError (error : string)
| DSubmitting (msg : string) (started : Z) (progress : Z)
| DInProgress (msg : string) (runpodId : option string) (progress : Z)
| DFailed (error : string) (stage : string)
| DRetryScheduled (retries : nat) (retryInMinutes : Z) (lastErr : string)
| DComplete (vocalUrl instrumentalUrl : option string)
            (processingTimeSeconds : Z) (progress : Z)
| DProgress (progress : Z) (runpodStatus : string)
| DTimeout (error : string).

(** The value stored under [status:<id>]; [stExpireAt] is the [EX 86400]. *)
Record StatusRecord := mkStatus {
  stSeparationId : Id;
  stStatus : string;
  stUpdatedAt : Z;
  stData : StatusData;
  stExpireAt : Z
}.

(** The Redis hash [user:<id>].  Its fields are only read through
    [parseInt(field || '0')] and only written as integers, so an absent field
    is [0]; [uExpireAt] is the expiry set by [expire], if any. *)
Record UserData := mkUser {
  concurrent : Z;
  hourly : Z;
  lastHourReset : Z;
  uExpireAt : option Z
}.

Record Metrics := mkMetrics {
  totalProcessed : Z;
  totalFailed : Z;
  avgProcessingTime : Num;
  queueFullRejections : Z;
  runpodRateLimitHits : Z;
  circuitBreakerTrips : Z;
  peakConcurrency : Z
}.

Record Config := mkConfig {
  RUNPOD_RATE_LIMIT : Z;
  MAX_CONCURRENT_JOBS : Z;
  PRIORITY_FILE_LIMIT : Z;
  MAX_QUEUE_SIZE : Z
}.

(** The keys of the Redis keyspace the service uses.  The four kinds of key
    have different prefixes, so each kind is a map (or a value) of its own. *)
Record Redis := mkRedis {
  queueFiles : list JobData;                (* queue:files, HIGH *)
  queueUrls : list JobData;                 (* queue:urls, NORMAL *)
  queueRetry : list JobData;                (* queue:retry *)
  users : gmap string UserData;             (* user:<id> *)
  statuses : gmap string StatusRecord;      (* status:<id> *)
  runpod_failures : option (Z * option Z)   (* counter and its expiry *)
}.

(** A call of [runpodService.processAsynchronously]. *)
Record RunpodCall := mkCall {
  callUrl : option string;
  callTimeout : Z;
  callTime : Z
}.

Record State := mkState {
  cfg : Config;
  redis : Redis;
  processingJobs : list (Id * ProcJob);   (* a Map, in insertion order *)
  runpodRequestTimes : list Z;
  circuitBreakerState : Breaker;
  metrics : Metrics;
  halfOpenTimers : list Z;       (* pending [setTimeout]s of the breaker *)
  runpodCalls : list RunpodCall  (* the calls made so far, oldest first *)
}.

(** *** Field updates *)

Definition withRedis (r : Redis) (s : State) : State :=
  mkState (cfg s) r (processingJobs s) (runpodRequestTimes s)
          (circuitBreakerState s) (metrics s) (halfOpenTimers s) (runpodCalls s).

Definition withProcessing (p : list (Id * ProcJob)) (s : State) : State :=
  mkState (cfg s) (redis s) p (runpodRequestTimes s)
          (circuitBreakerState s) (metrics s) (halfOpenTimers s) (runpodCalls s).

Definition withRequestTimes (l : list Z) (s : State) : State :=
  mkState (cfg s) (redis s) (processingJobs s) l
          (circuitBreakerState s) (metrics s) (halfOpenTimers s) (runpodCalls s).

Definition withBreaker (b : Breaker) (s : State) : State :=
  mkState (cfg s) (redis s) (processingJobs s) (runpodRequestTimes s)
          b (metrics s) (halfOpenTimers s) (runpodCalls s).

Definition withMetrics (m : Metrics) (s : State) : State :=
  mkState (cfg s) (redis s) (processingJobs s) (runpodRequestTimes s)
          (circuitBreakerState s) m (halfOpenTimers s) (runpodCalls s).

Definition withTimers (t : list Z) (s : State) : State :=
  mkState (cfg s) (redis s) (processingJobs s) (runpodRequestTimes s)
          (circuitBreakerState s) (metrics s) t (runpodCalls s).

Definition withCalls (c : list RunpodCall) (s : State) : State :=
  mkState (cfg s) (redis s) (processingJobs s) (runpodRequestTimes s)
          (circuitBreakerState s) (metrics s) (halfOpenTimers s) c.

Definition withQueueFiles (q : list JobData) (r : Redis) : Redis :=
  mkRedis q (queueUrls r) (queueRetry r) (users r) (statuses r) (runpod_failures r).

Definition withQueueUrls (q : list JobData) (r : Redis) : Redis :=
  mkRedis (queueFiles r) q (queueRetry r) (users r) (statuses r) (runpod_failures r).

Definition withQueueRetry (q : list JobData) (r : Redis) : Redis :=
  mkRedis (queueFiles r) (queueUrls r) q (users r) (statuses r) (runpod_failures r).

Definition withUsers (u : gmap string UserData) (r : Redis) : Redis :=
  mkRedis (queueFiles r) (queueUrls r) (queueRetry r) u (statuses r) (runpod_failures r).

Definition withStatuses (m : gmap string StatusRecord) (r : Redis) : Redis :=
  mkRedis (queueFiles r) (queueUrls r) (queueRetry r) (users r) m (runpod_failures r).

Definition withFailures (f : option (Z * option Z)) (r : Redis) : Redis :=
  mkRedis (queueFiles r) (queueUrls r) (queueRetry r) (users r) (statuses r) f.

(** ** Redis primitives *)

Definition lpush (x : JobData) (l : list JobData) : list JobData := x :: l.

Definition rpop (l : list JobData) : option (JobData * list JobData) :=
  match rev l with
  | [] => None
  | x :: r => Some (x, rev r)
  end.

Definition llen (l : list JobData) : Z := Z.of_nat (length l).

(** A key with an expiry is gone once the clock reaches it. *)
Definition keyLive (now : Z) (e : option Z) : bool :=
  match e with
  | Some t => now <? t
  | None => true
  end.

Definition noUser : UserData := mkUser 0 0 0 None.

(** [hgetall user:<uid>]: the empty hash for a missing or expired key. *)
Definition hgetall (r : Redis) (now : Z) (uid : string) : UserData :=
  match users r !! uid with
  | Some u => if keyLive now (uExpireAt u) then u else noUser
  | None => noUser
  end.

Definition hsetUser (r : Redis) (uid : string) (u : UserData) : Redis :=
  withUsers (<[uid := u]> (users r)) r.

Definition hincrbyConcurrent (r : Redis) (now : Z) (uid : string) (d : Z) : Redis :=
  let u := hgetall r now uid in
  hsetUser r uid (mkUser (concurrent u + d) (hourly u) (lastHourReset u) (uExpireAt u)).

Definition hincrbyHourly (r : Redis) (now : Z) (uid : string) (d : Z) : Redis :=
  let u := hgetall r now uid in
  hsetUser r uid (mkUser (concurrent u) (hourly u + d) (lastHourReset u) (uExpireAt u)).

Definition expireUser (r : Redis) (now : Z) (uid : string) (seconds : Z) : Redis :=
  match users r !! uid with
  | Some u =>
      if keyLive now (uExpireAt u)
      then hsetUser r uid (mkUser (concurrent u) (hourly u) (lastHourReset u)
                                  (Some (now + seconds * 1000)))
      else r
  | None => r
  end.

(** [incr runpod_failures]: the new count. *)
Definition incrFailures (r : Redis) (now : Z) : Redis * Z :=
  match runpod_failures r with
  | Some (n, e) =>
      if keyLive now e
      then (withFailures (Some (n + 1, e)) r, n + 1)
      else (withFailures (Some (1, None)) r, 1)
  | None => (withFailures (Some (1, None)) r, 1)
  end.

Definition expireFailures (r : Redis) (now : Z) (seconds : Z) : Redis :=
  match runpod_failures r with
  | Some (n, e) =>
      if keyLive now e then withFailures (Some (n, Some (now + seconds * 1000))) r else r
  | None => r
  end.

(** ** The [processingJobs] map *)

Definition keyEqb (a b : Id) : bool := bool_decide (a = b).

Fixpoint mapGet (k : Id) (m : list (Id * ProcJob)) : option ProcJob :=
  match m with
  | [] => None
  | (k', v) :: rest => if keyEqb k k' then Some v else mapGet k rest
  end.

(** [Map.prototype.set]: an existing key keeps its place. *)
Fixpoint mapSet (k : Id) (v : ProcJob) (m : list (Id * ProcJob))
  : list (Id * ProcJob) :=
  match m with
  | [] => [(k, v)]
  | (k', v') :: rest =>
      if keyEqb k k' then (k, v) :: rest else (k', v') :: mapSet k v rest
  end.

Definition mapDelete (k : Id) (m : list (Id * ProcJob))
  : list (Id * ProcJob) :=
  List.filter (fun kv => negb (keyEqb k (fst kv))) m.

Definition mapSize (m : list (Id * ProcJob)) : Z := Z.of_nat (length m).

Definition mapValues (m : list (Id * ProcJob)) : list ProcJob := map snd m.

(** The number of processing jobs whose [priority] is [p]. *)
Definition countPriority (p : Priority) (m : list (Id * ProcJob)) : Z :=
  Z.of_nat (length (List.filter (fun j : ProcJob =>
                      match priority (pjob j) with
                      | Some q => Priority_eqb q p
                      | None => false
                      end) (mapValues m))).

(** ** Status management *)

Definition updateJobStatus (s : State) (now : Z) (sid : Id)
           (status : string) (additionalData : StatusData) : State :=
  withRedis
    (withStatuses
       (<[idString sid := mkStatus sid status now additionalData (now + 86400 * 1000)]>
          (statuses (redis s)))
       (redis s)) s.

Definition getJobStatus (s : State) (now : Z) (sid : Id) : option StatusRecord :=
  match statuses (redis s) !! idString sid with
  | Some r => if now <? stExpireAt r then Some r else None
  | None => None
  end.

(** ** Rate limiting and capacity checks *)

Definition canProcessMoreJobs (s : State) (p : Priority) : bool :=
  let totalProcessing := mapSize (processingJobs s) in
  if MAX_CONCURRENT_JOBS (cfg s) <=? totalProcessing then false
  else match p with
       | HIGH => countPriority HIGH (processingJobs s) <? PRIORITY_FILE_LIMIT (cfg s)
       | NORMAL => true
       end.

Definition pruneTimes (now : Z) (l : list Z) : list Z :=
  List.filter (fun time => now - 60000 <? time) l.

Definition canMakeRunpodRequest (s : State) (now : Z) : State * bool :=
  let s' := withRequestTimes (pruneTimes now (runpodRequestTimes s)) s in
  (s', Z.of_nat (length (runpodRequestTimes s')) <? RUNPOD_RATE_LIMIT (cfg s)).

Definition recordRunpodRequest (s : State) (now : Z) : State :=
  withRequestTimes (runpodRequestTimes s ++ [now]) s.

Definition resetRateLimits (s : State) (now : Z) : State :=
  withRequestTimes (pruneTimes now (runpodRequestTimes s)) s.

(** ** User rate limiting *)

Definition checkUserLimits (s : State) (now : Z) (uid : string) : State * bool :=
  let userData := hgetall (redis s) now uid in
  if 2 <=? concurrent userData then (s, false)
  else
    let oneHourAgo := now - 3600000 in
    if lastHourReset userData <? oneHourAgo then
      (withRedis (hsetUser (redis s) uid
                    (mkUser (concurrent userData) 0 now (uExpireAt userData))) s,
       true)
    else if 5 <=? hourly userData then (s, false)
    else (s, true).

Definition updateUserLimits (s : State) (now : Z) (uid : string) : State :=
  let r1 := hincrbyConcurrent (redis s) now uid 1 in
  let r2 := hincrbyHourly r1 now uid 1 in
  withRedis (expireUser r2 now uid 7200) s.

Definition decrementUserConcurrent (s : State) (now : Z) (uid : option string) : State :=
  if truthy uid
  then withRedis (hincrbyConcurrent (redis s) now (idString uid) (-1)) s
  else s.

(** ** Utility functions *)

Definition getTotalQueueSize (s : State) : Z :=
  llen (queueFiles (redis s)) + llen (queueUrls (redis s)) + llen (queueRetry (redis s)).

(** [jobData.fileSize || 0] *)
Definition sizeOf (j : JobData) : Z :=
  match fileSize j with
  | Some n => n
  | None => 0
  end.

Definition estimateProcessingTime (j : JobData) : Z :=
  let size := sizeOf j in
  if size <? 10 * 1024 * 1024 then 120
  else if size <? 50 * 1024 * 1024 then 240
  else if size <? 200 * 1024 * 1024 then 480
  else 720.

Definition getTimeoutForJob (j : JobData) : Z :=
  let size := sizeOf j in
  if size <? 10 * 1024 * 1024 then 300000
  else if size <? 50 * 1024 * 1024 then 600000
  else if size <? 200 * 1024 * 1024 then 1200000
  else 1800000.

(** [Math.ceil(queuePosition / availableSlots) * avgTime].  The limits, the
    count and the position are integers, and the subtractions and the maximum
    are those of integers (below [2^53] a double holds them exactly); the
    quotient, its ceiling and the product are operations on doubles. *)
Definition calculateEstimatedWait (s : State) (queuePosition : Z) (p : Priority) : Num :=
  let avgTime := avgProcessingTime (metrics s) in
  let concurrentSlots :=
    match p with
    | HIGH => PRIORITY_FILE_LIMIT (cfg s)
    | NORMAL => MAX_CONCURRENT_JOBS (cfg s) - PRIORITY_FILE_LIMIT (cfg s)
    end in
  let currentProcessing := countPriority p (processingJobs s) in
  let availableSlots := Z.max 1 (concurrentSlots - currentProcessing) in
  numMul (numCeil (numDiv (numOfZ queuePosition) (numOfZ availableSlots))) avgTime.

(** ** Circuit breaker *)

Definition statusAtLeast500 (e : JsError) : bool :=
  match responseStatus e with
  | Some n => 500 <=? n
  | None => false
  end.

Definition codeIs (e : JsError) (c : string) : bool :=
  match code e with
  | Some c' => String.eqb c' c
  | None => false
  end.

Definition isServiceError (e : JsError) : bool :=
  statusAtLeast500 e || codeIs e "ECONNRESET" || codeIs e "ETIMEDOUT".

Definition handleRunpodError (s : State) (now : Z) (error : JsError) : State :=
  if isServiceError error then
    let (r1, failures) := incrFailures (redis s) now in
    let s1 := withRedis (expireFailures r1 now 60) s in
    if 5 <=? failures then
      let m := metrics s1 in
      withTimers (halfOpenTimers s1 ++ [now + 300000])
        (withMetrics
           (mkMetrics (totalProcessed m) (totalFailed m) (avgProcessingTime m)
                      (queueFullRejections m) (runpodRateLimitHits m)
                      (circuitBreakerTrips m + 1) (peakConcurrency m))
           (withBreaker OPEN s1))
    else s1
  else s.

(** The callback of the breaker's [setTimeout]. *)
Definition halfOpenTimeout (s : State) : State := withBreaker HALF_OPEN s.

(** The oldest pending timer fires, once its delay has passed. *)
Definition fireHalfOpenTimer (s : State) (now : Z) : State :=
  match halfOpenTimers s with
  | t :: rest => if t <=? now then halfOpenTimeout (withTimers rest s) else s
  | [] => s
  end.

(** ** Retry logic *)

Definition retryableErrors : list string := ["ECONNRESET"; "ETIMEDOUT"; "ENOTFOUND"].

Definition shouldRetryJob (jobData : JobData) (error : JsError) : bool :=
  if (3 <=? retryCount jobData)%nat then false
  else existsb (fun err => includes (message error) err) retryableErrors
       || statusAtLeast500 error.

(** [60000 * Math.pow(2, retryCount - 1)], for the incremented [retryCount]. *)
Definition retryDelay (retryCount : nat) : Z :=
  60000 * 2 ^ (Z.of_nat retryCount - 1).

(** [new Date(t).toISOString()] throws a RangeError outside the range of
    [Date]; inside it the string parses back to [t]. *)
Definition validDate (t : Z) : bool := Z.abs t <=? 8640000000000000.

(** [None]: the RangeError, thrown before anything is written. *)
Definition addJobToRetryQueue (s : State) (now : Z) (jobData : JobData)
           (errorMessage : string) : option State :=
  let retryCount' := (retryCount jobData + 1)%nat in
  let delay := retryDelay retryCount' in
  if validDate (now + delay) then
    let retryJobData :=
      mkJob (separationId jobData) (userId jobData) (storageType jobData)
            (filePath jobData) (publicUrl jobData) (fileSize jobData)
            (priority jobData) (addedAt jobData) retryCount'
            (estimatedTime jobData) (Some errorMessage) (Some (now + delay)) in
    let s1 := withRedis (withQueueRetry (lpush retryJobData (queueRetry (redis s)))
                                        (redis s)) s in
    Some (updateJobStatus s1 now (separationId jobData) "RETRY_SCHEDULED"
            (DRetryScheduled retryCount' (Qceiling (inject_Z delay / inject_Z 60000))
                             errorMessage))
  else None.

(** ** Admission *)

Record AddResult := mkAddResult {
  returned : option bool;        (* [None]: the promise is rejected *)
  immediate : option Priority    (* the [setImmediate(processQueue(priority))] *)
}.

Definition isFileUpload (j : JobData) : bool :=
  match storageType j with
  | Some t => String.eqb t "file" || String.eqb t "local"
  | None => false
  end.

Definition queueOf (p : Priority) (r : Redis) : list JobData :=
  match p with
  | HIGH => queueFiles r
  | NORMAL => queueUrls r
  end.

Definition withQueue (p : Priority) (q : list JobData) (r : Redis) : Redis :=
  match p with
  | HIGH => withQueueFiles q r
  | NORMAL => withQueueUrls q r
  end.

Definition bumpQueueFull (m : Metrics) : Metrics :=
  mkMetrics (totalProcessed m) (totalFailed m) (avgProcessingTime m)
            (queueFullRejections m + 1) (runpodRateLimitHits m)
            (circuitBreakerTrips m) (peakConcurrency m).

Definition addJob (s : State) (now : Z) (jobData : option JobData) : State * AddResult :=
  match jobData with
  | None =>
      (* the catch block reads [jobData.separationId] of a null: TypeError *)
      (s, mkAddResult None None)
  | Some jd =>
      if negb (truthy (separationId jd)) then
        (updateJobStatus s now (separationId jd) "QUEUE_ERROR"
           (DQueueError "Invalid job data: separationId is required"),
         mkAddResult (Some false) None)
      else
        let uid := idString (orElse (userId jd) (Some "unknown")) in
        let (s1, ok) := checkUserLimits s now uid in
        if negb ok then
          (updateJobStatus s1 now (separationId jd) "RATE_LIMITED"
             (DRateLimited "Rate limit exceeded. Max 2 concurrent jobs, 5 per hour." uid),
           mkAddResult (Some false) None)
        else if Breaker_eqb (circuitBreakerState s1) OPEN then
          (updateJobStatus s1 now (separationId jd) "SERVICE_UNAVAILABLE"
             (DServiceUnavailable
                "Service temporarily unavailable due to high load. Please try again in a few minutes."),
           mkAddResult (Some false) None)
        else
          let currentQueueSize := getTotalQueueSize s1 in
          if MAX_QUEUE_SIZE (cfg s1) <=? currentQueueSize then
            let s2 := withMetrics (bumpQueueFull (metrics s1)) s1 in
            (updateJobStatus s2 now (separationId jd) "QUEUE_FULL"
               (DQueueFull "Server is at capacity. Please try again in a few minutes."
                           currentQueueSize (MAX_QUEUE_SIZE (cfg s1))),
             mkAddResult (Some false) None)
          else
            let p := if isFileUpload jd then HIGH else NORMAL in
            let enhancedJobData :=
              mkJob (separationId jd) (Some uid) (storageType jd)
                    (filePath jd) (publicUrl jd) (fileSize jd)
                    (Some p) (Some now) 0%nat
                    (Some (estimateProcessingTime jd)) (lastError jd) (retryAt jd) in
            let s2 := withRedis (withQueue p (lpush enhancedJobData (queueOf p (redis s1)))
                                           (redis s1)) s1 in
            let s3 := updateUserLimits s2 now uid in
            let queuePosition := llen (queueOf p (redis s3)) in
            let estimatedWait := calculateEstimatedWait s3 queuePosition p in
            let s4 := updateJobStatus s3 now (separationId jd) "QUEUED"
                        (DQueued p queuePosition
                                 (jsonCeil (numDiv estimatedWait (numOfZ 60))) uid) in
            (s4, mkAddResult (Some true)
                   (if mapSize (processingJobs s4) <? MAX_CONCURRENT_JOBS (cfg s4)
                    then Some p else None))
  end.

(** ** Dispatch *)

Definition bumpPeak (n : Z) (m : Metrics) : Metrics :=
  mkMetrics (totalProcessed m) (totalFailed m) (avgProcessingTime m)
            (queueFullRejections m) (runpodRateLimitHits m)
            (circuitBreakerTrips m) (Z.max (peakConcurrency m) n).

Definition noResponseError : JsError :=
  mkError "Failed to get valid response from RunPod" None None.

(** The catch block of [startJobProcessing]. *)
Definition submissionFailed (s : State) (now : Z) (jobData : JobData) (error : JsError)
  : State :=
  let s1 := handleRunpodError s now error in
  let s2 := withProcessing (mapDelete (separationId jobData) (processingJobs s1)) s1 in
  if shouldRetryJob jobData error then
    match addJobToRetryQueue s2 now jobData (message error) with
    | Some s3 => s3
    | None => s2   (* the RangeError leaves the method; the caller logs it *)
    end
  else
    updateJobStatus s2 now (separationId jobData) "FAILED"
      (DFailed (message error) "runpod_submission").

Definition startJobProcessing (s : State) (now : Z) (jobData : JobData)
           (outcome : SubmitOutcome) : State :=
  let sid := separationId jobData in
  let s1 := withProcessing (mapSet sid (mkProc jobData now None None) (processingJobs s)) s in
  let s2 := withMetrics (bumpPeak (mapSize (processingJobs s1)) (metrics s1)) s1 in
  let s3 := updateJobStatus s2 now sid "PROCESSING"
              (DSubmitting "Submitting to audio separation service..." now 10) in
  let s4 := recordRunpodRequest s3 now in
  let s5 := withCalls (runpodCalls s4 ++
                         [mkCall (orElse (filePath jobData) (publicUrl jobData))
                                 (getTimeoutForJob jobData) now]) s4 in
  let accepted (id : option string) :=
    let s6 := match mapGet sid (processingJobs s5) with
              | Some pj => withProcessing
                             (mapSet sid (mkProc (pjob pj) (startedAt pj) id (Some now))
                                     (processingJobs s5)) s5
              | None => s5
              end in
    let s7 := updateJobStatus s6 now sid "PROCESSING"
                (DInProgress "Audio separation in progress..." id 25) in
    if Breaker_eqb (circuitBreakerState s7) HALF_OPEN then withBreaker CLOSED s7 else s7 in
  match outcome with
  | Accepted id => if truthy id then accepted id
                   else submissionFailed s5 now jobData noResponseError
  | NoResult => submissionFailed s5 now jobData noResponseError
  | SubmitThrows e => submissionFailed s5 now jobData e
  end.

Definition bumpRateLimitHits (m : Metrics) : Metrics :=
  mkMetrics (totalProcessed m) (totalFailed m) (avgProcessingTime m)
            (queueFullRejections m) (runpodRateLimitHits m + 1)
            (circuitBreakerTrips m) (peakConcurrency m).

(** [processQueue] up to its first [await]: the two checks. *)
Definition processQueueCheck (s : State) (now : Z) (p : Priority) : State * bool :=
  if negb (canProcessMoreJobs s p) then (s, false)
  else
    let (s1, ok) := canMakeRunpodRequest s now in
    if negb ok then (withMetrics (bumpRateLimitHits (metrics s1)) s1, false)
    else (s1, true).

(** [processQueue] from the [rpop] on. *)
Definition processQueueDispatch (s : State) (now : Z) (p : Priority)
           (outcome : SubmitOutcome) : State :=
  match rpop (queueOf p (redis s)) with
  | None => s
  | Some (job, rest) =>
      startJobProcessing (withRedis (withQueue p rest (redis s)) s) now job outcome
  end.

(** A dispatcher tick that runs without another task in between. *)
Definition processQueue (s : State) (now : Z) (p : Priority) (outcome : SubmitOutcome)
  : State :=
  let (s1, go) := processQueueCheck s now p in
  if go then processQueueDispatch s1 now p outcome else s1.

Definition processRetryQueue (s : State) (now : Z) : State * option Priority :=
  match rpop (queueRetry (redis s)) with
  | None => (s, None)
  | Some (job, rest) =>
      let s1 := withRedis (withQueueRetry rest (redis s)) s in
      let due := match retryAt job with
                 | Some t => t <=? now
                 | None => false      (* an invalid date compares false *)
                 end in
      if due then
        let job' :=
          mkJob (separationId job) (userId job) (storageType job)
                (filePath job) (publicUrl job) (fileSize job)
                (priority job) (addedAt job) (retryCount job)
                (estimatedTime job) None None in
        let (s2, res) := addJob s1 now (Some job') in
        (s2, immediate res)
      else
        (withRedis (withQueueRetry (lpush job (queueRetry (redis s1))) (redis s1)) s1, None)
  end.

(** ** Monitoring *)

(** [totalProcessed++] and
    [avgProcessingTime = (avgProcessingTime + processingTime/1000) / 2], on
    doubles; the processing time is a difference of two instants. *)
Definition recordCompletion (processingTime : Z) (m : Metrics) : Metrics :=
  mkMetrics (totalProcessed m + 1) (totalFailed m)
            (numDiv (numAdd (avgProcessingTime m)
                            (numDiv (numOfZ processingTime) (numOfZ 1000)))
                    (numOfZ 2))
            (queueFullRejections m) (runpodRateLimitHits m)
            (circuitBreakerTrips m) (peakConcurrency m).

Definition bumpFailed (m : Metrics) : Metrics :=
  mkMetrics (totalProcessed m) (totalFailed m + 1) (avgProcessingTime m)
            (queueFullRejections m) (runpodRateLimitHits m)
            (circuitBreakerTrips m) (peakConcurrency m).

(** [Math.round(ms / 1000)] *)
Definition roundSeconds (ms : Z) : Z := (ms + 500) / 1000.

Definition handleJobCompletion (s : State) (now : Z) (sid : Id)
           (runpodResult : RunpodStatus) : State :=
  match mapGet sid (processingJobs s) with
  | None => s
  | Some processingJob =>
      let processingTime := now - startedAt processingJob in
      let s1 := withMetrics (recordCompletion processingTime (metrics s)) s in
      let s2 := updateJobStatus s1 now sid "COMPLETE"
                  (DComplete (vocal_audio runpodResult) (instrument_audio runpodResult)
                             (roundSeconds processingTime) 100) in
      let s3 := withProcessing (mapDelete sid (processingJobs s2)) s2 in
      decrementUserConcurrent s3 now (userId (pjob processingJob))
  end.

Definition handleJobFailure (s : State) (now : Z) (sid : Id)
           (runpodResult : RunpodStatus) : State :=
  let processingJob := mapGet sid (processingJobs s) in
  let s1 := withMetrics (bumpFailed (metrics s)) s in
  let s2 := updateJobStatus s1 now sid "FAILED"
              (DFailed (idString (orElse (rerror runpodResult) (Some "Processing failed")))
                       "runpod_processing") in
  let s3 := withProcessing (mapDelete sid (processingJobs s2)) s2 in
  match processingJob with
  | Some pj => decrementUserConcurrent s3 now (userId (pjob pj))
  | None => s3
  end.

Definition updateJobProgress (s : State) (now : Z) (sid : Id)
           (runpodStatus : RunpodStatus) : State :=
  let progress :=
    if String.eqb (rstatus runpodStatus) "IN_QUEUE" then 30
    else if String.eqb (rstatus runpodStatus) "IN_PROGRESS" then 70
    else 50 in
  updateJobStatus s now sid "PROCESSING" (DProgress progress (rstatus runpodStatus)).

Definition handleJobTimeout (s : State) (now : Z) (sid : Id) : State :=
  let processingJob := mapGet sid (processingJobs s) in
  let s1 := updateJobStatus s now sid "TIMEOUT" (DTimeout "Job timed out after 45 minutes") in
  let s2 := withProcessing (mapDelete sid (processingJobs s1)) s1 in
  match processingJob with
  | Some pj => decrementUserConcurrent s2 now (userId (pjob pj))
  | None => s2
  end.

(** The body of the loop of [monitorRunningJobs], for one job of the
    snapshot; [poll] answers [runpodService.checkStatus]. *)
Definition monitorJob (now : Z) (poll : string -> PollOutcome) (s : State) (job : ProcJob)
  : State :=
  if negb (truthy (runpodJobId job)) then s
  else
    let sid := separationId (pjob job) in
    match poll (idString (runpodJobId job)) with
    | PollOk status =>
        if String.eqb (rstatus status) "COMPLETED" then handleJobCompletion s now sid status
        else if String.eqb (rstatus status) "FAILED" then handleJobFailure s now sid status
        else updateJobProgress s now sid status
    | PollThrows =>
        let jobAge := now - startedAt job in
        if 45 * 60 * 1000 <? jobAge then handleJobTimeout s now sid else s
    end.

Definition monitorRunningJobs (s : State) (now : Z) (poll : string -> PollOutcome) : State :=
  fold_left (monitorJob now poll) (mapValues (processingJobs s)) s.

(** ** Cleanup *)

Definition staleJobs (s : State) (now : Z) : list Id :=
  map fst (List.filter (fun kv : Id * ProcJob =>
                          60 * 60 * 1000 <? now - startedAt (snd kv))
                       (processingJobs s)).

Definition performCleanup (s : State) (now : Z) : State :=
  fold_left (fun st jobId => handleJobTimeout st now jobId) (staleJobs s now) s.

(** ** The service as a transition system *)

(** The state the constructor builds, on an empty keyspace. *)
Definition emptyRedis : Redis := mkRedis [] [] [] ∅ ∅ None.

Definition initialMetrics : Metrics := mkMetrics 0 0 (numOfZ 120) 0 0 0 0.

Definition initialState (c : Config) : State :=
  mkState c emptyRedis [] [] CLOSED initialMetrics [] [].

(** [parseInt(process.env.X || default)] with no variable set. *)
Definition defaultConfig : Config := mkConfig 8 5 3 50.

(** What can happen to the service: a call of [addJob], a firing timer, each
    run to completion. *)
Inductive Event :=
| EvAddJob (jobData : option JobData)
| EvProcessQueue (p : Priority) (outcome : SubmitOutcome)
| EvMonitor (poll : string -> PollOutcome)
| EvProcessRetryQueue
| EvCleanup
| EvResetRateLimits
| EvHalfOpen.

Definition step (s : State) (now : Z) (e : Event) : State :=
  match e with
  | EvAddJob jd => fst (addJob s now jd)
  | EvProcessQueue p o => processQueue s now p o
  | EvMonitor poll => monitorRunningJobs s now poll
  | EvProcessRetryQueue => fst (processRetryQueue s now)
  | EvCleanup => performCleanup s now
  | EvResetRateLimits => resetRateLimits s now
  | EvHalfOpen => fireHalfOpenTimer s now
  end.

(** A run: events with the instant each one happens at. *)
Definition run (s : State) (trace : list (Z * Event)) : State :=
  fold_left (fun st te => step st (fst te) (snd te)) trace s.

(** The instants of a run never go back, starting from [t0]. *)
Fixpoint chronological (t0 : Z) (trace : list (Z * Event)) : Prop :=
  match trace with
  | [] => True
  | (t, _) :: rest => t0 <= t /\ chronological t rest
  end.

(** ** Statistics and health *)

Record QueueStatistics := mkStatistics {
  highPriorityWaiting : Z;
  normalPriorityWaiting : Z;
  retryWaiting : Z;
  totalWaiting : Z;
  currentlyProcessing : Z;
  maxConcurrent : Z;
  runpodRateLimit : Z;
  runpodRequestsLastMinute : Z;
  statisticsBreaker : Breaker;
  statisticsMetrics : Metrics
}.

Definition getQueueStatistics (s : State) : QueueStatistics :=
  let highPriority := llen (queueFiles (redis s)) in
  let normalPriority := llen (queueUrls (redis s)) in
  let retryQueue := llen (queueRetry (redis s)) in
  mkStatistics highPriority normalPriority retryQueue
               (highPriority + normalPriority + retryQueue)
               (mapSize (processingJobs s)) (MAX_CONCURRENT_JOBS (cfg s))
               (RUNPOD_RATE_LIMIT (cfg s))
               (Z.of_nat (length (runpodRequestTimes s)))
               (circuitBreakerState s) (metrics s).

Record HealthChecks := mkChecks {
  checkRedis : bool;
  checkRunpod : bool;
  checkQueueSize : Z;
  checkProcessing : Z
}.

Record Health := mkHealth {
  healthy : bool;
  checks : HealthChecks;
  healthMetrics : Metrics;
  healthTimestamp : Z
}.

(** [ping]: whether [redis.ping()] answers; a ping that throws is caught and
    leaves [checks.redis] false. *)
Definition healthCheck (s : State) (now : Z) (ping : bool) : Health :=
  let c := mkChecks ping (Breaker_eqb (circuitBreakerState s) CLOSED)
                    (getTotalQueueSize s) (mapSize (processingJobs s)) in
  mkHealth (checkRedis c && checkRunpod c && (checkQueueSize c <? MAX_QUEUE_SIZE (cfg s)))
           c (metrics s) now.

(** ** The worker's client ([src/services/runpodService.js])

    The HTTP client is an oracle: the answers it gives to the successive
    requests of one call are a list.  A call that needs more answers than the
    list holds has not returned yet ([None]). *)

(** An answer to [client.post(.../run)]: a response with [data.id], a
    response without data, or an error thrown by the client. *)
Inductive PostAnswer :=
| PostData (id : option string)
| PostNoData
| PostFails (e : JsError).

Definition missingUrlError : JsError := mkError "Audio URL is required" None None.

Definition missingIdError : JsError :=
  mkError "Invalid response from RunPod API: Missing job ID" None None.

Definition authenticationError : JsError :=
  mkError "RunPod API authentication failed. Please check your API key configuration."
          None None.

Definition statusIs (e : JsError) (n : Z) : bool :=
  match responseStatus e with
  | Some m => m =? n
  | None => false
  end.

(** The result, and the number of requests made.  An argument or an answer
    refused inside the [try] is thrown to the method's own [catch], which
    throws it on; a 401 is thrown as [authenticationError]; after a server
    error the method calls itself. *)
Fixpoint processAsynchronously (audioUrl : option string) (answers : list PostAnswer)
  : option SubmitOutcome * nat :=
  if negb (truthy audioUrl) then (Some (SubmitThrows missingUrlError), 0%nat)
  else
    match answers with
    | [] => (None, 0%nat)
    | a :: rest =>
        match a with
        | PostData id =>
            if truthy id then (Some (Accepted id), 1%nat)
            else (Some (SubmitThrows missingIdError), 1%nat)
        | PostNoData => (Some (SubmitThrows missingIdError), 1%nat)
        | PostFails e =>
            if statusIs e 401 then (Some (SubmitThrows authenticationError), 1%nat)
            else if statusAtLeast500 e then
              let (r, n) := processAsynchronously audioUrl rest in (r, S n)
            else (Some (SubmitThrows e), 1%nat)
        end
    end.

(** The [output] of a status answer, and the answer's [data].  The worker
    always names a [status]. *)
Record WorkerOutput := mkOutput {
  processing_status : option string;
  outVocal : option string;
  outInstrument : option string;
  failed_reason : option string
}.

Record WorkerData := mkData {
  dataStatus : string;
  dataOutput : option WorkerOutput;
  dataError : option string;
  dataExecutionTime : option Z
}.

(** An answer to [client.get(.../status/<id>)]: a response with data (an
    object), a response whose data is not an object, or an error. *)
Inductive GetAnswer :=
| GetData (d : WorkerData)
| GetNoData
| GetFails (e : JsError).

Definition isString (o : option string) (v : string) : bool :=
  match o with
  | Some x => String.eqb x v
  | None => false
  end.

(** What [checkStatus] returns for the data of a response, as the monitor
    reads it: [status], [output?.vocal_audio], [output?.instrument_audio],
    [executionTime], [error]. *)
Definition standardize (data : WorkerData) : RunpodStatus :=
  let passed :=
    mkRunpodStatus (dataStatus data)
                   (match dataOutput data with Some o => outVocal o | None => None end)
                   (match dataOutput data with Some o => outInstrument o | None => None end)
                   (dataExecutionTime data) (dataError data) in
  if String.eqb (dataStatus data) "COMPLETED" then
    match dataOutput data with
    | Some o =>
        if isString (processing_status o) "COMPLETED" then
          mkRunpodStatus (dataStatus data) (outVocal o) (outInstrument o)
                         (dataExecutionTime data) None
        else if isString (processing_status o) "FAILED" then
          mkRunpodStatus "FAILED" None None (dataExecutionTime data)
                         (Some (idString (orElse (failed_reason o)
                                                 (Some "Processing failed"))))
        else passed
    | None => passed
    end
  else if String.eqb (dataStatus data) "FAILED" then
    mkRunpodStatus "FAILED" None None (dataExecutionTime data)
                   (Some (idString (orElse (dataError data) (Some "Job failed"))))
  else if String.eqb (dataStatus data) "IN_QUEUE" || String.eqb (dataStatus data) "IN_PROGRESS"
  then
    mkRunpodStatus (dataStatus data) None None
                   (Some (match dataExecutionTime data with
                          | Some t => t
                          | None => 0
                          end))
                   None
  else passed.

Fixpoint checkStatus (jobId : option string) (answers : list GetAnswer)
  : option PollOutcome * nat :=
  if negb (truthy jobId) then (Some PollThrows, 0%nat)
  else
    match answers with
    | [] => (None, 0%nat)
    | a :: rest =>
        match a with
        | GetData d => (Some (PollOk (standardize d)), 1%nat)
        | GetNoData => (Some PollThrows, 1%nat)
        | GetFails e =>
            if statusAtLeast500 e then
              let (r, n) := checkStatus jobId rest in (r, S n)
            else (Some PollThrows, 1%nat)
        end
    end.

(** ** What the properties speak of *)

(** The job the retry path is to push, in the words of the specification:
    count [r + 1], retry at [now + base * 2^r]. *)
Definition retriedJob (now : Z) (jobData : JobData) (errorMessage : string) : JobData :=
  mkJob (separationId jobData) (userId jobData) (storageType jobData)
        (filePath jobData) (publicUrl jobData) (fileSize jobData)
        (priority jobData) (addedAt jobData) (S (retryCount jobData))
        (estimatedTime jobData) (Some errorMessage)
        (Some (now + 60000 * 2 ^ Z.of_nat (retryCount jobData))).

(** The status of a job as the store holds it. *)
Definition statusOf (s : State) (sid : Id) : option string :=
  stStatus <$> (statuses (redis s) !! idString sid).

(** What [updateJobStatus] leaves alone. *)
Definition sameButStatuses (s s' : State) : Prop :=
  cfg s' = cfg s /\
  queueFiles (redis s') = queueFiles (redis s) /\
  queueUrls (redis s') = queueUrls (redis s) /\
  queueRetry (redis s') = queueRetry (redis s) /\
  users (redis s') = users (redis s) /\
  runpod_failures (redis s') = runpod_failures (redis s) /\
  processingJobs s' = processingJobs s /\
  runpodRequestTimes s' = runpodRequestTimes s /\
  circuitBreakerState s' = circuitBreakerState s /\
  metrics s' = metrics s /\
  halfOpenTimers s' = halfOpenTimers s /\
  runpodCalls s' = runpodCalls s.

(** The condition under which [checkUserLimits] refuses. *)
Definition overLimit (u : UserData) (now : Z) : Prop :=
  2 <= concurrent u \/ (now - lastHourReset u <= 3600000 /\ 5 <= hourly u).

(** The user of a submission: [jobData.userId || 'unknown']. *)
Definition userOf (jobData : JobData) : string :=
  idString (orElse (userId jobData) (Some "unknown")).

(** The call [startJobProcessing] makes for a job. *)
Definition callFor (now : Z) (jobData : JobData) : RunpodCall :=
  mkCall (orElse (filePath jobData) (publicUrl jobData)) (getTimeoutForJob jobData) now.

(** A queued job carries an id and a user. *)
Definition jobOk (j : JobData) : Prop :=
  truthy (separationId j) = true /\ truthy (userId j) = true.

(** A tracked job is a queued job, started in the past. *)
Definition entryOk (now : Z) (kv : Id * ProcJob) : Prop :=
  jobOk (pjob (snd kv)) /\ startedAt (snd kv) <= now.

(** The instants of the calls made to the worker. *)
Definition callTimes (s : State) : list Z := map callTime (runpodCalls s).

(** The instants of [l] later than [c]. *)
Definition after (c : Z) (l : list Z) : list Z := List.filter (fun x => c <? x) l.

(** The instants of [l] in the 60 seconds that end at [u]. *)
Definition window (u : Z) (l : list Z) : list Z :=
  List.filter (fun x => (u - 60000 <? x) && (x <=? u)) l.

(** A number that is not negative: finite, or the positive infinity. *)
Definition nonNegative (x : Num) : Prop :=
  match x with
  | Fin q => (0 <= q)%Q
  | PInf => True
  | NegZero | NInf | NaN => False
  end.

(** A finite number between 0 and [2^m]. *)
Definition upTo (m : Z) (x : Num) : Prop :=
  exists q, x = Fin q /\ (0 <= q)%Q /\ (q <= 2 ^ m)%Q.

(** The slots of a class, in the words of the claim. *)
Definition classSlots (c : Config) (p : Priority) : Z :=
  match p with
  | HIGH => PRIORITY_FILE_LIMIT c
  | NORMAL => MAX_CONCURRENT_JOBS c - PRIORITY_FILE_LIMIT c
  end.

(** The instants a [Date] can hold lie within this many milliseconds of the
    epoch. *)
Definition dateLimit : Z := 8640000000000000.

(** What a run keeps under the configuration [c] when each of its instants is
    one a [Date] can hold: the configuration, tracked jobs started at such
    instants, and an average processing time that is finite, not negative and
    at most [2^45] seconds. *)
Record Dated (c : Config) (s : State) : Prop := mkDated {
  dated_cfg : cfg s = c;
  dated_proc : Forall (fun kv : Id * ProcJob => - dateLimit <= startedAt (snd kv))
                      (processingJobs s);
  dated_avg : upTo 45 (avgProcessingTime (metrics s))
}.

(** The part of the state [Dated] reads. *)
Definition datedView (s : State) := (cfg s, processingJobs s, avgProcessingTime (metrics s)).

(** What every run keeps, at the instant [now] of its last event, under the
    rate limit [limit]: queued and tracked jobs carry an id and a user, tracked
    jobs started in the past, the average processing time is not negative, the
    request-time list holds every call of the last 60 seconds, and no window
    of 60 seconds holds more than [limit] calls. *)
Record Inv (limit : Z) (now : Z) (s : State) : Prop := mkInv {
  inv_limit : RUNPOD_RATE_LIMIT (cfg s) = limit;
  inv_files : Forall jobOk (queueFiles (redis s));
  inv_urls : Forall jobOk (queueUrls (redis s));
  inv_retry : Forall jobOk (queueRetry (redis s));
  inv_proc : Forall (entryOk now) (processingJobs s);
  inv_avg : nonNegative (avgProcessingTime (metrics s));
  inv_recent : forall c, now - 60000 <= c ->
                         after c (callTimes s) = after c (runpodRequestTimes s);
  inv_window : forall u, Z.of_nat (length (window u (callTimes s))) <= Z.max 0 limit
}.

(** The part of the state the invariant reads. *)
Definition view (s : State) :=
  (queueFiles (redis s), queueUrls (redis s), queueRetry (redis s), processingJobs s,
   avgProcessingTime (metrics s), runpodRequestTimes s, runpodCalls s,
   RUNPOD_RATE_LIMIT (cfg s)).

(** The failures counted by [runpod_failures], none once the key is gone. *)
Definition liveFailures (r : Redis) (now : Z) : Z :=
  match runpod_failures r with
  | Some (n, e) => if keyLive now e then n else 0
  | None => 0
  end.

(** A retry entry is due. *)
Definition isDue (job : JobData) (now : Z) : bool :=
  match retryAt job with
  | Some t => t <=? now
  | None => false
  end.

(** A retry entry without its retry fields, as it is submitted again. *)
Definition clearedJob (job : JobData) : JobData :=
  mkJob (separationId job) (userId job) (storageType job)
        (filePath job) (publicUrl job) (fileSize job)
        (priority job) (addedAt job) (retryCount job)
        (estimatedTime job) None None.

(** The class of a submission. *)
Definition classOf (jobData : JobData) : Priority :=
  if isFileUpload jobData then HIGH else NORMAL.

(** The job an admission puts on the list of its class. *)
Definition admittedJob (now : Z) (jobData : JobData) : JobData :=
  mkJob (separationId jobData) (Some (userOf jobData)) (storageType jobData)
        (filePath jobData) (publicUrl jobData) (fileSize jobData)
        (Some (classOf jobData)) (Some now) 0%nat
        (Some (estimateProcessingTime jobData)) (lastError jobData) (retryAt jobData).

(** The four checks of an admission all pass. *)
Definition admissible (s : State) (now : Z) (jobData : JobData) : Prop :=
  truthy (separationId jobData) = true /\
  ~ overLimit (hgetall (redis s) now (userOf jobData)) now /\
  circuitBreakerState s <> OPEN /\
  getTotalQueueSize s < MAX_QUEUE_SIZE (cfg s).

(** The instant of the last event of a run that starts at [t0]. *)
Definition endOf (t0 : Z) (trace : list (Z * Event)) : Z :=
  fold_left (fun _ te => fst te) trace t0.

(** The per-user limits. *)
Definition withinLimits (u : UserData) : Prop := concurrent u <= 2 /\ hourly u <= 5.

(** Every stored user hash is within the limits. *)
Definition usersOk (r : Redis) : Prop := map_Forall (fun _ u => withinLimits u) (users r).

(** The caps every run keeps under the configuration [c]: no user over the
    limits, every job on the list of its class, no more tracked jobs, tracked
    HIGH jobs or peak concurrency than configured. *)
Record Caps (c : Config) (s : State) : Prop := mkCaps {
  caps_cfg : cfg s = c;
  caps_users : usersOk (redis s);
  caps_files : Forall (fun j => priority j = Some HIGH) (queueFiles (redis s));
  caps_urls : Forall (fun j => priority j = Some NORMAL) (queueUrls (redis s));
  caps_size : mapSize (processingJobs s) <= Z.max 0 (MAX_CONCURRENT_JOBS c);
  caps_high : countPriority HIGH (processingJobs s) <= Z.max 0 (PRIORITY_FILE_LIMIT c);
  caps_peak : peakConcurrency (metrics s) <= Z.max 0 (MAX_CONCURRENT_JOBS c)
}.

(** The part of the state the caps read. *)
Definition capsView (s : State) :=
  (cfg s, users (redis s), queueFiles (redis s), queueUrls (redis s), processingJobs s,
   peakConcurrency (metrics s)).

(** The configuration and the three waiting lists. *)
Definition listsView (s : State) :=
  (cfg s, queueFiles (redis s), queueUrls (redis s), queueRetry (redis s)).

(** The breaker and its pending timers. *)
Definition breakerView (s : State) := (circuitBreakerState s, halfOpenTimers s).

(** What an event other than the breaker's own timer can do to the breaker
    and its timers at the instant [now]. *)
Inductive breakerStep (now : Z) (s s' : State) : Prop :=
| breakerSame :
    circuitBreakerState s' = circuitBreakerState s ->
    halfOpenTimers s' = halfOpenTimers s ->
    breakerStep now s s'
| breakerCloses :
    circuitBreakerState s = HALF_OPEN ->
    circuitBreakerState s' = CLOSED ->
    halfOpenTimers s' = halfOpenTimers s ->
    breakerStep now s s'
| breakerTrips :
    circuitBreakerState s' = OPEN ->
    halfOpenTimers s' = halfOpenTimers s ++ [now + 300000] ->
    breakerStep now s s'.

(** An OPEN breaker has a timer pending, and every timer is due within five
    minutes of [now]. *)
Definition coolsDown (now : Z) (s : State) : Prop :=
  (circuitBreakerState s = OPEN -> halfOpenTimers s <> []) /\
  Forall (fun t => t <= now + 300000) (halfOpenTimers s).

(** The answers of the worker that [checkStatus] reports as FAILED: a failed
    job, or a completed job whose output says that the processing failed. *)
Definition reportsFailure (d : WorkerData) : bool :=
  String.eqb (dataStatus d) "FAILED" ||
  (String.eqb (dataStatus d) "COMPLETED" &&
   match dataOutput d with
   | Some o => isString (processing_status o) "FAILED"
   | None => false
   end).

(** [output?.vocal_audio] and [output?.instrument_audio] of an answer. *)
Definition vocalOf (d : WorkerData) : option string :=
  match dataOutput d with Some o => outVocal o | None => None end.

Definition instrumentOf (d : WorkerData) : option string :=
  match dataOutput d with Some o => outInstrument o | None => None end.

(** ** Submissions, states and runs used as examples *)

(** An instant, in milliseconds since the epoch. *)
Definition T0 : Z := 1700000000000.

(** A queued job that has been retried twice. *)
Definition timedOutJob : JobData :=
  mkJob (Str "sep1") (Some "u1") (Some "url") (Some "https://host/a.mp3") None None
        (Some NORMAL) (Some T0) 2%nat (Some 120) None None.

(** A submission without [separationId], and one without payload. *)
Definition noIdJob : JobData :=
  mkJob Undefined (Some "u1") (Some "file") (Some "https://host/a.mp3") None (Some 1000)
        None None 0%nat None None None.

(** A submission whose [separationId] is [null]. *)
Definition nullIdJob : JobData :=
  mkJob Null (Some "u1") (Some "file") (Some "https://host/a.mp3") None (Some 1000)
        None None 0%nat None None None.

Definition noPayloadJob : JobData :=
  mkJob (Str "sep2") (Some "u1") (Some "url") None None None
        None None 0%nat None None None.

(** After exactly one hour the window has not been reset: five admissions at
    [T0], a sixth submission at [T0 + 3600000]. *)
Definition hourState : State :=
  withRedis (hsetUser emptyRedis "u1" (mkUser 0 5 T0 (Some (T0 + 7200000))))
            (initialState defaultConfig).

(** A URL job of user [u1]. *)
Definition sixthJob : JobData :=
  mkJob (Str "sep6") (Some "u1") (Some "url") (Some "https://host/f.mp3") None None
        None None 0%nat None None None.

Definition fillerJob : JobData :=
  mkJob (Str "old") (Some "u9") (Some "url") (Some "https://host/o.mp3") None None
        (Some NORMAL) (Some T0) 0%nat (Some 120) None None.

(** Fifty queued jobs, and a user whose hourly window started more than an
    hour before the submission. *)
Definition fullState : State :=
  withRedis (withQueueUrls (repeat fillerJob 50)
               (hsetUser emptyRedis "u1" (mkUser 0 3 T0 None)))
            (initialState defaultConfig).

Definition lateJob : JobData :=
  mkJob (Str "sep7") (Some "u1") (Some "url") (Some "https://host/g.mp3") None None
        None None 0%nat None None None.

(** A client error of the worker. *)
Definition badRequest : JsError :=
  mkError "Request failed with status code 400" (Some "ERR_BAD_REQUEST") (Some 400).

(** A job is admitted, and the tick its admission triggers submits it; the
    worker refuses it. *)
Definition refusedRun : State :=
  run (initialState defaultConfig)
      [(T0, EvAddJob (Some sixthJob));
       (T0, EvProcessQueue NORMAL (SubmitThrows badRequest))].

(** A service-level error. *)
Definition connReset : JsError :=
  mkError "read ECONNRESET" (Some "ECONNRESET") None.

(** The upload numbered [n], of the user numbered [n]. *)
Definition upload (n : string) : JobData :=
  mkJob (Str ("sep-" ++ n)%string) (Some ("user-" ++ n)%string) (Some "file")
        (Some ("https://host/" ++ n)%string) None (Some 1000)
        None None 0%nat None None None.

(** The URL job numbered [n], of the user numbered [n]. *)
Definition urlOf (n : string) : JobData :=
  mkJob (Str ("url-" ++ n)%string) (Some ("guest-" ++ n)%string) (Some "url")
        (Some ("https://remote/" ++ n)%string) None None
        None None 0%nat None None None.

(** A worker that has finished its first job and works on the others. *)
Definition pollFirstDone (id : string) : PollOutcome :=
  if String.eqb id "rp-1"
  then PollOk (mkRunpodStatus "COMPLETED" (Some "https://out/v.mp3") (Some "https://out/i.mp3")
                              None None)
  else PollOk (mkRunpodStatus "IN_PROGRESS" None None None None).

(** Every admission is followed by the tick it triggers.  Three uploads are
    accepted by the worker and fill the HIGH class, so that a fourth upload
    waits on its list.  Then five URL jobs fail with a connection reset within
    five seconds, which opens the breaker.  The monitor sees the first upload
    completed.  The last tick finds eight requests in the last minute.  (The
    timer ticks left out find the HIGH class full, or eight requests in the
    last minute, or an empty list; the later sweeps of the monitor find the
    other uploads in progress.) *)
Definition trippedRun : State :=
  run (initialState defaultConfig)
      [(T0 + 100, EvAddJob (Some (upload "1")));
       (T0 + 100, EvProcessQueue HIGH (Accepted (Some "rp-1")));
       (T0 + 1100, EvAddJob (Some (upload "2")));
       (T0 + 1100, EvProcessQueue HIGH (Accepted (Some "rp-2")));
       (T0 + 2100, EvAddJob (Some (upload "3")));
       (T0 + 2100, EvProcessQueue HIGH (Accepted (Some "rp-3")));
       (T0 + 3100, EvAddJob (Some (upload "4")));
       (T0 + 3100, EvProcessQueue HIGH (Accepted (Some "rp-4")));
       (T0 + 10100, EvAddJob (Some (urlOf "1")));
       (T0 + 10100, EvProcessQueue NORMAL (SubmitThrows connReset));
       (T0 + 11100, EvAddJob (Some (urlOf "2")));
       (T0 + 11100, EvProcessQueue NORMAL (SubmitThrows connReset));
       (T0 + 12100, EvAddJob (Some (urlOf "3")));
       (T0 + 12100, EvProcessQueue NORMAL (SubmitThrows connReset));
       (T0 + 13100, EvAddJob (Some (urlOf "4")));
       (T0 + 13100, EvProcessQueue NORMAL (SubmitThrows connReset));
       (T0 + 14100, EvAddJob (Some (urlOf "5")));
       (T0 + 14100, EvProcessQueue NORMAL (SubmitThrows connReset));
       (T0 + 15000, EvMonitor pollFirstDone);
       (T0 + 60000, EvProcessQueue HIGH (Accepted (Some "rp-4")))].

(** A retryable error. *)
Definition timedOut : JsError := mkError "connect ETIMEDOUT" (Some "ETIMEDOUT") None.

(** A URL job whose submission times out twice: it is admitted and submitted
    at once, re-admitted by the retry timer two minutes later and submitted at
    once again, and comes before the retry timer a second time. *)
Definition firstFailure : State :=
  run (initialState defaultConfig)
      [(T0, EvAddJob (Some sixthJob));
       (T0, EvProcessQueue NORMAL (SubmitThrows timedOut))].

Definition readmitted : State := run firstFailure [(T0 + 120000, EvProcessRetryQueue)].

Definition secondFailure : State :=
  run readmitted [(T0 + 120000, EvProcessQueue NORMAL (SubmitThrows timedOut))].

Definition thirdAdmission : State := run secondFailure [(T0 + 240000, EvProcessRetryQueue)].

(** A configuration with as many HIGH slots as slots: none for NORMAL. *)
Definition noNormalSlot : Config := mkConfig 8 3 3 50.

(** One URL job, submitted on admission and being processed. *)
Definition busyRun : list (Z * Event) :=
  [(T0, EvAddJob (Some sixthJob));
   (T0, EvProcessQueue NORMAL (Accepted (Some "rp-1")))].

(** The worker reports that job completed 28.8 seconds after its start. *)
Definition finishedRun : list (Z * Event) :=
  busyRun ++ [(T0 + 28800, EvMonitor pollFirstDone)].

(** A worker that cannot be reached. *)
Definition pollFails (id : string) : PollOutcome := PollThrows.

(** The entry of the processing set for that job. *)
Definition trackedJob : ProcJob :=
  mkProc (mkJob (Str "sep6") (Some "u1") (Some "url") (Some "https://host/f.mp3") None None
                (Some NORMAL) (Some T0) 0%nat (Some 120) None None)
         T0 (Some "rp-1") (Some T0).

Definition urlJob : JobData :=
  mkJob (Str "sep-url") (Some "user-url") (Some "url") (Some "https://host/u.mp3") None None
        None None 0%nat None None None.

(** Seven uploads arrive a second apart; each is submitted by the tick its
    admission triggers and refused by the worker.  Then an upload and a URL
    job are admitted together. *)
Definition sevenCalls : State :=
  run (initialState defaultConfig)
      [(T0 + 1000, EvAddJob (Some (upload "1")));
       (T0 + 1000, EvProcessQueue HIGH (SubmitThrows badRequest));
       (T0 + 2000, EvAddJob (Some (upload "2")));
       (T0 + 2000, EvProcessQueue HIGH (SubmitThrows badRequest));
       (T0 + 3000, EvAddJob (Some (upload "3")));
       (T0 + 3000, EvProcessQueue HIGH (SubmitThrows badRequest));
       (T0 + 4000, EvAddJob (Some (upload "4")));
       (T0 + 4000, EvProcessQueue HIGH (SubmitThrows badRequest));
       (T0 + 5000, EvAddJob (Some (upload "5")));
       (T0 + 5000, EvProcessQueue HIGH (SubmitThrows badRequest));
       (T0 + 6000, EvAddJob (Some (upload "6")));
       (T0 + 6000, EvProcessQueue HIGH (SubmitThrows badRequest));
       (T0 + 7000, EvAddJob (Some (upload "7")));
       (T0 + 7000, EvProcessQueue HIGH (SubmitThrows badRequest));
       (T0 + 8000, EvAddJob (Some (upload "8")));
       (T0 + 8000, EvAddJob (Some urlJob))].

(** The two admissions have each triggered a tick.  Each tick runs its checks
    and waits for its [rpop]; both checks see seven timestamps.  Then each
    tick pops and submits. *)
Definition bothChecked : State * bool * bool :=
  let (s1, goHigh) := processQueueCheck sevenCalls (T0 + 8000) HIGH in
  let (s2, goNormal) := processQueueCheck s1 (T0 + 8000) NORMAL in
  (s2, goHigh, goNormal).

Definition bothDispatched : State :=
  processQueueDispatch
    (processQueueDispatch (fst (fst bothChecked)) (T0 + 8001) HIGH (Accepted (Some "rp-8")))
    (T0 + 8002) NORMAL (Accepted (Some "rp-9")).

(** Three uploads are being processed and fill the HIGH class; a fourth
    waits on its list. *)
Definition fourthWaits : State :=
  run (initialState defaultConfig)
      [(T0 + 100, EvAddJob (Some (upload "1")));
       (T0 + 100, EvProcessQueue HIGH (Accepted (Some "rp-1")));
       (T0 + 1100, EvAddJob (Some (upload "2")));
       (T0 + 1100, EvProcessQueue HIGH (Accepted (Some "rp-2")));
       (T0 + 2100, EvAddJob (Some (upload "3")));
       (T0 + 2100, EvProcessQueue HIGH (Accepted (Some "rp-3")));
       (T0 + 3100, EvAddJob (Some (upload "4")));
       (T0 + 3100, EvProcessQueue HIGH (Accepted (Some "rp-4")))].

(** The fourth upload, as it waits. *)
Definition fourthUpload : JobData :=
  mkJob (Str "sep-4") (Some "user-4") (Some "file") (Some "https://host/4") None
        (Some 1000) (Some HIGH) (Some (T0 + 3100)) 0%nat (Some 120) None None.

(** Five URL jobs, each submitted by the tick its admission triggers, fail
    with a connection reset within five seconds. *)
Definition fiveResets : list (Z * Event) :=
  [(T0 + 100, EvAddJob (Some (urlOf "1")));
   (T0 + 100, EvProcessQueue NORMAL (SubmitThrows connReset));
   (T0 + 1100, EvAddJob (Some (urlOf "2")));
   (T0 + 1100, EvProcessQueue NORMAL (SubmitThrows connReset));
   (T0 + 2100, EvAddJob (Some (urlOf "3")));
   (T0 + 2100, EvProcessQueue NORMAL (SubmitThrows connReset));
   (T0 + 3100, EvAddJob (Some (urlOf "4")));
   (T0 + 3100, EvProcessQueue NORMAL (SubmitThrows connReset));
   (T0 + 4100, EvAddJob (Some (urlOf "5")));
   (T0 + 4100, EvProcessQueue NORMAL (SubmitThrows connReset))].

(** The worker says that the job completed, and its output that the
    processing failed. *)
Definition badAudio : WorkerData :=
  mkData "COMPLETED" (Some (mkOutput (Some "FAILED") None None (Some "unsupported codec")))
         None (Some 4000).

(** * Properties *)

(** ** JavaScript numbers *)

Lemma pow2_pos (k : Z) : (0 < 2 ^ k)%Q.
Proof. apply Qpower_0_lt. reflexivity. Qed.

Lemma pow2_le (a b : Z) : a <= b -> (2 ^ a <= 2 ^ b)%Q.
Proof. intros H. apply Qpower_le_compat_l; [exact H | discriminate]. Qed.

Lemma pow2_lt (a b : Z) : a < b -> (2 ^ a < 2 ^ b)%Q.
Proof. intros H. apply Qpower_lt_compat_l; [exact H | reflexivity]. Qed.

Lemma pow2_le_inv (a b : Z) : (2 ^ a <= 2 ^ b)%Q -> a <= b.
Proof. intros H. apply (Qpower_le_compat_l_inv 2); [exact H | reflexivity]. Qed.

Lemma pow2_lt_inv (a b : Z) : (2 ^ a < 2 ^ b)%Q -> a < b.
Proof. intros H. apply (Qpower_lt_compat_l_inv 2); [exact H | reflexivity]. Qed.

Lemma pow2_add (a b : Z) : (2 ^ (a + b) == 2 ^ a * 2 ^ b)%Q.
Proof. apply Qpower_plus. discriminate. Qed.

Lemma pow2_Z (k : Z) : 0 <= k -> (2 ^ k == inject_Z (2 ^ k))%Q.
Proof. intros H. symmetry. apply (Zpower_Qpower 2 k H). Qed.

Lemma pow2_div (a b : Z) : (2 ^ a / 2 ^ b == 2 ^ (a - b))%Q.
Proof.
  replace a with ((a - b) + b) at 1 by ring. rewrite pow2_add.
  field. pose proof (pow2_pos b). lra.
Qed.

(** [roundEven] between integers. *)
Lemma roundEven_le (x : Q) (K : Z) : (x <= inject_Z K)%Q -> roundEven x <= K.
Proof.
  intros H. unfold roundEven.
  pose proof (Qfloor_le x) as Hf. pose proof (Qlt_floor x) as Hl.
  assert (HfK : Qfloor x <= K).
  { rewrite <- (Qfloor_Z K). by apply Qfloor_resp_le. }
  destruct (Z.eq_dec (Qfloor x) K) as [He | Hne].
  - assert (Hc : (x - inject_Z (Qfloor x) ?= 1 # 2)%Q = Lt).
    { rewrite <- Qlt_alt. rewrite He in *. lra. }
    rewrite Hc. lia.
  - destruct (x - inject_Z (Qfloor x) ?= 1 # 2)%Q; [destruct (Z.even _) | |]; lia.
Qed.

Lemma roundEven_ge (x : Q) (K : Z) : (inject_Z K <= x)%Q -> K <= roundEven x.
Proof.
  intros H. unfold roundEven.
  assert (HfK : K <= Qfloor x).
  { rewrite <- (Qfloor_Z K). by apply Qfloor_resp_le. }
  destruct (x - inject_Z (Qfloor x) ?= 1 # 2)%Q; [destruct (Z.even _) | |]; lia.
Qed.

Lemma roundEven_up (x : Q) (K : Z) : (inject_Z K + (1 # 2) < x)%Q -> K + 1 <= roundEven x.
Proof.
  intros H. unfold roundEven.
  assert (HfK : K <= Qfloor x).
  { rewrite <- (Qfloor_Z K). apply Qfloor_resp_le. lra. }
  destruct (Z.eq_dec (Qfloor x) K) as [He | Hne].
  - assert (Hc : (x - inject_Z (Qfloor x) ?= 1 # 2)%Q = Gt).
    { rewrite <- Qgt_alt. rewrite He. lra. }
    rewrite Hc. lia.
  - destruct (x - inject_Z (Qfloor x) ?= 1 # 2)%Q; [destruct (Z.even _) | |]; lia.
Qed.

Lemma log2_Q (n : Z) :
  0 < n -> (2 ^ Z.log2 n <= inject_Z n)%Q /\ (inject_Z n < 2 ^ (Z.log2 n + 1))%Q.
Proof.
  intros Hn. destruct (Z.log2_spec n Hn) as [Hlo Hhi].
  pose proof (Z.log2_nonneg n) as H0.
  rewrite !pow2_Z by lia.
  split; [rewrite <- Zle_Qle | rewrite <- Zlt_Qlt];
    replace (Z.log2 n + 1) with (Z.succ (Z.log2 n)) by lia; assumption.
Qed.

(** [ilog2] is the binary exponent. *)
Lemma ilog2_spec (a : Q) :
  (0 < a)%Q -> (2 ^ ilog2 a <= a)%Q /\ (a < 2 ^ (ilog2 a + 1))%Q.
Proof.
  intros Ha. destruct a as [n d]. unfold ilog2. cbn [Qnum Qden].
  assert (Hn : 0 < n) by (unfold Qlt in Ha; simpl in Ha; lia).
  destruct (log2_Q n Hn) as [Hn1 Hn2]. destruct (log2_Q (Zpos d) eq_refl) as [Hd1 Hd2].
  set (ln := Z.log2 n) in *. set (ld := Z.log2 (Zpos d)) in *.
  assert (Hd : (0 < inject_Z (Zpos d))%Q) by reflexivity.
  assert (Hlow : (2 ^ (ln - ld - 1) < n # d)%Q).
  { rewrite (Qmake_Qdiv n d). apply Qlt_shift_div_l; [exact Hd |].
    apply Qlt_le_trans with (2 ^ (ln - ld - 1) * 2 ^ (ld + 1))%Q.
    - apply Qmult_lt_l; [apply pow2_pos | exact Hd2].
    - rewrite <- pow2_add. replace (ln - ld - 1 + (ld + 1)) with ln by ring. exact Hn1. }
  assert (Hup : (n # d < 2 ^ (ln - ld + 1))%Q).
  { rewrite (Qmake_Qdiv n d). apply Qlt_shift_div_r; [exact Hd |].
    apply Qlt_le_trans with (2 ^ (ln + 1))%Q; [exact Hn2 |].
    replace (ln + 1) with (ln - ld + 1 + ld) by ring. rewrite pow2_add.
    apply Qmult_le_l; [apply pow2_pos | exact Hd1]. }
  destruct (Qle_bool (2 ^ (ln - ld)) (n # d)) eqn:E.
  - apply Qle_bool_iff in E. split; [exact E | exact Hup].
  - split; [by apply Qlt_le_weak |].
    replace (ln - ld - 1 + 1) with (ln - ld) by ring.
    apply Qnot_le_lt. intros H. apply Qle_bool_iff in H. congruence.
Qed.

Lemma ilog2_le (a : Q) (m : Z) : (0 < a)%Q -> (a <= 2 ^ m)%Q -> ilog2 a <= m.
Proof.
  intros Ha Hm. destruct (ilog2_spec a Ha) as [Hlo _].
  apply pow2_le_inv. by apply Qle_trans with a.
Qed.

Lemma ilog2_lt (a : Q) (m : Z) : (0 < a)%Q -> (a < 2 ^ m)%Q -> ilog2 a < m.
Proof.
  intros Ha Hm. destruct (ilog2_spec a Ha) as [Hlo _].
  apply pow2_lt_inv. by apply Qle_lt_trans with a.
Qed.

Lemma ilog2_ge (a : Q) (m : Z) : (0 < a)%Q -> (2 ^ m <= a)%Q -> m <= ilog2 a.
Proof.
  intros Ha Hm. destruct (ilog2_spec a Ha) as [_ Hhi].
  assert (m < ilog2 a + 1); [| lia].
  apply pow2_lt_inv. by apply Qle_lt_trans with a.
Qed.

(** Rounding stays below a power of two that is a double. *)
Lemma roundMagnitude_bound (a : Q) (m : Z) :
  (0 <= a)%Q -> (a <= 2 ^ m)%Q -> -1022 <= m <= 1023 ->
  exists q, roundMagnitude a = Some q /\ (0 <= q)%Q /\ (q <= 2 ^ m)%Q.
Proof.
  intros Ha Hm Hr. unfold roundMagnitude.
  destruct (Qeq_bool a 0) eqn:E0.
  { exists 0%Q. split; [reflexivity |]. split; [lra |]. apply Qlt_le_weak, pow2_pos. }
  apply Qeq_bool_neq in E0.
  assert (Hpos : (0 < a)%Q) by lra.
  pose proof (ilog2_le a m Hpos Hm) as He.
  set (x := Z.max (ilog2 a) (-1022) - 52).
  assert (Hx : 0 <= m - x) by lia.
  pose proof (pow2_pos x) as Hpx.
  assert (Hr1 : roundEven (a / 2 ^ x) <= 2 ^ (m - x)).
  { apply roundEven_le. rewrite <- pow2_Z by exact Hx. rewrite <- pow2_div.
    unfold Qdiv. apply Qmult_le_compat_r; [exact Hm |].
    apply Qlt_le_weak, Qinv_lt_0_compat, Hpx. }
  assert (Hr0 : 0 <= roundEven (a / 2 ^ x)).
  { apply roundEven_ge. change (inject_Z 0) with 0%Q.
    apply Qle_shift_div_l; [exact Hpx | lra]. }
  set (r := roundEven (a / 2 ^ x)) in *.
  assert (Hq : (Qred (inject_Z r * 2 ^ x) <= 2 ^ m)%Q).
  { rewrite Qred_correct.
    apply Qle_trans with (inject_Z (2 ^ (m - x)) * 2 ^ x)%Q.
    - apply Qmult_le_compat_r; [by rewrite <- Zle_Qle | lra].
    - rewrite <- pow2_Z by exact Hx. rewrite <- pow2_add.
      replace (m - x + x) with m by ring. apply Qle_refl. }
  assert (Hq0 : (0 <= Qred (inject_Z r * 2 ^ x))%Q).
  { rewrite Qred_correct. apply Qmult_le_0_compat; [| lra].
    change 0%Q with (inject_Z 0). by rewrite <- Zle_Qle. }
  destruct (Qle_bool (2 ^ 1024) (Qred (inject_Z r * 2 ^ x))) eqn:Eo.
  - apply Qle_bool_iff in Eo. exfalso.
    pose proof (pow2_lt m 1024 ltac:(lia)). lra.
  - eexists. split; [reflexivity |]. by split.
Qed.

Lemma binary64_upTo (q : Q) (m : Z) :
  (0 <= q)%Q -> (q <= 2 ^ m)%Q -> -1022 <= m <= 1023 -> upTo m (binary64 q).
Proof.
  intros H0 Hm Hr. unfold binary64.
  assert (E : Qle_bool 0 q = true) by (by apply Qle_bool_iff).
  rewrite E. cbn [negb].
  destruct (roundMagnitude_bound (Qabs q) m) as (q' & -> & Hq0 & Hqm);
    [apply Qabs_nonneg | by rewrite Qabs_pos | exact Hr |].
  exists q'. by split.
Qed.

Lemma numOfZ_upTo (z m : Z) :
  0 <= z -> (inject_Z z <= 2 ^ m)%Q -> -1022 <= m <= 1023 -> upTo m (numOfZ z).
Proof.
  intros H0 Hm Hr. apply binary64_upTo; [| exact Hm | exact Hr].
  change 0%Q with (inject_Z 0). by rewrite <- Zle_Qle.
Qed.

Lemma numAdd_upTo (a b : Q) (m : Z) :
  (0 <= a)%Q -> (0 <= b)%Q -> (a + b <= 2 ^ m)%Q -> -1022 <= m <= 1023 ->
  upTo m (numAdd (Fin a) (Fin b)).
Proof.
  intros Ha Hb Hm Hr. cbn [numAdd].
  destruct (Qeq_bool (a + b) 0).
  - exists 0%Q. split; [reflexivity |]. split; [lra | apply Qlt_le_weak, pow2_pos].
  - apply binary64_upTo; [lra | exact Hm | exact Hr].
Qed.

Lemma isNegative_nonneg (a : Q) : (0 <= a)%Q -> isNegative (Fin a) = false.
Proof. intros H. cbn [isNegative]. apply Qle_bool_iff in H. by rewrite H. Qed.

Lemma numMul_upTo (a b : Q) (m : Z) :
  (0 <= a)%Q -> (0 <= b)%Q -> (a * b <= 2 ^ m)%Q -> -1022 <= m <= 1023 ->
  upTo m (numMul (Fin a) (Fin b)).
Proof.
  intros Ha Hb Hm Hr. cbn [numMul magnitude].
  rewrite !isNegative_nonneg by assumption. cbn [xorb].
  destruct (roundMagnitude_bound (Qabs a * Qabs b) m) as (q' & -> & Hq0 & Hqm).
  - apply Qmult_le_0_compat; apply Qabs_nonneg.
  - by rewrite !Qabs_pos.
  - exact Hr.
  - exists q'. by split.
Qed.

Lemma numDiv_upTo (a b : Q) (m : Z) :
  (0 <= a)%Q -> (0 < b)%Q -> (a <= 2 ^ m * b)%Q -> -1022 <= m <= 1023 ->
  upTo m (numDiv (Fin a) (Fin b)).
Proof.
  intros Ha Hb Hm Hr. cbn [numDiv magnitude].
  rewrite !isNegative_nonneg by lra. cbn [xorb].
  assert (Eb : Qeq_bool (Qabs b) 0 = false).
  { destruct (Qeq_bool (Qabs b) 0) eqn:E; [| reflexivity].
    apply Qeq_bool_iff in E. rewrite Qabs_pos in E by lra. lra. }
  rewrite Eb.
  destruct (roundMagnitude_bound (Qabs a / Qabs b) m) as (q' & -> & Hq0 & Hqm).
  - rewrite !Qabs_pos by lra. apply Qle_shift_div_l; [exact Hb | lra].
  - rewrite !Qabs_pos by lra. apply Qle_shift_div_r; [exact Hb | exact Hm].
  - exact Hr.
  - exists q'. by split.
Qed.

Lemma numCeil_nonneg (a : Q) (K : Z) :
  (0 <= a)%Q -> (a <= inject_Z K)%Q ->
  numCeil (Fin a) = Fin (inject_Z (Qceiling a)) /\ 0 <= Qceiling a <= K.
Proof.
  intros Ha HK. cbn [numCeil].
  assert (E : Qle_bool 0 a = true) by (by apply Qle_bool_iff).
  rewrite E, andb_false_r. split; [reflexivity |]. split.
  - change 0 with (Qceiling (inject_Z 0)). by apply Qceiling_resp_le.
  - rewrite <- (Qceiling_Z K). by apply Qceiling_resp_le.
Qed.

Lemma Qred_Z (q : Q) (z : Z) : (q == inject_Z z)%Q -> Qred q = inject_Z z.
Proof.
  intros H. rewrite (Qred_complete _ _ H). apply Qred_identity. simpl. apply Z.gcd_1_r.
Qed.

Lemma roundEven_Z (x : Q) (z : Z) : (x == inject_Z z)%Q -> roundEven x = z.
Proof.
  intros H. apply Z.le_antisymm; [apply roundEven_le | apply roundEven_ge]; rewrite H;
    apply Qle_refl.
Qed.

(** Integers up to [2^53] are doubles. *)
Lemma roundMagnitude_Z (z : Z) :
  0 <= z <= 2 ^ 53 -> roundMagnitude (inject_Z z) = Some (inject_Z z).
Proof.
  intros Hz. unfold roundMagnitude.
  destruct (Qeq_bool (inject_Z z) 0) eqn:E0.
  { apply Qeq_bool_iff in E0. unfold Qeq in E0. simpl in E0.
    replace z with 0 by lia. reflexivity. }
  apply Qeq_bool_neq in E0.
  assert (Hz1 : 1 <= z).
  { destruct (Z.eq_dec z 0) as [-> | ?]; [exfalso; by apply E0 | lia]. }
  assert (Hpos : (0 < inject_Z z)%Q) by (change 0%Q with (inject_Z 0); rewrite <- Zlt_Qlt; lia).
  assert (He0 : 0 <= ilog2 (inject_Z z)).
  { apply ilog2_ge; [exact Hpos |]. change (2 ^ 0)%Q with (inject_Z 1). rewrite <- Zle_Qle. lia. }
  assert (He1 : ilog2 (inject_Z z) <= 53).
  { apply ilog2_le; [exact Hpos |]. rewrite pow2_Z by lia. rewrite <- Zle_Qle. lia. }
  destruct (ilog2_spec _ Hpos) as [Hlo _].
  set (e := ilog2 (inject_Z z)) in *.
  replace (Z.max e (-1022)) with e by lia.
  assert (Hm : (inject_Z (roundEven (inject_Z z / 2 ^ (e - 52))) * 2 ^ (e - 52)
                == inject_Z z)%Q).
  { pose proof (pow2_pos (e - 52)) as Hp.
    destruct (Z.eq_dec e 53) as [He | He].
    - rewrite He in Hlo. rewrite pow2_Z in Hlo by lia. rewrite <- Zle_Qle in Hlo.
      assert (z = 2 ^ 53) by lia. subst z. rewrite He.
      rewrite (roundEven_Z _ (2 ^ 52)); reflexivity.
    - assert (Hs : 0 <= 52 - e) by lia.
      rewrite (roundEven_Z _ (z * 2 ^ (52 - e))).
      + rewrite inject_Z_mult, <- pow2_Z by exact Hs.
        rewrite <- Qmult_assoc, <- pow2_add. replace (52 - e + (e - 52)) with 0 by ring.
        change (2 ^ 0)%Q with 1%Q. ring.
      + rewrite inject_Z_mult, <- pow2_Z by exact Hs.
        replace (52 - e) with (- (e - 52)) by ring. rewrite Qpower_opp. reflexivity. }
  rewrite (Qred_Z _ _ Hm).
  destruct (Qle_bool (2 ^ 1024) (inject_Z z)) eqn:Eo; [| reflexivity].
  apply Qle_bool_iff in Eo. rewrite pow2_Z in Eo by lia. rewrite <- Zle_Qle in Eo.
  assert (2 ^ 53 < 2 ^ 1024) by (apply Z.pow_lt_mono_r; lia). lia.
Qed.

Lemma numOfZ_exact (z : Z) : 0 <= z <= 2 ^ 53 -> numOfZ z = Fin (inject_Z z).
Proof.
  intros Hz. unfold numOfZ, binary64.
  assert (E : Qle_bool 0 (inject_Z z) = true).
  { apply Qle_bool_iff. change 0%Q with (inject_Z 0). rewrite <- Zle_Qle. lia. }
  rewrite E. cbn [negb].
  assert (Ha : Qabs (inject_Z z) = inject_Z z).
  { unfold Qabs, inject_Z. rewrite Z.abs_eq by lia. reflexivity. }
  rewrite Ha, roundMagnitude_Z by exact Hz. reflexivity.
Qed.

(** The rounded quotient of two integers below [2^53] lies between the
    ceiling of the exact quotient and the integer before it. *)
Lemma roundMagnitude_ceiling (a : Q) (pos d : Z) :
  0 < pos < 2 ^ 53 -> 1 <= d <= 2 ^ 53 -> (a == inject_Z pos / inject_Z d)%Q ->
  exists q, roundMagnitude a = Some q /\
            (inject_Z (Qceiling a - 1) < q)%Q /\ (q <= inject_Z (Qceiling a))%Q.
Proof.
  intros Hpos Hd Ha.
  assert (HD : (1 <= inject_Z d)%Q) by (change 1%Q with (inject_Z 1); rewrite <- Zle_Qle; lia).
  assert (HP : (1 <= inject_Z pos)%Q)
    by (change 1%Q with (inject_Z 1); rewrite <- Zle_Qle; lia).
  assert (HP53 : (inject_Z pos < 2 ^ 53)%Q) by (rewrite pow2_Z by lia; rewrite <- Zlt_Qlt; lia).
  assert (HD53 : (inject_Z d <= 2 ^ 53)%Q) by (rewrite pow2_Z by lia; rewrite <- Zle_Qle; lia).
  assert (Hmul : (a * inject_Z d == inject_Z pos)%Q) by (rewrite Ha; field; lra).
  assert (Ha0 : (0 < a)%Q).
  { rewrite Ha. apply Qlt_shift_div_l; lra. }
  assert (HaP : (a <= inject_Z pos)%Q) by nra.
  destruct (ilog2_spec a Ha0) as [Hlo Hhi].
  assert (He1 : ilog2 a <= 52).
  { assert (ilog2 a < 53); [| lia]. apply ilog2_lt; [exact Ha0 | lra]. }
  assert (He0 : -53 <= ilog2 a).
  { apply ilog2_ge; [exact Ha0 |].
    assert (H : (2 ^ (-53) * 2 ^ 53 == 1)%Q) by (rewrite <- pow2_add; reflexivity).
    pose proof (pow2_pos (-53)). nra. }
  set (e := ilog2 a) in *.
  unfold roundMagnitude.
  assert (E0 : Qeq_bool a 0 = false).
  { destruct (Qeq_bool a 0) eqn:E; [| reflexivity]. apply Qeq_bool_iff in E. lra. }
  rewrite E0. fold e. replace (Z.max e (-1022)) with e by lia.
  set (x := e - 52). set (S := 2 ^ (52 - e)).
  assert (HS : (inject_Z S == 2 ^ (52 - e))%Q) by (unfold S; rewrite pow2_Z by lia; reflexivity).
  pose proof (pow2_pos x) as Hx. pose proof (pow2_pos (52 - e)) as HS0.
  assert (HxS : (2 ^ x * inject_Z S == 1)%Q).
  { rewrite HS, <- pow2_add. unfold x. replace (e - 52 + (52 - e)) with 0 by ring. reflexivity. }
  assert (Hy : (a / 2 ^ x == a * inject_Z S)%Q) by (field_simplify_eq; [nra | lra]).
  pose proof (Qle_ceiling a) as Hc1. pose proof (Qceiling_lt a) as Hc0.
  set (c := Qceiling a) in *.
  (* the divisor is below twice the scale *)
  assert (HdS : (inject_Z d < 2 * inject_Z S)%Q).
  { assert (H1 : (2 ^ e * inject_Z d <= inject_Z pos)%Q) by nra.
    assert (H2 : (2 ^ 53 == 2 ^ e * (2 * inject_Z S))%Q).
    { rewrite HS. change 2%Q with (2 ^ 1)%Q at 3. rewrite <- !pow2_add.
      replace (e + (1 + (52 - e))) with 53 by ring. reflexivity. }
    pose proof (pow2_pos e). nra. }
  (* the quotient is at least [1/d] above the integer before its ceiling *)
  assert (Hgap : (1 <= (a - inject_Z (c - 1)) * inject_Z d)%Q).
  { assert (Hz : (c - 1) * d < pos).
    { rewrite Zlt_Qlt, inject_Z_mult. nra. }
    assert (Hz1 : (inject_Z ((c - 1) * d) + 1 <= inject_Z pos)%Q).
    { change 1%Q with (inject_Z 1). rewrite <- inject_Z_plus, <- Zle_Qle. lia. }
    rewrite inject_Z_mult in Hz1. nra. }
  assert (Hup : roundEven (a / 2 ^ x) <= c * S).
  { apply roundEven_le. rewrite Hy, inject_Z_mult. nra. }
  assert (Hdn : (c - 1) * S + 1 <= roundEven (a / 2 ^ x)).
  { apply roundEven_up. rewrite Hy, inject_Z_mult.
    assert (HSd : (inject_Z d * (1 # 2) < inject_Z S)%Q) by lra.
    generalize dependent (inject_Z (c - 1)). intros k Hk Hgap.
    generalize dependent (inject_Z S). intros s Hs1 Hs2 _ Hs3 Hs4.
    generalize dependent (inject_Z d). intros dd. intros. nra. }
  set (r := roundEven (a / 2 ^ x)) in *.
  assert (Hq : (Qred (inject_Z r * 2 ^ x) == inject_Z r * 2 ^ x)%Q) by apply Qred_correct.
  assert (Hr1 : (inject_Z r <= inject_Z c * inject_Z S)%Q)
    by (rewrite <- inject_Z_mult, <- Zle_Qle; exact Hup).
  assert (Hr0 : (inject_Z (c - 1) * inject_Z S + 1 <= inject_Z r)%Q).
  { change 1%Q with (inject_Z 1). rewrite <- inject_Z_mult, <- inject_Z_plus, <- Zle_Qle.
    exact Hdn. }
  assert (Hqc : (Qred (inject_Z r * 2 ^ x) <= inject_Z c)%Q) by (rewrite Hq; nra).
  assert (Hqn : (inject_Z (c - 1) < Qred (inject_Z r * 2 ^ x))%Q) by (rewrite Hq; nra).
  destruct (Qle_bool (2 ^ 1024) (Qred (inject_Z r * 2 ^ x))) eqn:Eo.
  - apply Qle_bool_iff in Eo. exfalso.
    assert (Hcp : (inject_Z c <= inject_Z pos)%Q).
    { rewrite <- Zle_Qle. unfold c. rewrite <- (Qceiling_Z pos). by apply Qceiling_resp_le. }
    pose proof (pow2_lt 53 1024 ltac:(lia)). lra.
  - eexists. split; [reflexivity |]. by split.
Qed.

(** On the sample operands, sum, product and quotient are those of the
    Standard Library's specification, and the double of an integer is the
    same. *)
Lemma operations_agree_with_SpecFloat :
  forallb agreesOn sampleOperands = true /\
  forallb (fun z => sameNum (numOfSF (sfOfZ z)) (numOfZ z))
          [0; 1; -1; 60; 120; 1000; 28800; 2 ^ 53; 2 ^ 53 + 1; 2 ^ 53 + 3; - (2 ^ 60) - 1;
           8640000000000000; 2 ^ 1023; 2 ^ 1024] = true.
Proof. split; vm_compute; reflexivity. Qed.

(** *** Numbers that are not negative *)

Lemma roundMagnitude_nonneg (a : Q) :
  (0 <= a)%Q -> match roundMagnitude a with Some q => (0 <= q)%Q | None => True end.
Proof.
  intros Ha. unfold roundMagnitude. destruct (Qeq_bool a 0); [apply Qle_refl |].
  set (x := Z.max (ilog2 a) (-1022) - 52).
  destruct (Qle_bool (2 ^ 1024) _); [exact I |].
  rewrite Qred_correct. pose proof (pow2_pos x) as Hx.
  apply Qmult_le_0_compat; [| lra].
  change 0%Q with (inject_Z 0). rewrite <- Zle_Qle.
  apply roundEven_ge. change (inject_Z 0) with 0%Q.
  apply Qle_shift_div_l; [exact Hx | lra].
Qed.

Lemma signed_nonneg (m : option Q) :
  match m with Some q => (0 <= q)%Q | None => True end -> nonNegative (signed false m).
Proof. destruct m; intros H; exact H. Qed.

Lemma binary64_nonneg (q : Q) : (0 <= q)%Q -> nonNegative (binary64 q).
Proof.
  intros H. unfold binary64.
  assert (E : Qle_bool 0 q = true) by (by apply Qle_bool_iff).
  rewrite E. apply signed_nonneg, roundMagnitude_nonneg, Qabs_nonneg.
Qed.

Lemma numOfZ_nonneg (z : Z) : 0 <= z -> nonNegative (numOfZ z).
Proof.
  intros H. apply binary64_nonneg. change 0%Q with (inject_Z 0). by rewrite <- Zle_Qle.
Qed.

Lemma numAdd_nonneg (x y : Num) : nonNegative x -> nonNegative y -> nonNegative (numAdd x y).
Proof.
  destruct x as [a | | | |], y as [b | | | |]; cbn [nonNegative numAdd];
    try contradiction; try (intros; exact I).
  intros Ha Hb. destruct (Qeq_bool (a + b) 0); [apply Qle_refl |].
  apply binary64_nonneg. lra.
Qed.

Lemma numDiv_nonneg (x : Num) (b : Q) :
  nonNegative x -> (0 < b)%Q -> nonNegative (numDiv x (Fin b)).
Proof.
  intros Hx Hb.
  assert (Hnb : isNegative (Fin b) = false) by (apply isNegative_nonneg; lra).
  destruct x as [a | | | |]; cbn [nonNegative] in Hx; try contradiction.
  - cbn [numDiv magnitude]. rewrite Hnb, (isNegative_nonneg a Hx). cbn [xorb].
    assert (Eb : Qeq_bool (Qabs b) 0 = false).
    { destruct (Qeq_bool (Qabs b) 0) eqn:E; [| reflexivity].
      apply Qeq_bool_iff in E. rewrite Qabs_pos in E by lra. lra. }
    rewrite Eb. apply signed_nonneg, roundMagnitude_nonneg.
    rewrite !Qabs_pos by lra. apply Qle_shift_div_l; [exact Hb | lra].
  - cbn [numDiv magnitude]. rewrite Hnb. exact I.
Qed.

Lemma numOfZ_1000 : numOfZ 1000 = Fin 1000.
Proof. vm_compute. reflexivity. Qed.

Lemma numOfZ_2 : numOfZ 2 = Fin 2.
Proof. vm_compute. reflexivity. Qed.

Lemma numOfZ_60 : numOfZ 60 = Fin 60.
Proof. vm_compute. reflexivity. Qed.

(** ** Retry backoff *)

Lemma retryDelay_succ (r : nat) : retryDelay (S r) = 60000 * 2 ^ Z.of_nat r.
Proof. unfold retryDelay. f_equal. f_equal. lia. Qed.

Lemma retryDelay_mono (r1 r2 : nat) :
  (r1 <= r2)%nat -> retryDelay (S r1) <= retryDelay (S r2).
Proof.
  intros H. rewrite !retryDelay_succ.
  apply Z.mul_le_mono_nonneg_l; [lia |].
  apply Z.pow_le_mono_r; lia.
Qed.

Lemma ceil_minutes (k : Z) : Qceiling (inject_Z (60000 * k) / inject_Z 60000) = k.
Proof.
  rewrite <- (Qceiling_Z k) at 2. apply Qceiling_comp.
  unfold Qeq, Qdiv, Qmult, Qinv, inject_Z. simpl. lia.
Qed.

(** C7: a job handed to the retry path with [r] retries so far waits
    [60000 * 2^r] ms (1, 2, 4 minutes for r = 0, 1, 2); it is stamped with
    [retryAt = now + delay] and [retryCount = r + 1] and pushed onto the RETRY
    list, its status becomes RETRY_SCHEDULED with the delay in minutes, and
    the delay never decreases with [r]. *)
Theorem C7_retry_backoff (s : State) (now : Z) (jobData : JobData) (errorMessage : string) :
  let r := retryCount jobData in
  validDate (now + 60000 * 2 ^ Z.of_nat r) = true ->
  retryDelay (S r) = 60000 * 2 ^ Z.of_nat r /\
  (retryDelay 1 = 60000 /\ retryDelay 2 = 120000 /\ retryDelay 3 = 240000) /\
  (forall r1 r2 : nat, (r1 <= r2)%nat -> retryDelay (S r1) <= retryDelay (S r2)) /\
  exists s',
    addJobToRetryQueue s now jobData errorMessage = Some s' /\
    queueRetry (redis s') = retriedJob now jobData errorMessage :: queueRetry (redis s) /\
    retryCount (retriedJob now jobData errorMessage) = S r /\
    retryAt (retriedJob now jobData errorMessage) = Some (now + retryDelay (S r)) /\
    queueFiles (redis s') = queueFiles (redis s) /\
    queueUrls (redis s') = queueUrls (redis s) /\
    statuses (redis s') !! idString (separationId jobData) =
      Some (mkStatus (separationId jobData) "RETRY_SCHEDULED" now
                     (DRetryScheduled (S r) (2 ^ Z.of_nat r) errorMessage)
                     (now + 86400 * 1000)).
Proof.
  intros r Hvalid. subst r.
  split; [apply retryDelay_succ |].
  split; [repeat split; reflexivity |].
  split; [apply retryDelay_mono |].
  unfold addJobToRetryQueue.
  replace (retryCount jobData + 1)%nat with (S (retryCount jobData)) by lia.
  rewrite retryDelay_succ, Hvalid, ceil_minutes.
  eexists. split; [reflexivity |].
  repeat split; simpl.
  apply lookup_insert_eq.
Qed.

(** The third retry of a queued job waits four minutes. *)
Lemma C7_retry_backoff_witness :
  exists s',
    addJobToRetryQueue (initialState defaultConfig) 1700000003000 timedOutJob "ETIMEDOUT"
      = Some s' /\
    retryAt <$> head (queueRetry (redis s')) = Some (Some (1700000003000 + 240000)).
Proof.
  destruct (C7_retry_backoff (initialState defaultConfig) 1700000003000 timedOutJob
              "ETIMEDOUT" eq_refl)
    as (_ & _ & _ & s' & Hs & Hq & _).
  exists s'. split; [exact Hs |]. rewrite Hq. reflexivity.
Defined.

(** ** Admission *)

Lemma statusOf_updateJobStatus (s : State) (now : Z) (sid : Id)
      (status : string) (d : StatusData) :
  statusOf (updateJobStatus s now sid status d) sid = Some status.
Proof. unfold statusOf, updateJobStatus. simpl. by rewrite lookup_insert_eq. Qed.

Lemma lookup_updateJobStatus (s : State) (now : Z) (sid : Id)
      (status : string) (d : StatusData) :
  statuses (redis (updateJobStatus s now sid status d)) !! idString sid
  = Some (mkStatus sid status now d (now + 86400 * 1000)).
Proof. unfold updateJobStatus. simpl. by rewrite lookup_insert_eq. Qed.

Lemma updateJobStatus_frame (s : State) (now : Z) (sid : Id)
      (status : string) (d : StatusData) :
  sameButStatuses s (updateJobStatus s now sid status d).
Proof. repeat split. Qed.

Lemma updateJobStatus_other (s : State) (now : Z) (sid : Id)
      (status : string) (d : StatusData) (k : string) :
  k <> idString sid ->
  statuses (redis (updateJobStatus s now sid status d)) !! k = statuses (redis s) !! k.
Proof. intros H. unfold updateJobStatus. simpl. by rewrite lookup_insert_ne. Qed.

(** *** Missing fields *)

(** A submission without [separationId] is answered QUEUE_ERROR, not
    INVALID_JOB, and a submission without payload is admitted. *)
Lemma C8_missing_fields_counterexample :
  truthy (separationId noIdJob) = false /\
  statusOf (fst (addJob (initialState defaultConfig) T0 (Some noIdJob)))
           (separationId noIdJob) = Some "QUEUE_ERROR" /\
  statusOf (fst (addJob (initialState defaultConfig) T0 (Some noIdJob)))
           (separationId noIdJob) <> Some "INVALID_JOB" /\
  truthy (orElse (filePath noPayloadJob) (publicUrl noPayloadJob)) = false /\
  returned (snd (addJob (initialState defaultConfig) T0 (Some noPayloadJob))) = Some true /\
  statusOf (fst (addJob (initialState defaultConfig) T0 (Some noPayloadJob)))
           (separationId noPayloadJob) = Some "QUEUED".
Proof. vm_compute. repeat split; discriminate. Qed.

(** C8 (amended): a submission object whose [separationId] is absent
    ([undefined], [null] or the empty string, the three ids that are not
    truthy) is refused before any other check runs: [addJob] returns false,
    nothing is triggered, the record written under the key of the absent id
    (the key ends in ['undefined'], in ['null'] or in nothing) has status
    QUEUE_ERROR and carries the message of the validation error, and nothing
    else changes. *)
Theorem C8_missing_id_rejected (s : State) (now : Z) (jobData : JobData) :
  truthy (separationId jobData) = false ->
  let s' := fst (addJob s now (Some jobData)) in
  (separationId jobData = Undefined /\ idString (separationId jobData) = "undefined" \/
   separationId jobData = Null /\ idString (separationId jobData) = "null" \/
   separationId jobData = Str "" /\ idString (separationId jobData) = "") /\
  snd (addJob s now (Some jobData)) = mkAddResult (Some false) None /\
  statuses (redis s') !! idString (separationId jobData) =
    Some (mkStatus (separationId jobData) "QUEUE_ERROR" now
                   (DQueueError "Invalid job data: separationId is required")
                   (now + 86400 * 1000)) /\
  (forall k, k <> idString (separationId jobData) ->
             statuses (redis s') !! k = statuses (redis s) !! k) /\
  sameButStatuses s s'.
Proof.
  intros Hid s'. subst s'.
  split.
  { destruct (separationId jobData) as [[| a r] | |]; try discriminate Hid.
    - right. right. by split.
    - left. by split.
    - right. left. by split. }
  unfold addJob. rewrite Hid. simpl.
  split; [reflexivity |].
  split; [apply lookup_updateJobStatus |].
  split; [intros k Hk; by apply updateJobStatus_other |].
  apply updateJobStatus_frame.
Qed.

(** The submission whose id is [null], on the empty store: it is refused, and
    the record is written under the key of ['null']. *)
Lemma C8_missing_id_witness :
  snd (addJob (initialState defaultConfig) T0 (Some nullIdJob))
  = mkAddResult (Some false) None /\
  statuses (redis (fst (addJob (initialState defaultConfig) T0 (Some nullIdJob)))) !! "null"
  = Some (mkStatus Null "QUEUE_ERROR" T0
                   (DQueueError "Invalid job data: separationId is required")
                   (T0 + 86400 * 1000)).
Proof.
  destruct (C8_missing_id_rejected (initialState defaultConfig) T0 nullIdJob eq_refl)
    as (_ & Hret & Hrec & _).
  split; [exact Hret | exact Hrec].
Defined.

(** *** User quota *)

Lemma checkUserLimits_refuses (s : State) (now : Z) (uid : string) :
  snd (checkUserLimits s now uid) = false <-> overLimit (hgetall (redis s) now uid) now.
Proof.
  unfold checkUserLimits, overLimit.
  destruct (Z.leb_spec 2 (concurrent (hgetall (redis s) now uid))); simpl.
  - split; [intros _; left; lia | reflexivity].
  - destruct (Z.ltb_spec (lastHourReset (hgetall (redis s) now uid)) (now - 3600000)); simpl.
    + split; [discriminate | intros [? | [? ?]]; lia].
    + destruct (Z.leb_spec 5 (hourly (hgetall (redis s) now uid))); simpl.
      * split; [intros _; right; lia | reflexivity].
      * split; [discriminate | intros [? | [? ?]]; lia].
Qed.

Lemma checkUserLimits_refuses_state (s : State) (now : Z) (uid : string) :
  snd (checkUserLimits s now uid) = false -> fst (checkUserLimits s now uid) = s.
Proof.
  unfold checkUserLimits.
  repeat match goal with |- context [if ?b then _ else _] => destruct b end;
    simpl; congruence.
Qed.

Lemma checkUserLimits_reset (s : State) (now : Z) (uid : string) :
  let u := hgetall (redis s) now uid in
  concurrent u < 2 -> 3600000 < now - lastHourReset u ->
  checkUserLimits s now uid
  = (withRedis (hsetUser (redis s) uid (mkUser (concurrent u) 0 now (uExpireAt u))) s, true).
Proof.
  intros u Hc Hw. unfold checkUserLimits. fold u.
  destruct (Z.leb_spec 2 (concurrent u)); [lia |].
  destruct (Z.ltb_spec (lastHourReset u) (now - 3600000)); [reflexivity | lia].
Qed.

Lemma checkUserLimits_no_reset (s : State) (now : Z) (uid : string) :
  let u := hgetall (redis s) now uid in
  now - lastHourReset u <= 3600000 -> fst (checkUserLimits s now uid) = s.
Proof.
  intros u Hw. unfold checkUserLimits. fold u.
  destruct (Z.leb_spec 2 (concurrent u)); [reflexivity |].
  destruct (Z.ltb_spec (lastHourReset u) (now - 3600000)); [lia |].
  destruct (5 <=? hourly u); reflexivity.
Qed.

Lemma hgetall_hsetUser (r : Redis) (now : Z) (uid : string) (u : UserData) :
  keyLive now (uExpireAt u) = true -> hgetall (hsetUser r uid u) now uid = u.
Proof.
  intros H. unfold hgetall, hsetUser. simpl. rewrite lookup_insert_eq. by rewrite H.
Qed.

Lemma hgetall_live (r : Redis) (now : Z) (uid : string) :
  keyLive now (uExpireAt (hgetall r now uid)) = true.
Proof.
  unfold hgetall. destruct (users r !! uid) as [u |]; [| reflexivity].
  destruct (keyLive now (uExpireAt u)) eqn:E; [exact E | reflexivity].
Qed.

(** Exactly one hour after the start of the window, five admissions counted:
    the window is not reset and the sixth submission is answered
    RATE_LIMITED. *)
Lemma C4_hour_boundary_counterexample :
  concurrent (hgetall (redis hourState) (T0 + 3600000) "u1") < 2 /\
  (T0 + 3600000) - lastHourReset (hgetall (redis hourState) (T0 + 3600000) "u1") >= 3600000 /\
  statusOf (fst (addJob hourState (T0 + 3600000) (Some sixthJob))) (separationId sixthJob)
    = Some "RATE_LIMITED" /\
  returned (snd (addJob hourState (T0 + 3600000) (Some sixthJob))) = Some false /\
  hourly (hgetall (redis (fst (addJob hourState (T0 + 3600000) (Some sixthJob))))
                  (T0 + 3600000) "u1") = 5.
Proof. vm_compute. repeat split; discriminate. Qed.

(** C4 (amended): a submission that carries a [separationId] is answered
    RATE_LIMITED exactly when its user's [concurrent] count is at least 2, or
    the window started at most one hour ago and [hourly] is at least 5; the
    check resets the hourly counter to zero, and the window to [now], when
    more than one hour has passed since the window started; a RATE_LIMITED
    answer returns false and changes nothing but the status record. *)
Theorem C4_rate_limited_iff (s : State) (now : Z) (jobData : JobData) :
  truthy (separationId jobData) = true ->
  let u := hgetall (redis s) now (userOf jobData) in
  let s' := fst (addJob s now (Some jobData)) in
  (statusOf s' (separationId jobData) = Some "RATE_LIMITED" <->
   2 <= concurrent u \/ (now - lastHourReset u <= 3600000 /\ 5 <= hourly u)) /\
  (statusOf s' (separationId jobData) = Some "RATE_LIMITED" ->
   snd (addJob s now (Some jobData)) = mkAddResult (Some false) None /\
   sameButStatuses s s') /\
  (concurrent u < 2 -> 3600000 < now - lastHourReset u ->
   hgetall (redis (fst (checkUserLimits s now (userOf jobData)))) now (userOf jobData)
   = mkUser (concurrent u) 0 now (uExpireAt u)) /\
  (now - lastHourReset u <= 3600000 ->
   fst (checkUserLimits s now (userOf jobData)) = s).
Proof.
  intros Hid u s'.
  pose proof (checkUserLimits_refuses s now (userOf jobData)) as Href.
  pose proof (checkUserLimits_refuses_state s now (userOf jobData)) as Hst.
  fold u in Href. unfold overLimit in Href.
  assert (Hadd :
    (snd (checkUserLimits s now (userOf jobData)) = false /\
     addJob s now (Some jobData)
     = (updateJobStatus s now (separationId jobData) "RATE_LIMITED"
          (DRateLimited "Rate limit exceeded. Max 2 concurrent jobs, 5 per hour."
                        (userOf jobData)),
        mkAddResult (Some false) None)) \/
    (snd (checkUserLimits s now (userOf jobData)) = true /\
     statusOf s' (separationId jobData) <> Some "RATE_LIMITED")).
  { subst s'. unfold addJob. rewrite Hid. cbn [negb]. fold (userOf jobData).
    destruct (checkUserLimits s now (userOf jobData)) as [s1 ok] eqn:Hck.
    simpl in Hst. destruct ok; cbn [negb snd].
    - right. split; [reflexivity |].
      repeat match goal with |- context [if ?b then _ else _] => destruct b end;
        cbn [fst]; rewrite statusOf_updateJobStatus; discriminate.
    - left. rewrite (Hst eq_refl). split; reflexivity. }
  split; [| split; [| split]].
  - destruct Hadd as [[Hf Heq] | [Ht Hne]].
    + subst s'. rewrite Heq. cbn [fst]. rewrite statusOf_updateJobStatus.
      split; [intros _; apply Href, Hf | reflexivity].
    + split; [intros H; contradiction |].
      intros H. apply Href in H. congruence.
  - intros Hrl. destruct Hadd as [[Hf Heq] | [Ht Hne]]; [| contradiction].
    subst s'. rewrite Heq. split; [reflexivity | apply updateJobStatus_frame].
  - intros Hc Hw. rewrite (checkUserLimits_reset s now (userOf jobData) Hc Hw).
    cbn [fst redis withRedis]. apply hgetall_hsetUser. apply hgetall_live.
  - intros Hw. by apply checkUserLimits_no_reset.
Qed.

(** The same submission, through the equivalence. *)
Lemma C4_rate_limited_witness :
  statusOf (fst (addJob hourState (T0 + 3600000) (Some sixthJob))) (separationId sixthJob)
  = Some "RATE_LIMITED".
Proof.
  apply (proj1 (C4_rate_limited_iff hourState (T0 + 3600000) sixthJob eq_refl)).
  right. vm_compute. split; discriminate.
Defined.

(** *** Queue capacity *)

Lemma checkUserLimits_frame (s : State) (now : Z) (uid : string) :
  let s1 := fst (checkUserLimits s now uid) in
  cfg s1 = cfg s /\
  queueFiles (redis s1) = queueFiles (redis s) /\
  queueUrls (redis s1) = queueUrls (redis s) /\
  queueRetry (redis s1) = queueRetry (redis s) /\
  statuses (redis s1) = statuses (redis s) /\
  runpod_failures (redis s1) = runpod_failures (redis s) /\
  processingJobs s1 = processingJobs s /\
  runpodRequestTimes s1 = runpodRequestTimes s /\
  circuitBreakerState s1 = circuitBreakerState s /\
  metrics s1 = metrics s /\
  halfOpenTimers s1 = halfOpenTimers s /\
  runpodCalls s1 = runpodCalls s.
Proof.
  unfold checkUserLimits.
  repeat match goal with |- context [if ?b then _ else _] => destruct b end;
    repeat split.
Qed.

(** The only change [checkUserLimits] makes to a user's hash: the lazy reset
    of the hourly window.  [concurrent] is never touched. *)
Lemma checkUserLimits_users (s : State) (now : Z) (uid v : string) :
  let u := hgetall (redis s) now v in
  let u1 := hgetall (redis (fst (checkUserLimits s now uid))) now v in
  u1 = u \/ (v = uid /\ u1 = mkUser (concurrent u) 0 now (uExpireAt u)).
Proof.
  intros u u1. subst u u1. unfold checkUserLimits.
  destruct (2 <=? concurrent (hgetall (redis s) now uid)); [by left |].
  destruct (lastHourReset (hgetall (redis s) now uid) <? now - 3600000); cbn [fst].
  - destruct (decide (v = uid)) as [-> | Hne].
    + right. split; [reflexivity |]. cbn [redis withRedis].
      apply hgetall_hsetUser, hgetall_live.
    + left. unfold hgetall, hsetUser. simpl. by rewrite lookup_insert_ne.
  - destruct (5 <=? hourly (hgetall (redis s) now uid)); by left.
Qed.

(** With fifty jobs queued, a submission is answered QUEUE_FULL, and the
    hourly counter of its user has gone from 3 to 0. *)
Lemma C5_queue_full_counterexample :
  getTotalQueueSize fullState >= MAX_QUEUE_SIZE (cfg fullState) /\
  statusOf (fst (addJob fullState (T0 + 4000000) (Some lateJob))) (separationId lateJob)
    = Some "QUEUE_FULL" /\
  hourly (hgetall (redis fullState) (T0 + 4000000) "u1") = 3 /\
  hourly (hgetall (redis (fst (addJob fullState (T0 + 4000000) (Some lateJob))))
                  (T0 + 4000000) "u1") = 0 /\
  lastHourReset (hgetall (redis (fst (addJob fullState (T0 + 4000000) (Some lateJob))))
                         (T0 + 4000000) "u1") = T0 + 4000000.
Proof. vm_compute. repeat split; discriminate. Qed.

(** C5 (amended): a submission that carries a [separationId], passes the user
    limit check and finds the breaker not OPEN, arriving when the three lists
    together hold at least [MAX_QUEUE_SIZE] jobs, is answered QUEUE_FULL:
    [addJob] returns false, [queueFullRejections] grows by exactly 1, the
    status record carries the depth and the ceiling, no list and no entry of
    the processing set changes, and no quota counter is incremented: the
    users' hashes are as the limit check left them, which changes at most the
    submitting user's hourly window (reset to zero, started at [now]). *)
Theorem C5_queue_full (s : State) (now : Z) (jobData : JobData) :
  truthy (separationId jobData) = true ->
  snd (checkUserLimits s now (userOf jobData)) = true ->
  circuitBreakerState s <> OPEN ->
  MAX_QUEUE_SIZE (cfg s) <= getTotalQueueSize s ->
  let s' := fst (addJob s now (Some jobData)) in
  snd (addJob s now (Some jobData)) = mkAddResult (Some false) None /\
  statuses (redis s') !! idString (separationId jobData) =
    Some (mkStatus (separationId jobData) "QUEUE_FULL" now
            (DQueueFull "Server is at capacity. Please try again in a few minutes."
                        (getTotalQueueSize s) (MAX_QUEUE_SIZE (cfg s)))
            (now + 86400 * 1000)) /\
  queueFullRejections (metrics s') = queueFullRejections (metrics s) + 1 /\
  queueFiles (redis s') = queueFiles (redis s) /\
  queueUrls (redis s') = queueUrls (redis s) /\
  queueRetry (redis s') = queueRetry (redis s) /\
  processingJobs s' = processingJobs s /\
  runpodCalls s' = runpodCalls s /\
  users (redis s') = users (redis (fst (checkUserLimits s now (userOf jobData)))) /\
  (forall v : string,
      let u := hgetall (redis s) now v in
      let u' := hgetall (redis s') now v in
      u' = u \/ (v = userOf jobData /\ u' = mkUser (concurrent u) 0 now (uExpireAt u))).
Proof.
  intros Hid Hok Hbr Hfull s'.
  pose proof (checkUserLimits_frame s now (userOf jobData)) as Hfr.
  pose proof (checkUserLimits_users s now (userOf jobData)) as Hus.
  subst s'. unfold addJob. rewrite Hid. cbn [negb]. fold (userOf jobData).
  destruct (checkUserLimits s now (userOf jobData)) as [s1 ok] eqn:Hck.
  cbn [fst snd] in *. subst ok. cbn [negb].
  destruct Hfr as (Hcfg & Hqf & Hqu & Hqr & Hst & Hfa & Hpj & Hrt & Hcb & Hm & Hti & Hca).
  rewrite Hcb.
  destruct (circuitBreakerState s) eqn:Eb; try congruence; cbn [Breaker_eqb].
  all: assert (Htot : getTotalQueueSize s1 = getTotalQueueSize s)
         by (unfold getTotalQueueSize; rewrite Hqf, Hqu, Hqr; reflexivity).
  all: rewrite Htot, Hcfg.
  all: destruct (Z.leb_spec (MAX_QUEUE_SIZE (cfg s)) (getTotalQueueSize s)); [| lia].
  all: cbn [fst snd].
  all: split; [reflexivity |].
  all: split; [apply lookup_updateJobStatus |].
  all: simpl; rewrite ?Hm, ?Hqf, ?Hqu, ?Hqr, ?Hpj, ?Hca.
  all: repeat (split; [reflexivity |]).
  all: exact Hus.
Qed.

(** The same submission is refused. *)
Lemma C5_queue_full_witness :
  snd (addJob fullState (T0 + 4000000) (Some lateJob)) = mkAddResult (Some false) None.
Proof.
  refine (proj1 (C5_queue_full fullState (T0 + 4000000) lateJob eq_refl eq_refl _ _)).
  - discriminate.
  - vm_compute. discriminate.
Defined.

(** ** Dispatch *)

Ltac split_ifs :=
  repeat match goal with
         | |- context [if ?b then _ else _] => destruct b
         | |- context [match ?x with Some _ => _ | None => _ end] => destruct x
         end.

Lemma incrFailures_frame (r : Redis) (now : Z) :
  let r' := fst (incrFailures r now) in
  queueFiles r' = queueFiles r /\ queueUrls r' = queueUrls r /\
  queueRetry r' = queueRetry r /\ users r' = users r /\ statuses r' = statuses r.
Proof.
  unfold incrFailures. destruct (runpod_failures r) as [[n e] |]; [| by repeat split].
  destruct (keyLive now e); by repeat split.
Qed.

Lemma expireFailures_frame (r : Redis) (now sec : Z) :
  let r' := expireFailures r now sec in
  queueFiles r' = queueFiles r /\ queueUrls r' = queueUrls r /\
  queueRetry r' = queueRetry r /\ users r' = users r /\ statuses r' = statuses r.
Proof.
  unfold expireFailures. destruct (runpod_failures r) as [[n e] |]; [| by repeat split].
  destruct (keyLive now e); by repeat split.
Qed.

(** What reporting an error to the breaker leaves alone. *)
Lemma handleRunpodError_frame (s : State) (now : Z) (e : JsError) :
  let s' := handleRunpodError s now e in
  cfg s' = cfg s /\
  queueFiles (redis s') = queueFiles (redis s) /\
  queueUrls (redis s') = queueUrls (redis s) /\
  queueRetry (redis s') = queueRetry (redis s) /\
  users (redis s') = users (redis s) /\
  statuses (redis s') = statuses (redis s) /\
  processingJobs s' = processingJobs s /\
  runpodRequestTimes s' = runpodRequestTimes s /\
  runpodCalls s' = runpodCalls s /\
  avgProcessingTime (metrics s') = avgProcessingTime (metrics s).
Proof.
  unfold handleRunpodError.
  destruct (isServiceError e); [| by repeat split].
  pose proof (incrFailures_frame (redis s) now) as Hi.
  destruct (incrFailures (redis s) now) as [r1 failures]. cbn [fst] in Hi.
  pose proof (expireFailures_frame r1 now 60) as He. cbn zeta in He.
  destruct Hi as (? & ? & ? & ? & ?), He as (? & ? & ? & ? & ?).
  destruct (5 <=? failures); simpl; repeat split; congruence.
Qed.

(** The catch block of [startJobProcessing]: the job leaves the processing
    set, the users' hashes are not touched, and the job is either on the
    RETRY list or FAILED. *)
Lemma submissionFailed_spec (s : State) (now : Z) (jobData : JobData) (e : JsError) :
  let s' := submissionFailed s now jobData e in
  cfg s' = cfg s /\
  queueFiles (redis s') = queueFiles (redis s) /\
  queueUrls (redis s') = queueUrls (redis s) /\
  users (redis s') = users (redis s) /\
  processingJobs s' = mapDelete (separationId jobData) (processingJobs s) /\
  runpodRequestTimes s' = runpodRequestTimes s /\
  runpodCalls s' = runpodCalls s /\
  avgProcessingTime (metrics s') = avgProcessingTime (metrics s).
Proof.
  unfold submissionFailed.
  pose proof (handleRunpodError_frame s now e) as Hh. cbn zeta in Hh.
  destruct Hh as (? & ? & ? & ? & ? & ? & ? & ? & ? & ?).
  destruct (shouldRetryJob jobData e).
  - unfold addJobToRetryQueue. destruct (validDate _); simpl; repeat split; congruence.
  - simpl; repeat split; congruence.
Qed.

Lemma submissionFailed_final (s : State) (now : Z) (jobData : JobData) (e : JsError) :
  shouldRetryJob jobData e = false ->
  statusOf (submissionFailed s now jobData e) (separationId jobData) = Some "FAILED" /\
  queueRetry (redis (submissionFailed s now jobData e)) = queueRetry (redis s).
Proof.
  intros Hno. unfold submissionFailed. rewrite Hno.
  split; [apply statusOf_updateJobStatus |].
  pose proof (handleRunpodError_frame s now e) as Hh. cbn zeta in Hh.
  destruct Hh as (_ & _ & _ & Hr & _). simpl. exact Hr.
Qed.

Lemma mapGet_mapDelete (k : Id) (m : list (Id * ProcJob)) :
  mapGet k (mapDelete k m) = None.
Proof.
  induction m as [| [k' v] m IH]; [reflexivity |].
  unfold mapDelete in *. simpl. destruct (keyEqb k k') eqn:E; simpl.
  - exact IH.
  - rewrite E. exact IH.
Qed.

Lemma startJobProcessing_frame (s : State) (now : Z) (jobData : JobData) (o : SubmitOutcome) :
  let s' := startJobProcessing s now jobData o in
  cfg s' = cfg s /\
  queueFiles (redis s') = queueFiles (redis s) /\
  queueUrls (redis s') = queueUrls (redis s) /\
  users (redis s') = users (redis s) /\
  runpodRequestTimes s' = runpodRequestTimes s ++ [now] /\
  runpodCalls s' = runpodCalls s ++ [callFor now jobData].
Proof.
  unfold startJobProcessing.
  set (s5 := withCalls _ _).
  assert (H5 : cfg s5 = cfg s /\ queueFiles (redis s5) = queueFiles (redis s) /\
               queueUrls (redis s5) = queueUrls (redis s) /\
               users (redis s5) = users (redis s) /\
               runpodRequestTimes s5 = runpodRequestTimes s ++ [now] /\
               runpodCalls s5 = runpodCalls s ++ [callFor now jobData])
    by (repeat split).
  destruct H5 as (? & ? & ? & ? & ? & ?).
  assert (Hfail : forall e, let s' := submissionFailed s5 now jobData e in
              cfg s' = cfg s /\ queueFiles (redis s') = queueFiles (redis s) /\
              queueUrls (redis s') = queueUrls (redis s) /\
              users (redis s') = users (redis s) /\
              runpodRequestTimes s' = runpodRequestTimes s ++ [now] /\
              runpodCalls s' = runpodCalls s ++ [callFor now jobData]).
  { intros e. pose proof (submissionFailed_spec s5 now jobData e) as Hs. cbn zeta in *.
    destruct Hs as (? & ? & ? & ? & ? & ? & ? & ?). repeat split; congruence. }
  destruct o as [id | | e]; [| apply Hfail | apply Hfail].
  destruct (truthy id); [| apply Hfail].
  destruct (mapGet (separationId jobData) (processingJobs s5));
    match goal with |- context [if ?b then _ else _] => destruct b end;
    simpl; repeat split; congruence.
Qed.

(** *** Submission failure *)

(** A failed submission: the job leaves the processing set, no user's hash
    changes, and a job that is not retried is FAILED. *)
Lemma startJobProcessing_failure (s : State) (now : Z) (jobData : JobData) (e : JsError) :
  let s' := startJobProcessing s now jobData (SubmitThrows e) in
  mapGet (separationId jobData) (processingJobs s') = None /\
  users (redis s') = users (redis s) /\
  (shouldRetryJob jobData e = false ->
   statusOf s' (separationId jobData) = Some "FAILED" /\
   queueRetry (redis s') = queueRetry (redis s)).
Proof.
  intros s'.
  pose proof (startJobProcessing_frame s now jobData (SubmitThrows e)) as Hf.
  cbn zeta in Hf. fold s' in Hf. destruct Hf as (_ & _ & _ & Hu & _ & _).
  split; [| split; [exact Hu |]].
  - subst s'. unfold startJobProcessing.
    match goal with |- context [submissionFailed ?s5 _ _ _] =>
      pose proof (submissionFailed_spec s5 now jobData e) as Hs end.
    cbn zeta in Hs. destruct Hs as (_ & _ & _ & _ & Hd & _).
    rewrite Hd. apply mapGet_mapDelete.
  - intros Hno. subst s'. unfold startJobProcessing.
    match goal with |- context [submissionFailed ?s5 _ _ _] =>
      destruct (submissionFailed_final s5 now jobData e Hno) as [Hst Hq] end.
    split; [exact Hst |]. rewrite Hq. reflexivity.
Qed.

(** C3 (defect of the code): when the submission of a job fails, the job
    leaves the processing set and, unless it is retried, its status becomes
    FAILED, but no user's hash changes: the owner's [concurrent] counter is
    not decremented, as it is on completion, on failure and on timeout of a
    submitted job.  An answer without a job id is the failure
    [noResponseError]. *)
Theorem C3_submission_failure_keeps_concurrent
        (s : State) (now : Z) (jobData : JobData) (e : JsError) :
  let s' := startJobProcessing s now jobData (SubmitThrows e) in
  mapGet (separationId jobData) (processingJobs s') = None /\
  users (redis s') = users (redis s) /\
  (forall uid : string,
      concurrent (hgetall (redis s') now uid) = concurrent (hgetall (redis s) now uid)) /\
  (shouldRetryJob jobData e = false ->
   statusOf s' (separationId jobData) = Some "FAILED" /\
   queueRetry (redis s') = queueRetry (redis s)) /\
  startJobProcessing s now jobData NoResult
  = startJobProcessing s now jobData (SubmitThrows noResponseError) /\
  startJobProcessing s now jobData (Accepted None)
  = startJobProcessing s now jobData (SubmitThrows noResponseError).
Proof.
  intros s'.
  destruct (startJobProcessing_failure s now jobData e) as (Hp & Hu & Hf).
  split; [exact Hp |]. split; [exact Hu |]. split.
  - intros uid. subst s'. unfold hgetall. cbn zeta in Hu. by rewrite Hu.
  - split; [exact Hf |]. split; reflexivity.
Qed.

(** A job whose submission is refused with a client error is FAILED for good,
    and still counts against its user. *)
Example submission_failure_leaks_slot :
  statusOf refusedRun (Str "sep6") = Some "FAILED" /\
  processingJobs refusedRun = [] /\
  getTotalQueueSize refusedRun = 0 /\
  concurrent (hgetall (redis refusedRun) T0 "u1") = 1.
Proof. vm_compute. repeat split. Qed.

(** *** One tick of the dispatcher *)

(** A tick either dispatches nothing, or passes both checks, pops the oldest
    job of its list and calls the worker once, stamping the call. *)
Lemma processQueue_cases (s : State) (now : Z) (p : Priority) (o : SubmitOutcome) :
  let s' := processQueue s now p o in
  (runpodCalls s' = runpodCalls s /\
   queueFiles (redis s') = queueFiles (redis s) /\
   queueUrls (redis s') = queueUrls (redis s) /\
   (runpodRequestTimes s' = runpodRequestTimes s \/
    runpodRequestTimes s' = pruneTimes now (runpodRequestTimes s))) \/
  (exists job rest,
      canProcessMoreJobs s p = true /\
      Z.of_nat (length (pruneTimes now (runpodRequestTimes s))) < RUNPOD_RATE_LIMIT (cfg s) /\
      rpop (queueOf p (redis s)) = Some (job, rest) /\
      queueOf p (redis s') = rest /\
      runpodCalls s' = runpodCalls s ++ [callFor now job] /\
      runpodRequestTimes s' = pruneTimes now (runpodRequestTimes s) ++ [now]).
Proof.
  unfold processQueue, processQueueCheck, canMakeRunpodRequest.
  destruct (canProcessMoreJobs s p) eqn:Hcan; cbn [negb]; [| left; by repeat split; left].
  cbn [runpodRequestTimes withRequestTimes cfg].
  destruct (Z.ltb_spec (Z.of_nat (length (pruneTimes now (runpodRequestTimes s))))
                       (RUNPOD_RATE_LIMIT (cfg s))) as [Hlt | Hge]; cbn [negb].
  - unfold processQueueDispatch. cbn [redis withRequestTimes].
    destruct (rpop (queueOf p (redis s))) as [[job rest] |] eqn:Hpop.
    + right. exists job, rest.
      match goal with |- context [startJobProcessing ?s0 _ _ _] =>
        pose proof (startJobProcessing_frame s0 now job o) as Hf end.
      cbn zeta in Hf. destruct Hf as (_ & Hqf & Hqu & _ & Hrt & Hca).
      repeat split; try assumption.
      destruct p; cbn [queueOf]; [rewrite Hqf | rewrite Hqu]; reflexivity.
    + left. repeat split. by right.
  - left. repeat split. by right.
Qed.

(** *** The breaker and the dispatcher *)

(** The breaker is OPEN and the fourth upload is on its list.  The HIGH tick
    of [T0 + 63000], when three of the eight requests are more than a minute
    old, pops the upload and submits it to the worker all the same. *)
Lemma C1_dispatch_while_open_counterexample :
  circuitBreakerState trippedRun = OPEN /\
  map separationId (queueFiles (redis trippedRun)) = [Str "sep-4"] /\
  length (runpodCalls trippedRun) = 8%nat /\
  let s' := processQueue trippedRun (T0 + 63000) HIGH (Accepted (Some "rp-4")) in
  circuitBreakerState s' = OPEN /\
  queueFiles (redis s') = [] /\
  map fst (processingJobs s') = [Str "sep-2"; Str "sep-3"; Str "sep-4"] /\
  nth_error (runpodCalls s') 8 = Some (mkCall (Some "https://host/4") 300000 (T0 + 63000)).
Proof. vm_compute. repeat split. Qed.

(** C1 (amended): the breaker gates admission, not dispatch.  While it is
    OPEN, [addJob] admits nothing: it does not return true, triggers no tick,
    and leaves the three lists, the processing set, the calls made and the
    breaker as they are.  A dispatcher tick does not read the breaker: while it
    is OPEN, a tick whose concurrency and rate checks pass still pops the
    oldest job of its list and submits it. *)
Theorem C1_open_gates_admission_only (s : State) (now : Z) :
  circuitBreakerState s = OPEN ->
  (forall jobData : option JobData,
      let s' := fst (addJob s now jobData) in
      returned (snd (addJob s now jobData)) <> Some true /\
      immediate (snd (addJob s now jobData)) = None /\
      queueFiles (redis s') = queueFiles (redis s) /\
      queueUrls (redis s') = queueUrls (redis s) /\
      queueRetry (redis s') = queueRetry (redis s) /\
      processingJobs s' = processingJobs s /\
      runpodCalls s' = runpodCalls s /\
      circuitBreakerState s' = OPEN) /\
  (forall (p : Priority) (o : SubmitOutcome) (job : JobData) (rest : list JobData),
      canProcessMoreJobs s p = true ->
      snd (canMakeRunpodRequest s now) = true ->
      rpop (queueOf p (redis s)) = Some (job, rest) ->
      let s' := processQueue s now p o in
      queueOf p (redis s') = rest /\
      runpodCalls s' = runpodCalls s ++ [callFor now job]).
Proof.
  intros Hopen. split.
  - intros [jd |]; [| by repeat split].
    intros s'. subst s'. unfold addJob.
    destruct (truthy (separationId jd)); cbn [negb]; [| by repeat split].
    pose proof (checkUserLimits_frame s now (idString (orElse (userId jd) (Some "unknown"))))
      as Hfr.
    destruct (checkUserLimits s now (idString (orElse (userId jd) (Some "unknown"))))
      as [s1 ok].
    cbn [fst] in Hfr.
    destruct Hfr as (_ & Hqf & Hqu & Hqr & _ & _ & Hpj & _ & Hcb & _ & _ & Hca).
    destruct ok; cbn [negb].
    + rewrite Hcb, Hopen. cbn [Breaker_eqb fst snd].
      simpl. rewrite Hcb, Hopen. by repeat split.
    + simpl. rewrite Hcb, Hopen. by repeat split.
  - intros p o job rest Hcan Hrate Hpop s'.
    destruct (processQueue_cases s now p o) as [(Hca & Hqf & Hqu & _) | Hd].
    + exfalso. revert Hca Hqf Hqu. fold s'. subst s'.
      unfold processQueue, processQueueCheck. rewrite Hcan. cbn [negb].
      destruct (canMakeRunpodRequest s now) as [s1 ok] eqn:Hck. cbn [snd] in Hrate.
      subst ok. cbn [negb]. unfold processQueueDispatch.
      assert (Hr : redis s1 = redis s).
      { unfold canMakeRunpodRequest in Hck. by inversion Hck. }
      rewrite Hr, Hpop.
      match goal with |- context [startJobProcessing ?s0 _ _ _] =>
        pose proof (startJobProcessing_frame s0 now job o) as Hf end.
      cbn zeta in Hf. destruct Hf as (_ & _ & _ & _ & _ & Hca').
      intros Hca _ _. rewrite Hca' in Hca. simpl in Hca.
      assert (Hc1 : runpodCalls s1 = runpodCalls s).
      { unfold canMakeRunpodRequest in Hck. by inversion Hck. }
      rewrite Hc1 in Hca.
      apply (f_equal (@length _)) in Hca. rewrite length_app in Hca. simpl in Hca. lia.
    + destruct Hd as (job' & rest' & _ & _ & Hpop' & Hq & Hca & _).
      rewrite Hpop in Hpop'. inversion Hpop'; subst job' rest'. by split.
Qed.

(** A seventh upload, submitted while the breaker is OPEN, is not admitted. *)
Lemma C1_open_gates_admission_witness :
  returned (snd (addJob trippedRun (T0 + 61000) (Some (upload "7")))) <> Some true.
Proof.
  exact (proj1 (proj1 (C1_open_gates_admission_only trippedRun (T0 + 61000) eq_refl)
                      (Some (upload "7")))).
Defined.

(** *** Retry count *)

(** Whatever count the submitted object carries, the job [addJob] puts on a
    list has [retryCount] 0. *)
Lemma addJob_enqueues_zero (s : State) (now : Z) (jobData : option JobData) (p : Priority) :
  let s' := fst (addJob s now jobData) in
  queueOf p (redis s') = queueOf p (redis s) \/
  exists j, queueOf p (redis s') = j :: queueOf p (redis s) /\ retryCount j = 0%nat.
Proof.
  destruct jobData as [jd |]; [| by left].
  unfold addJob.
  destruct (truthy (separationId jd)); cbn [negb]; [| by left].
  pose proof (checkUserLimits_frame s now (idString (orElse (userId jd) (Some "unknown"))))
    as Hfr.
  destruct (checkUserLimits s now (idString (orElse (userId jd) (Some "unknown"))))
    as [s1 ok].
  cbn [fst] in Hfr. destruct Hfr as (_ & Hqf & Hqu & _).
  assert (Hq : queueOf p (redis s1) = queueOf p (redis s)) by (destruct p; assumption).
  destruct ok; cbn [negb]; [| left; exact Hq].
  destruct (Breaker_eqb (circuitBreakerState s1) OPEN); [left; exact Hq |].
  destruct (MAX_QUEUE_SIZE (cfg s1) <=? getTotalQueueSize s1); [left; exact Hq |].
  cbn [fst].
  destruct (isFileUpload jd), p; simpl;
    first [ left; unfold expireUser, hincrbyHourly, hincrbyConcurrent, hsetUser; simpl;
            split_ifs; simpl; assumption
          | right; eexists; split;
            [ unfold expireUser, hincrbyHourly, hincrbyConcurrent, hsetUser; simpl;
              split_ifs; simpl; rewrite <- ?Hqf, <- ?Hqu; reflexivity
            | reflexivity ] ].
Qed.

(** C2 (defect of the code): re-admission resets [retryCount]: every job
    [addJob] puts on a list has count 0, whatever count it came with.  In the
    run, the job is scheduled for retry with count 1, re-admitted with count
    0, and after its second failure scheduled with count 1 and a delay of one
    minute again: the count never reaches 3.  The third admission of this run is refused
    RATE_LIMITED, the two earlier admissions still counting against the user,
    and the job ends without a FAILED status. *)
Theorem C2_retry_count_reset_on_readmission :
  (forall (s : State) (now : Z) (jobData : option JobData) (p : Priority),
      let s' := fst (addJob s now jobData) in
      queueOf p (redis s') = queueOf p (redis s) \/
      exists j, queueOf p (redis s') = j :: queueOf p (redis s) /\ retryCount j = 0%nat) /\
  map retryCount (queueRetry (redis firstFailure)) = [1%nat] /\
  map retryCount (queueUrls (redis readmitted)) = [0%nat] /\
  map retryCount (queueRetry (redis secondFailure)) = [1%nat] /\
  map retryAt (queueRetry (redis secondFailure)) = [Some (T0 + 120000 + 60000)] /\
  statusOf secondFailure (Str "sep6") = Some "RETRY_SCHEDULED" /\
  statusOf thirdAdmission (Str "sep6") = Some "RATE_LIMITED" /\
  getTotalQueueSize thirdAdmission = 0 /\
  processingJobs thirdAdmission = [].
Proof. split; [exact addJob_enqueues_zero |]. vm_compute. repeat split. Qed.

(** ** Monitoring *)

Lemma hgetall_hincrbyConcurrent (r : Redis) (now : Z) (uid : string) (d : Z) :
  hgetall (hincrbyConcurrent r now uid d) now uid
  = mkUser (concurrent (hgetall r now uid) + d) (hourly (hgetall r now uid))
           (lastHourReset (hgetall r now uid)) (uExpireAt (hgetall r now uid)).
Proof. unfold hincrbyConcurrent. apply hgetall_hsetUser. simpl. apply hgetall_live. Qed.

Lemma hgetall_hincrbyConcurrent_other (r : Redis) (now : Z) (uid v : string) (d : Z) :
  v <> uid -> hgetall (hincrbyConcurrent r now uid d) now v = hgetall r now v.
Proof.
  intros Hne. unfold hincrbyConcurrent, hsetUser, hgetall at 1. simpl.
  rewrite lookup_insert_ne by congruence. reflexivity.
Qed.

(** What the timeout of a tracked job does. *)
Lemma handleJobTimeout_tracked (s : State) (now : Z) (job : ProcJob) :
  let sid := separationId (pjob job) in
  let uid := idString (userId (pjob job)) in
  mapGet sid (processingJobs s) = Some job ->
  truthy (userId (pjob job)) = true ->
  let s' := handleJobTimeout s now sid in
  statuses (redis s') !! idString sid =
    Some (mkStatus sid "TIMEOUT" now (DTimeout "Job timed out after 45 minutes")
                   (now + 86400 * 1000)) /\
  processingJobs s' = mapDelete sid (processingJobs s) /\
  concurrent (hgetall (redis s') now uid) = concurrent (hgetall (redis s) now uid) - 1 /\
  (forall v : string, v <> uid -> hgetall (redis s') now v = hgetall (redis s) now v) /\
  queueFiles (redis s') = queueFiles (redis s) /\
  queueUrls (redis s') = queueUrls (redis s) /\
  queueRetry (redis s') = queueRetry (redis s).
Proof.
  intros sid uid Hget Hu s'. subst s'. unfold handleJobTimeout.
  cbn [processingJobs updateJobStatus withRedis]. fold sid. rewrite Hget.
  unfold decrementUserConcurrent. rewrite Hu. fold uid.
  split; [| split; [| split; [| split]]].
  - simpl. by rewrite lookup_insert_eq.
  - reflexivity.
  - cbn [redis withRedis withProcessing]. rewrite hgetall_hincrbyConcurrent. simpl.
    unfold hgetall. simpl. lia.
  - intros v Hv. cbn [redis withRedis withProcessing].
    rewrite hgetall_hincrbyConcurrent_other by exact Hv. reflexivity.
  - repeat split.
Qed.

(** The monitor's handling of one tracked job whose poll throws. *)
Lemma monitorJob_poll_error (s : State) (now : Z) (poll : string -> PollOutcome)
      (job : ProcJob) :
  truthy (runpodJobId job) = true ->
  poll (idString (runpodJobId job)) = PollThrows ->
  monitorJob now poll s job
  = if 45 * 60 * 1000 <? now - startedAt job
    then handleJobTimeout s now (separationId (pjob job))
    else s.
Proof. intros Hid Hpoll. unfold monitorJob. rewrite Hid, Hpoll. reflexivity. Qed.

(** ** Invariants of a run *)

Section RunInvariant.

(** The configured rate limit, which no method changes. *)
Variable limit : Z.

Lemma Inv_view (now : Z) (s s' : State) : view s' = view s -> Inv limit now s -> Inv limit now s'.
Proof.
  unfold view. intros H [? ? ? ? ? ? ? ?]. inversion H as [[H1 H2 H3 H4 H5 H6 H7 H8]].
  constructor; unfold callTimes in *; rewrite ?H1, ?H2, ?H3, ?H4, ?H5, ?H6, ?H7, ?H8;
    assumption.
Qed.

Lemma entryOk_mono (t now : Z) (kv : Id * ProcJob) :
  t <= now -> entryOk t kv -> entryOk now kv.
Proof. intros Hle [? ?]. split; [assumption | lia]. Qed.

Lemma Inv_mono (t now : Z) (s : State) : t <= now -> Inv limit t s -> Inv limit now s.
Proof.
  intros Hle [? ? ? ? Hp ? Hr ?]. constructor; try assumption.
  - eapply Forall_impl; [exact Hp |]. intros kv. by apply entryOk_mono.
  - intros c Hc. apply Hr. lia.
Qed.

Lemma Inv_initial (c : Config) (t : Z) :
  RUNPOD_RATE_LIMIT c = limit -> Inv limit t (initialState c).
Proof.
  intros Hc. constructor; simpl.
  - exact Hc.
  - constructor.
  - constructor.
  - constructor.
  - constructor.
  - unfold Qle. simpl. lia.
  - intros; reflexivity.
  - intros u. unfold callTimes. simpl. lia.
Qed.

(** *** Lists and maps *)

Lemma rpop_Some (l rest : list JobData) (x : JobData) :
  rpop l = Some (x, rest) -> l = rest ++ [x].
Proof.
  unfold rpop. intros H. destruct (rev l) as [| y r] eqn:E; [discriminate |].
  inversion H; subst. rewrite <- (rev_involutive l), E. reflexivity.
Qed.

Lemma Forall_mapSet (P : Id * ProcJob -> Prop) (k : Id) (v : ProcJob)
      (m : list (Id * ProcJob)) :
  P (k, v) -> Forall P m -> Forall P (mapSet k v m).
Proof.
  intros Hv Hm. induction Hm as [| [k' v'] m Hx Hm IH]; simpl.
  - by constructor.
  - destruct (keyEqb k k'); constructor; assumption.
Qed.

Lemma Forall_mapDelete (P : Id * ProcJob -> Prop) (k : Id)
      (m : list (Id * ProcJob)) :
  Forall P m -> Forall P (mapDelete k m).
Proof.
  intros Hm. induction Hm as [| [k' v'] m Hx Hm IH]; simpl; [constructor |].
  unfold mapDelete in *. simpl. destruct (keyEqb k k'); simpl; [assumption |].
  by constructor.
Qed.

Lemma mapGet_Forall (P : ProcJob -> Prop) (k : Id) (v : ProcJob)
      (m : list (Id * ProcJob)) :
  Forall (fun kv => P (snd kv)) m -> mapGet k m = Some v -> P v.
Proof.
  intros Hm. induction Hm as [| [k' v'] m Hx Hm IH]; simpl; [discriminate |].
  destruct (keyEqb k k'); [| exact IH]. intros H. inversion H; subst. exact Hx.
Qed.

Lemma after_after (c d : Z) (l : list Z) : d <= c -> after c (after d l) = after c l.
Proof.
  intros Hle. unfold after. induction l as [| x l IH]; [reflexivity |]. simpl.
  destruct (Z.ltb_spec d x); simpl.
  - by rewrite IH.
  - destruct (Z.ltb_spec c x); [lia | exact IH].
Qed.

Lemma after_app (c : Z) (l1 l2 : list Z) : after c (l1 ++ l2) = after c l1 ++ after c l2.
Proof. unfold after. apply List.filter_app. Qed.

Lemma window_app (u : Z) (l1 l2 : list Z) :
  window u (l1 ++ l2) = window u l1 ++ window u l2.
Proof. unfold window. apply List.filter_app. Qed.

Lemma window_after (u c : Z) (l : list Z) :
  c <= u - 60000 -> (length (window u l) <= length (after c l))%nat.
Proof.
  intros Hle. unfold window, after. induction l as [| x l IH]; [simpl; lia |]. simpl.
  destruct (Z.ltb_spec (u - 60000) x); simpl.
  - destruct (Z.ltb_spec c x); [| lia].
    destruct (x <=? u); simpl; lia.
  - destruct (c <? x); simpl; lia.
Qed.

Lemma pruneTimes_after (now : Z) (l : list Z) : pruneTimes now l = after (now - 60000) l.
Proof. reflexivity. Qed.

(** *** The invariant is kept by every method *)

Lemma view_updateJobStatus (s : State) (t : Z) (sid : Id) (st : string)
      (d : StatusData) :
  view (updateJobStatus s t sid st d) = view s.
Proof. reflexivity. Qed.

Lemma view_decrementUserConcurrent (s : State) (t : Z) (uid : option string) :
  view (decrementUserConcurrent s t uid) = view s.
Proof. unfold decrementUserConcurrent. destruct (truthy uid); reflexivity. Qed.

Lemma view_checkUserLimits (s : State) (t : Z) (uid : string) :
  view (fst (checkUserLimits s t uid)) = view s.
Proof. unfold checkUserLimits. split_ifs; reflexivity. Qed.

Lemma expireUser_queues (r : Redis) (t : Z) (uid : string) (sec : Z) :
  queueFiles (expireUser r t uid sec) = queueFiles r /\
  queueUrls (expireUser r t uid sec) = queueUrls r /\
  queueRetry (expireUser r t uid sec) = queueRetry r.
Proof.
  unfold expireUser. destruct (users r !! uid) as [u |]; [| by repeat split].
  destruct (keyLive t (uExpireAt u)); by repeat split.
Qed.

Lemma view_updateUserLimits (s : State) (t : Z) (uid : string) :
  view (updateUserLimits s t uid) = view s.
Proof.
  unfold updateUserLimits, view. cbn [redis withRedis processingJobs metrics
    runpodRequestTimes runpodCalls cfg].
  destruct (expireUser_queues (hincrbyHourly (hincrbyConcurrent (redis s) t uid 1) t uid 1)
                              t uid 7200) as (-> & -> & ->).
  reflexivity.
Qed.

Lemma view_handleRunpodError (s : State) (t : Z) (e : JsError) :
  view (handleRunpodError s t e) = view s.
Proof.
  pose proof (handleRunpodError_frame s t e) as H. cbn zeta in H.
  destruct H as (Hc & Hf & Hu & Hr & _ & _ & Hp & Ht & Hca & Ha).
  unfold view. by rewrite Hc, Hf, Hu, Hr, Hp, Ht, Hca, Ha.
Qed.

Lemma truthy_idString (o : option string) : truthy o = true -> truthy (Some (idString o)) = true.
Proof. destruct o as [[| a r] |]; simpl; congruence. Qed.

Lemma userOf_truthy (jd : JobData) : truthy (Some (userOf jd)) = true.
Proof.
  unfold userOf, orElse. destruct (truthy (userId jd)) eqn:E; [| reflexivity].
  by apply truthy_idString.
Qed.

Lemma Inv_push (now : Z) (s : State) (p : Priority) (j : JobData) :
  jobOk j -> Inv limit now s ->
  Inv limit now (withRedis (withQueue p (lpush j (queueOf p (redis s))) (redis s)) s).
Proof.
  intros Hj [? ? ? ? ? ? ? ?].
  destruct p; constructor; simpl; try assumption; by constructor.
Qed.

Lemma Inv_addJob (now : Z) (s : State) (jobData : option JobData) :
  Inv limit now s -> Inv limit now (fst (addJob s now jobData)).
Proof.
  intros HI. destruct jobData as [jd |]; [| exact HI].
  unfold addJob.
  destruct (truthy (separationId jd)) eqn:Hid; cbn [negb];
    [| eapply Inv_view; [apply view_updateJobStatus | exact HI]].
  fold (userOf jd).
  pose proof (view_checkUserLimits s now (userOf jd)) as Hv.
  destruct (checkUserLimits s now (userOf jd)) as [s1 ok]. cbn [fst] in Hv.
  assert (H1 : Inv limit now s1) by (eapply Inv_view; [exact Hv | exact HI]).
  destruct ok; cbn [negb];
    [| eapply Inv_view; [apply view_updateJobStatus | exact H1]].
  destruct (Breaker_eqb (circuitBreakerState s1) OPEN);
    [eapply Inv_view; [apply view_updateJobStatus | exact H1] |].
  destruct (MAX_QUEUE_SIZE (cfg s1) <=? getTotalQueueSize s1);
    [eapply Inv_view; [apply view_updateJobStatus | eapply Inv_view; [| exact H1]];
     reflexivity |].
  cbn [fst].
  eapply Inv_view; [apply view_updateJobStatus |].
  eapply Inv_view; [apply view_updateUserLimits |].
  apply Inv_push; [| exact H1].
  split; [exact Hid | apply userOf_truthy].
Qed.

Lemma Inv_addJobToRetryQueue (now : Z) (s s' : State) (job : JobData) (msg : string) :
  jobOk job -> Inv limit now s -> addJobToRetryQueue s now job msg = Some s' -> Inv limit now s'.
Proof.
  intros Hj [? ? ? ? ? ? ? ?]. unfold addJobToRetryQueue.
  destruct (validDate _); [| discriminate]. intros H. inversion H; subst s'.
  eapply Inv_view; [apply view_updateJobStatus |].
  constructor; simpl; try assumption. constructor; [exact Hj | assumption].
Qed.

Lemma Inv_deleteProcessing (now : Z) (s : State) (k : Id) :
  Inv limit now s -> Inv limit now (withProcessing (mapDelete k (processingJobs s)) s).
Proof.
  intros [? ? ? ? ? ? ? ?]. constructor; simpl; try assumption.
  by apply Forall_mapDelete.
Qed.

Lemma Inv_submissionFailed (now : Z) (s : State) (job : JobData) (e : JsError) :
  jobOk job -> Inv limit now s -> Inv limit now (submissionFailed s now job e).
Proof.
  intros Hj HI. unfold submissionFailed.
  assert (H1 : Inv limit now (handleRunpodError s now e))
    by (eapply Inv_view; [apply view_handleRunpodError | exact HI]).
  pose proof (Inv_deleteProcessing now _ (separationId job) H1) as H2.
  destruct (shouldRetryJob job e).
  - destruct (addJobToRetryQueue _ now job (message e)) as [s3 |] eqn:E; [| exact H2].
    eapply Inv_addJobToRetryQueue; [exact Hj | exact H2 | exact E].
  - eapply Inv_view; [apply view_updateJobStatus | exact H2].
Qed.

(** A submission keeps the invariant when the rate check has just passed. *)
Lemma Inv_startJobProcessing (now : Z) (s : State) (job : JobData) (o : SubmitOutcome) :
  jobOk job -> Inv limit now s ->
  Z.of_nat (length (after (now - 60000) (callTimes s))) < RUNPOD_RATE_LIMIT (cfg s) ->
  Inv limit now (startJobProcessing s now job o).
Proof.
  intros Hj HI Hrate. unfold startJobProcessing.
  set (s5 := withCalls _ _).
  assert (H5 : Inv limit now s5).
  { destruct HI as [Hlim ? ? ? Hp ? Hrec Hwin].
    constructor; subst s5; simpl; try assumption.
    - apply Forall_mapSet; [| exact Hp]. split; [exact Hj | simpl; lia].
    - intros c Hc. unfold callTimes. simpl. rewrite map_app. simpl.
      rewrite !after_app. f_equal. apply Hrec. exact Hc.
    - intros u. unfold callTimes. simpl. rewrite map_app, window_app, length_app. simpl.
      destruct (Z.ltb_spec (u - 60000) now) as [Hlo | Hlo]; simpl.
      + destruct (Z.leb_spec now u) as [Hhi | Hhi]; simpl.
        * pose proof (window_after u (now - 60000) (map callTime (runpodCalls s))) as Hw.
          unfold callTimes in Hrate. lia.
        * specialize (Hwin u). unfold callTimes in Hwin. lia.
      + specialize (Hwin u). unfold callTimes in Hwin. lia. }
  assert (Hfail : forall e, Inv limit now (submissionFailed s5 now job e))
    by (intros e; by apply Inv_submissionFailed).
  destruct o as [id | | e]; [| apply Hfail | apply Hfail].
  destruct (truthy id); [| apply Hfail].
  assert (H6 : Inv limit now
                 match mapGet (separationId job) (processingJobs s5) with
                 | Some pj =>
                     withProcessing
                       (mapSet (separationId job) (mkProc (pjob pj) (startedAt pj) id (Some now))
                               (processingJobs s5)) s5
                 | None => s5
                 end).
  { destruct (mapGet (separationId job) (processingJobs s5)) as [pj |] eqn:Hget;
      [| exact H5].
    destruct H5 as [? ? ? ? Hp ? ? ?]. constructor; simpl; try assumption.
    apply Forall_mapSet; [| exact Hp].
    pose proof (mapGet_Forall (fun v => jobOk (pjob v) /\ startedAt v <= now) _ _ _ Hp Hget)
      as [? ?].
    split; simpl; assumption. }
  match goal with |- context [if ?b then _ else _] => destruct b end;
    eapply Inv_view; try exact H6; reflexivity.
Qed.

Lemma Inv_prune (now : Z) (s : State) :
  Inv limit now s -> Inv limit now (withRequestTimes (pruneTimes now (runpodRequestTimes s)) s).
Proof.
  intros [? ? ? ? ? ? Hrec ?]. constructor; simpl; try assumption.
  intros c Hc. rewrite pruneTimes_after, after_after by lia. by apply Hrec.
Qed.

Lemma Inv_processQueue (now : Z) (s : State) (p : Priority) (o : SubmitOutcome) :
  Inv limit now s -> Inv limit now (processQueue s now p o).
Proof.
  intros HI. unfold processQueue, processQueueCheck, canMakeRunpodRequest.
  destruct (canProcessMoreJobs s p); cbn [negb]; [| exact HI].
  pose proof (Inv_prune now s HI) as H1.
  cbn [runpodRequestTimes withRequestTimes cfg].
  destruct (Z.ltb_spec (Z.of_nat (length (pruneTimes now (runpodRequestTimes s))))
                       (RUNPOD_RATE_LIMIT (cfg s))) as [Hlt | Hge]; cbn [negb];
    [| eapply Inv_view; [| exact H1]; reflexivity].
  unfold processQueueDispatch. cbn [redis withRequestTimes].
  destruct (rpop (queueOf p (redis s))) as [[job rest] |] eqn:Hpop; [| exact H1].
  apply rpop_Some in Hpop.
  assert (Hq : Forall jobOk (rest ++ [job])).
  { rewrite <- Hpop. destruct HI. destruct p; assumption. }
  apply Forall_app in Hq. destruct Hq as [Hrest Hjob]. apply Forall_inv in Hjob.
  apply Inv_startJobProcessing; [assumption | |].
  - destruct H1 as [? ? ? ? ? ? ? ?].
    destruct p; constructor; simpl in *; assumption.
  - destruct HI as [_ _ _ _ _ _ Hrec _].
    assert (Hc : after (now - 60000) (callTimes s) = pruneTimes now (runpodRequestTimes s))
      by (rewrite pruneTimes_after; apply Hrec; lia).
    unfold callTimes in *. destruct p; simpl; rewrite Hc; exact Hlt.
Qed.

Lemma Inv_processRetryQueue (now : Z) (s : State) :
  Inv limit now s -> Inv limit now (fst (processRetryQueue s now)).
Proof.
  intros HI. unfold processRetryQueue.
  destruct (rpop (queueRetry (redis s))) as [[job rest] |] eqn:Hpop; [| exact HI].
  apply rpop_Some in Hpop.
  assert (Hq : Forall jobOk (rest ++ [job])) by (rewrite <- Hpop; by destruct HI).
  apply Forall_app in Hq. destruct Hq as [Hrest Hjob]. apply Forall_inv in Hjob.
  assert (H1 : Inv limit now (withRedis (withQueueRetry rest (redis s)) s)).
  { destruct HI. constructor; simpl; assumption. }
  match goal with |- context [if ?b then _ else _] => destruct b end.
  - match goal with |- context [addJob ?s0 now ?j] =>
      pose proof (Inv_addJob now s0 j H1) as H2; destruct (addJob s0 now j) end.
    exact H2.
  - cbn [fst]. destruct H1. constructor; simpl; try assumption. by constructor.
Qed.

Lemma average_nonneg (avg : Num) (ms : Z) :
  nonNegative avg -> 0 <= ms ->
  nonNegative (numDiv (numAdd avg (numDiv (numOfZ ms) (numOfZ 1000))) (numOfZ 2)).
Proof.
  intros Ha Hm. rewrite numOfZ_1000, numOfZ_2.
  apply numDiv_nonneg; [| reflexivity].
  apply numAdd_nonneg; [exact Ha |].
  apply numDiv_nonneg; [by apply numOfZ_nonneg | reflexivity].
Qed.

Lemma Inv_handleJobCompletion (now : Z) (s : State) (sid : Id) (r : RunpodStatus) :
  Inv limit now s -> Inv limit now (handleJobCompletion s now sid r).
Proof.
  intros HI. unfold handleJobCompletion.
  destruct (mapGet sid (processingJobs s)) as [pj |] eqn:Hget; [| exact HI].
  eapply Inv_view; [apply view_decrementUserConcurrent |].
  destruct HI as [? ? ? ? Hp Havg ? ?].
  pose proof (mapGet_Forall (fun v => jobOk (pjob v) /\ startedAt v <= now) _ _ _ Hp Hget)
    as [_ Hstart].
  constructor; simpl; try assumption.
  - by apply Forall_mapDelete.
  - apply average_nonneg; [exact Havg | lia].
Qed.

Lemma Inv_handleJobFailure (now : Z) (s : State) (sid : Id) (r : RunpodStatus) :
  Inv limit now s -> Inv limit now (handleJobFailure s now sid r).
Proof.
  intros HI. unfold handleJobFailure.
  assert (H3 : Inv limit now
    (withProcessing
       (mapDelete sid (processingJobs
          (updateJobStatus (withMetrics (bumpFailed (metrics s)) s) now sid "FAILED"
             (DFailed (idString (orElse (rerror r) (Some "Processing failed")))
                      "runpod_processing"))))
       (updateJobStatus (withMetrics (bumpFailed (metrics s)) s) now sid "FAILED"
          (DFailed (idString (orElse (rerror r) (Some "Processing failed")))
                   "runpod_processing")))).
  { apply Inv_deleteProcessing. eapply Inv_view; [| exact HI]. reflexivity. }
  destruct (mapGet sid (processingJobs s)); [| exact H3].
  eapply Inv_view; [apply view_decrementUserConcurrent | exact H3].
Qed.

Lemma Inv_handleJobTimeout (now : Z) (s : State) (sid : Id) :
  Inv limit now s -> Inv limit now (handleJobTimeout s now sid).
Proof.
  intros HI. unfold handleJobTimeout.
  assert (H2 : Inv limit now
    (withProcessing
       (mapDelete sid (processingJobs
          (updateJobStatus s now sid "TIMEOUT" (DTimeout "Job timed out after 45 minutes"))))
       (updateJobStatus s now sid "TIMEOUT" (DTimeout "Job timed out after 45 minutes")))).
  { apply Inv_deleteProcessing. eapply Inv_view; [| exact HI]. reflexivity. }
  destruct (mapGet sid (processingJobs s)); [| exact H2].
  eapply Inv_view; [apply view_decrementUserConcurrent | exact H2].
Qed.

Lemma Inv_monitorJob (now : Z) (poll : string -> PollOutcome) (s : State) (job : ProcJob) :
  Inv limit now s -> Inv limit now (monitorJob now poll s job).
Proof.
  intros HI. unfold monitorJob.
  destruct (truthy (runpodJobId job)); cbn [negb]; [| exact HI].
  destruct (poll (idString (runpodJobId job))) as [st |].
  - destruct (String.eqb (rstatus st) "COMPLETED"); [by apply Inv_handleJobCompletion |].
    destruct (String.eqb (rstatus st) "FAILED"); [by apply Inv_handleJobFailure |].
    eapply Inv_view; [| exact HI]. reflexivity.
  - match goal with |- context [if ?b then _ else _] => destruct b end;
      [by apply Inv_handleJobTimeout | exact HI].
Qed.

Lemma Inv_monitorRunningJobs (now : Z) (s : State) (poll : string -> PollOutcome) :
  Inv limit now s -> Inv limit now (monitorRunningJobs s now poll).
Proof.
  unfold monitorRunningJobs. generalize (mapValues (processingJobs s)).
  intros l. revert s. induction l as [| job l IH]; intros s HI; [exact HI |].
  simpl. apply IH. by apply Inv_monitorJob.
Qed.

Lemma Inv_performCleanup (now : Z) (s : State) :
  Inv limit now s -> Inv limit now (performCleanup s now).
Proof.
  unfold performCleanup. generalize (staleJobs s now).
  intros l. revert s. induction l as [| k l IH]; intros s HI; [exact HI |].
  simpl. apply IH. by apply Inv_handleJobTimeout.
Qed.

Lemma Inv_fireHalfOpenTimer (now : Z) (s : State) :
  Inv limit now s -> Inv limit now (fireHalfOpenTimer s now).
Proof.
  intros HI. unfold fireHalfOpenTimer.
  destruct (halfOpenTimers s) as [| t rest]; [exact HI |].
  destruct (t <=? now); [| exact HI].
  eapply Inv_view; [| exact HI]. reflexivity.
Qed.

Lemma Inv_step (now : Z) (s : State) (e : Event) : Inv limit now s -> Inv limit now (step s now e).
Proof.
  intros HI. destruct e; simpl.
  - by apply Inv_addJob.
  - by apply Inv_processQueue.
  - by apply Inv_monitorRunningJobs.
  - by apply Inv_processRetryQueue.
  - by apply Inv_performCleanup.
  - by apply Inv_prune.
  - by apply Inv_fireHalfOpenTimer.
Qed.

(** Every run whose instants never go back keeps the invariant. *)
Lemma Inv_run (trace : list (Z * Event)) (t0 : Z) (s : State) :
  chronological t0 trace -> Inv limit t0 s ->
  exists t, t0 <= t /\ Inv limit t (run s trace).
Proof.
  revert t0 s. induction trace as [| [t e] trace IH]; intros t0 s Hch HI.
  - exists t0. split; [lia | exact HI].
  - destruct Hch as [Hle Hch]. simpl.
    destruct (IH t (step s t e) Hch) as (t' & Hle' & HI').
    + apply Inv_step. by apply (Inv_mono t0).
    + exists t'. split; [lia | exact HI'].
Qed.

End RunInvariant.

(** ** Properties of every run *)

(** *** Rounding a quotient up *)

(** The ceiling of a quotient of integers survives the rounding of the
    quotient: for integers below [2^53], [Math.ceil(n / d)] is the least
    [k] with [n <= k * d]. *)
Lemma ceil_div (n d : Z) :
  0 <= n < 2 ^ 53 -> 1 <= d <= 2 ^ 53 ->
  exists k : Z,
    numCeil (numDiv (numOfZ n) (numOfZ d)) = Fin (inject_Z k) /\
    (k - 1) * d < n <= k * d.
Proof.
  intros Hn Hd.
  rewrite (numOfZ_exact n), (numOfZ_exact d) by lia.
  assert (HD : (0 < inject_Z d)%Q) by (change 0%Q with (inject_Z 0); rewrite <- Zlt_Qlt; lia).
  assert (HN : (0 <= inject_Z n)%Q) by (change 0%Q with (inject_Z 0); rewrite <- Zle_Qle; lia).
  cbn [numDiv magnitude]. rewrite !isNegative_nonneg by lra. cbn [xorb].
  assert (Eb : Qeq_bool (Qabs (inject_Z d)) 0 = false).
  { destruct (Qeq_bool (Qabs (inject_Z d)) 0) eqn:E; [| reflexivity].
    apply Qeq_bool_iff in E. rewrite Qabs_pos in E by lra. lra. }
  rewrite Eb.
  assert (Ha : (Qabs (inject_Z n) / Qabs (inject_Z d) == inject_Z n / inject_Z d)%Q)
    by (rewrite !Qabs_pos by lra; reflexivity).
  destruct (Z.eq_dec n 0) as [-> | Hn0].
  - exists 0. split; [| lia].
    unfold roundMagnitude.
    assert (E0 : Qeq_bool (Qabs (inject_Z 0) / Qabs (inject_Z d)) 0 = true).
    { apply Qeq_bool_iff. rewrite Ha. unfold Qdiv. ring. }
    rewrite E0. reflexivity.
  - destruct (roundMagnitude_ceiling _ n d ltac:(lia) Hd Ha) as (q & -> & Hlo & Hhi).
    set (k := Qceiling (Qabs (inject_Z n) / Qabs (inject_Z d))) in *.
    pose proof (Qle_ceiling (Qabs (inject_Z n) / Qabs (inject_Z d))) as Hc1.
    pose proof (Qceiling_lt (Qabs (inject_Z n) / Qabs (inject_Z d))) as Hc0.
    fold k in Hc1, Hc0. rewrite Ha in Hc1, Hc0.
    assert (Hmul : (inject_Z n / inject_Z d * inject_Z d == inject_Z n)%Q) by (field; lra).
    assert (Hk : (k - 1) * d < n <= k * d).
    { split; [rewrite Zlt_Qlt | rewrite Zle_Qle]; rewrite inject_Z_mult; nra. }
    exists k. split; [| exact Hk].
    assert (Hk1 : 1 <= k) by nia.
    assert (Hq0 : (0 <= q)%Q).
    { assert (H : (0 <= inject_Z (k - 1))%Q)
        by (change 0%Q with (inject_Z 0); rewrite <- Zle_Qle; lia).
      lra. }
    cbn [signed numCeil].
    assert (E : Qle_bool 0 q = true) by (by apply Qle_bool_iff).
    rewrite E, andb_false_r.
    assert (Hqk : Qceiling q = k).
    { apply Z.le_antisymm.
      - rewrite <- (Qceiling_Z k). by apply Qceiling_resp_le.
      - assert (k - 1 < Qceiling q); [| lia].
        rewrite Zlt_Qlt. pose proof (Qle_ceiling q). lra. }
    by rewrite Hqk.
Qed.

(** *** Runs at instants a [Date] can hold *)

Lemma Dated_view (c : Config) (s s' : State) :
  datedView s' = datedView s -> Dated c s -> Dated c s'.
Proof.
  unfold datedView. intros H [? ? ?]. inversion H as [[H1 H2 H3]].
  constructor; rewrite ?H1, ?H2, ?H3; assumption.
Qed.

Lemma Dated_initial (c : Config) : Dated c (initialState c).
Proof.
  constructor; [reflexivity | constructor |].
  exists 120%Q. split; [vm_compute; reflexivity |].
  split; [discriminate |]. apply Qle_bool_iff. reflexivity.
Qed.

Lemma datedView_decrementUserConcurrent (s : State) (t : Z) (uid : option string) :
  datedView (decrementUserConcurrent s t uid) = datedView s.
Proof. unfold decrementUserConcurrent. destruct (truthy uid); reflexivity. Qed.

Lemma datedView_checkUserLimits (s : State) (t : Z) (uid : string) :
  datedView (fst (checkUserLimits s t uid)) = datedView s.
Proof. unfold checkUserLimits. split_ifs; reflexivity. Qed.

Lemma datedView_addJob (s : State) (now : Z) (jobData : option JobData) :
  datedView (fst (addJob s now jobData)) = datedView s.
Proof.
  destruct jobData as [jd |]; [| reflexivity]. unfold addJob.
  destruct (truthy (separationId jd)); cbn [negb]; [| reflexivity].
  pose proof (datedView_checkUserLimits s now (idString (orElse (userId jd) (Some "unknown"))))
    as Hv.
  destruct (checkUserLimits s now _) as [s1 ok]. cbn [fst] in Hv.
  destruct ok; cbn [negb]; [| exact Hv].
  destruct (Breaker_eqb (circuitBreakerState s1) OPEN); [exact Hv |].
  destruct (MAX_QUEUE_SIZE (cfg s1) <=? getTotalQueueSize s1); exact Hv.
Qed.

Lemma datedView_handleRunpodError (s : State) (now : Z) (e : JsError) :
  datedView (handleRunpodError s now e) = datedView s.
Proof.
  pose proof (handleRunpodError_frame s now e) as H. cbn zeta in H.
  destruct H as (Hc & _ & _ & _ & _ & _ & Hp & _ & _ & Ha).
  unfold datedView. by rewrite Hc, Hp, Ha.
Qed.

Lemma Dated_deleteProcessing (c : Config) (s : State) (k : Id) :
  Dated c s -> Dated c (withProcessing (mapDelete k (processingJobs s)) s).
Proof.
  intros [? ? ?]. constructor; simpl; try assumption. by apply Forall_mapDelete.
Qed.

Lemma Dated_submissionFailed (c : Config) (s : State) (now : Z) (job : JobData) (e : JsError) :
  Dated c s -> Dated c (submissionFailed s now job e).
Proof.
  intros HD. unfold submissionFailed.
  assert (H1 : Dated c (handleRunpodError s now e))
    by (eapply Dated_view; [apply datedView_handleRunpodError | exact HD]).
  pose proof (Dated_deleteProcessing c _ (separationId job) H1) as H2.
  destruct (shouldRetryJob job e).
  - unfold addJobToRetryQueue. destruct (validDate _); [| exact H2].
    eapply Dated_view; [| exact H2]. reflexivity.
  - eapply Dated_view; [| exact H2]. reflexivity.
Qed.

Lemma Dated_startJobProcessing (c : Config) (s : State) (now : Z) (job : JobData)
      (o : SubmitOutcome) :
  - dateLimit <= now -> Dated c s -> Dated c (startJobProcessing s now job o).
Proof.
  intros Hnow HD. unfold startJobProcessing.
  set (s5 := withCalls _ _).
  assert (H5 : Dated c s5).
  { destruct HD as [? Hp ?]. constructor; subst s5; simpl; try assumption.
    apply Forall_mapSet; [exact Hnow | exact Hp]. }
  assert (Hfail : forall e, Dated c (submissionFailed s5 now job e))
    by (intros e; by apply Dated_submissionFailed).
  destruct o as [id | | e]; [| apply Hfail | apply Hfail].
  destruct (truthy id); [| apply Hfail].
  assert (H6 : Dated c
                 match mapGet (separationId job) (processingJobs s5) with
                 | Some pj =>
                     withProcessing
                       (mapSet (separationId job) (mkProc (pjob pj) (startedAt pj) id (Some now))
                               (processingJobs s5)) s5
                 | None => s5
                 end).
  { destruct (mapGet (separationId job) (processingJobs s5)) as [pj |] eqn:Hget;
      [| exact H5].
    destruct H5 as [? Hp ?]. constructor; simpl; try assumption.
    apply Forall_mapSet; [| exact Hp].
    exact (mapGet_Forall (fun v => - dateLimit <= startedAt v) _ _ _ Hp Hget). }
  match goal with |- context [if ?b then _ else _] => destruct b end;
    eapply Dated_view; try exact H6; reflexivity.
Qed.

Lemma Dated_processQueue (c : Config) (s : State) (now : Z) (p : Priority) (o : SubmitOutcome) :
  - dateLimit <= now -> Dated c s -> Dated c (processQueue s now p o).
Proof.
  intros Hnow HD. unfold processQueue, processQueueCheck, canMakeRunpodRequest.
  destruct (canProcessMoreJobs s p); cbn [negb]; [| exact HD].
  match goal with |- context [if negb ?b then _ else _] => destruct b end; cbn [negb];
    [| eapply Dated_view; [| exact HD]; reflexivity].
  unfold processQueueDispatch.
  match goal with |- context [rpop ?l] => destruct (rpop l) as [[job rest] |] end;
    [| eapply Dated_view; [| exact HD]; reflexivity].
  apply Dated_startJobProcessing; [exact Hnow |].
  eapply Dated_view; [| exact HD]. destruct p; reflexivity.
Qed.

Lemma Dated_processRetryQueue (c : Config) (s : State) (now : Z) :
  Dated c s -> Dated c (fst (processRetryQueue s now)).
Proof.
  intros HD. unfold processRetryQueue.
  destruct (rpop (queueRetry (redis s))) as [[job rest] |]; [| exact HD].
  match goal with |- context [if ?b then _ else _] => destruct b end.
  - match goal with |- context [addJob ?s0 now ?j] =>
      pose proof (datedView_addJob s0 now j) as H2; destruct (addJob s0 now j) end.
    cbn [fst] in *. eapply Dated_view; [exact H2 |].
    eapply Dated_view; [| exact HD]. reflexivity.
  - eapply Dated_view; [| exact HD]. reflexivity.
Qed.

(** The new average is a double of the same range. *)
Lemma average_upTo (avg : Num) (ms : Z) :
  upTo 45 avg -> 0 <= ms <= 2 * dateLimit ->
  upTo 45 (numDiv (numAdd avg (numDiv (numOfZ ms) (numOfZ 1000))) (numOfZ 2)).
Proof.
  intros (a & -> & Ha0 & Ha) Hms. rewrite numOfZ_1000, numOfZ_2.
  assert (H54 : 2 * dateLimit <= 2 ^ 54) by (vm_compute; discriminate).
  destruct (numOfZ_upTo ms 54) as (q1 & -> & Hq0 & Hq1); [lia | | lia |].
  { rewrite pow2_Z by lia. rewrite <- Zle_Qle. lia. }
  assert (P54 : (2 ^ 54 == 2 ^ 45 * 512)%Q) by reflexivity.
  assert (P46 : (2 ^ 46 == 2 ^ 45 * 2)%Q) by reflexivity.
  pose proof (pow2_pos 45) as P45.
  destruct (numDiv_upTo q1 1000 45) as (q2 & -> & Hq20 & Hq21);
    [exact Hq0 | reflexivity | lra | lia |].
  destruct (numAdd_upTo a q2 46) as (q3 & -> & Hq30 & Hq31); [exact Ha0 | exact Hq20 | lra | lia |].
  apply numDiv_upTo; [exact Hq30 | reflexivity | lra | lia].
Qed.

Lemma Dated_handleJobCompletion (c : Config) (limit now : Z) (s : State) (sid : Id)
      (r : RunpodStatus) :
  now <= dateLimit -> Inv limit now s -> Dated c s -> Dated c (handleJobCompletion s now sid r).
Proof.
  intros Hnow HI HD. unfold handleJobCompletion.
  destruct (mapGet sid (processingJobs s)) as [pj |] eqn:Hget; [| exact HD].
  eapply Dated_view; [apply datedView_decrementUserConcurrent |].
  destruct HD as [? Hp Havg].
  pose proof (mapGet_Forall (fun v => - dateLimit <= startedAt v) _ _ _ Hp Hget) as Hlo.
  pose proof (mapGet_Forall (fun v => jobOk (pjob v) /\ startedAt v <= now) _ _ _
                            (inv_proc _ _ _ HI) Hget) as [_ Hhi].
  constructor; simpl; try assumption.
  - by apply Forall_mapDelete.
  - apply average_upTo; [exact Havg | unfold dateLimit in *; lia].
Qed.

Lemma Dated_handleJobFailure (c : Config) (s : State) (now : Z) (sid : Id) (r : RunpodStatus) :
  Dated c s -> Dated c (handleJobFailure s now sid r).
Proof.
  intros HD. unfold handleJobFailure.
  match goal with |- context [withProcessing (mapDelete sid (processingJobs ?s0)) ?s0] =>
    assert (H3 : Dated c (withProcessing (mapDelete sid (processingJobs s0)) s0))
      by (apply Dated_deleteProcessing; eapply Dated_view; [| exact HD]; reflexivity) end.
  destruct (mapGet sid (processingJobs s)); [| exact H3].
  eapply Dated_view; [apply datedView_decrementUserConcurrent | exact H3].
Qed.

Lemma Dated_handleJobTimeout (c : Config) (s : State) (now : Z) (sid : Id) :
  Dated c s -> Dated c (handleJobTimeout s now sid).
Proof.
  intros HD. unfold handleJobTimeout.
  match goal with |- context [withProcessing (mapDelete sid (processingJobs ?s0)) ?s0] =>
    assert (H3 : Dated c (withProcessing (mapDelete sid (processingJobs s0)) s0))
      by (apply Dated_deleteProcessing; eapply Dated_view; [| exact HD]; reflexivity) end.
  destruct (mapGet sid (processingJobs s)); [| exact H3].
  eapply Dated_view; [apply datedView_decrementUserConcurrent | exact H3].
Qed.

Lemma Dated_monitorJob (c : Config) (limit now : Z) (poll : string -> PollOutcome) (s : State)
      (job : ProcJob) :
  now <= dateLimit -> Inv limit now s -> Dated c s -> Dated c (monitorJob now poll s job).
Proof.
  intros Hnow HI HD. unfold monitorJob.
  destruct (truthy (runpodJobId job)); cbn [negb]; [| exact HD].
  destruct (poll (idString (runpodJobId job))) as [st |].
  - destruct (String.eqb (rstatus st) "COMPLETED");
      [by apply (Dated_handleJobCompletion c limit) |].
    destruct (String.eqb (rstatus st) "FAILED"); [by apply Dated_handleJobFailure |].
    eapply Dated_view; [| exact HD]. reflexivity.
  - match goal with |- context [if ?b then _ else _] => destruct b end;
      [by apply Dated_handleJobTimeout | exact HD].
Qed.

Lemma Dated_step (c : Config) (limit now : Z) (s : State) (e : Event) :
  - dateLimit <= now <= dateLimit -> Inv limit now s -> Dated c s -> Dated c (step s now e).
Proof.
  intros Hnow HI HD. destruct e; simpl.
  - eapply Dated_view; [apply datedView_addJob | exact HD].
  - apply Dated_processQueue; [lia | exact HD].
  - unfold monitorRunningJobs. generalize (mapValues (processingJobs s)).
    intros l. revert s HI HD. induction l as [| job l IH]; intros s HI HD; [exact HD |].
    simpl. apply IH; [by apply Inv_monitorJob | apply (Dated_monitorJob c limit); tauto || lia].
  - by apply Dated_processRetryQueue.
  - unfold performCleanup. generalize (staleJobs s now).
    intros l. revert s HI HD. induction l as [| k l IH]; intros s HI HD; [exact HD |].
    simpl. apply IH; [by apply Inv_handleJobTimeout | by apply Dated_handleJobTimeout].
  - eapply Dated_view; [| exact HD]. reflexivity.
  - unfold fireHalfOpenTimer. destruct (halfOpenTimers s) as [| t rest]; [exact HD |].
    destruct (t <=? now); [| exact HD]. eapply Dated_view; [| exact HD]. reflexivity.
Qed.

Lemma Dated_run (c : Config) (limit : Z) (trace : list (Z * Event)) (t0 : Z) (s : State) :
  chronological t0 trace -> - dateLimit <= t0 ->
  Forall (fun te => fst te <= dateLimit) trace ->
  Inv limit t0 s -> Dated c s -> Dated c (run s trace).
Proof.
  revert t0 s. induction trace as [| [t e] trace IH]; intros t0 s Hch Ht0 Hall HI HD;
    [exact HD |].
  destruct Hch as [Hle Hch]. simpl.
  pose proof (Forall_inv Hall) as Ht. simpl in Ht. apply Forall_inv_tail in Hall.
  assert (HI' : Inv limit t s) by (by apply (Inv_mono limit t0)).
  apply (IH t); [exact Hch | lia | exact Hall | by apply Inv_step |].
  apply (Dated_step c limit); [lia | exact HI' | exact HD].
Qed.

(** *** Estimated wait *)

(** C10: in every state of a run whose clock never goes back and whose
    instants are ones a [Date] can hold, with limits that are integers
    JavaScript holds exactly, and for every queue position and both classes:
    the divisor of the estimated wait is
    [max(1, classSlots - processingInClass)], at least 1 and so not zero,
    whatever the occupation of the class and the sign of its slot count; the
    quotient is rounded up to the least number of rounds that serve the
    position, and the estimate is that number times the average processing
    time, a finite double that is not negative. *)
Theorem C10_estimated_wait_well_defined
        (c : Config) (t0 : Z) (trace : list (Z * Event)) (queuePosition : Z) (p : Priority) :
  chronological t0 trace ->
  - dateLimit <= t0 ->
  Forall (fun te => fst te <= dateLimit) trace ->
  Z.abs (MAX_CONCURRENT_JOBS c) <= 2 ^ 52 ->
  Z.abs (PRIORITY_FILE_LIMIT c) <= 2 ^ 52 ->
  0 <= queuePosition < 2 ^ 53 ->
  let s := run (initialState c) trace in
  let divisor := Z.max 1 (classSlots c p - countPriority p (processingJobs s)) in
  1 <= divisor /\
  exists rounds : Z,
    (rounds - 1) * divisor < queuePosition <= rounds * divisor /\
    calculateEstimatedWait s queuePosition p
    = numMul (Fin (inject_Z rounds)) (avgProcessingTime (metrics s)) /\
    upTo 45 (avgProcessingTime (metrics s)) /\
    upTo 98 (calculateEstimatedWait s queuePosition p).
Proof.
  intros Hch Ht0 Hall Hmax Hpfl Hq s divisor.
  assert (HD : Dated c s).
  { apply (Dated_run c (RUNPOD_RATE_LIMIT c) trace t0); try assumption;
      [by apply Inv_initial | apply Dated_initial]. }
  destruct HD as [Hcfg _ Havg].
  assert (Hd1 : 1 <= divisor) by apply Z.le_max_l.
  split; [exact Hd1 |].
  assert (H53 : 2 ^ 53 = 2 * 2 ^ 52) by reflexivity.
  assert (Hd2 : divisor <= 2 ^ 53).
  { subst divisor. unfold countPriority.
    assert (classSlots c p <= 2 ^ 53) by (unfold classSlots; destruct p; lia).
    lia. }
  destruct (ceil_div queuePosition divisor Hq (conj Hd1 Hd2)) as (k & Hceil & Hk).
  exists k. split; [exact Hk |].
  assert (Heq : calculateEstimatedWait s queuePosition p
                = numMul (Fin (inject_Z k)) (avgProcessingTime (metrics s))).
  { unfold calculateEstimatedWait. rewrite Hcfg. fold (classSlots c p). fold divisor.
    by rewrite Hceil. }
  split; [exact Heq |]. split; [exact Havg |].
  rewrite Heq. destruct Havg as (a & -> & Ha0 & Ha).
  assert (Hk0 : 0 <= k <= queuePosition) by nia.
  assert (HK0 : (0 <= inject_Z k)%Q) by (change 0%Q with (inject_Z 0); rewrite <- Zle_Qle; lia).
  assert (HK1 : (inject_Z k <= 2 ^ 53)%Q) by (rewrite pow2_Z by lia; rewrite <- Zle_Qle; lia).
  assert (P98 : (2 ^ 98 == 2 ^ 53 * 2 ^ 45)%Q) by reflexivity.
  pose proof (pow2_pos 45). pose proof (pow2_pos 53).
  apply numMul_upTo; [exact HK0 | exact Ha0 | nra | lia].
Qed.

(** With no NORMAL slot and one NORMAL job processing, the class has -1
    slots left: the divisor is 1, and the estimate for position 7 is seven
    times the average of 120 seconds.  Once that job has completed after 28.8
    seconds, the average is the double nearest to 74.4, and the estimate for
    position 25 is the double [1860.0000000000002], which [addJob] reports as
    32 minutes. *)
Lemma C10_estimated_wait_witness :
  classSlots noNormalSlot NORMAL
  - countPriority NORMAL (processingJobs (run (initialState noNormalSlot) busyRun)) = -1 /\
  calculateEstimatedWait (run (initialState noNormalSlot) busyRun) 7 NORMAL = Fin 840 /\
  calculateEstimatedWait (run (initialState noNormalSlot) finishedRun) 25 NORMAL
  = Fin (1860 + 1 / 2 ^ 42) /\
  jsonCeil (numDiv (calculateEstimatedWait (run (initialState noNormalSlot) finishedRun)
                                           25 NORMAL)
                   (numOfZ 60)) = Some 32.
Proof.
  split; [reflexivity |].
  assert (Ht0 : - dateLimit <= T0) by (vm_compute; discriminate).
  assert (Hmax : Z.abs (MAX_CONCURRENT_JOBS noNormalSlot) <= 2 ^ 52)
    by (vm_compute; discriminate).
  assert (Hpfl : Z.abs (PRIORITY_FILE_LIMIT noNormalSlot) <= 2 ^ 52)
    by (vm_compute; discriminate).
  assert (Hch : chronological T0 busyRun) by (simpl; lia).
  assert (Hall : Forall (fun te : Z * Event => fst te <= dateLimit) busyRun)
    by (repeat constructor; vm_compute; discriminate).
  assert (Hq : 0 <= 7 < 2 ^ 53) by (split; [discriminate | reflexivity]).
  assert (Hch' : chronological T0 finishedRun) by (simpl; lia).
  assert (Hall' : Forall (fun te : Z * Event => fst te <= dateLimit) finishedRun)
    by (repeat constructor; vm_compute; discriminate).
  assert (Hq' : 0 <= 25 < 2 ^ 53) by (split; [discriminate | reflexivity]).
  destruct (C10_estimated_wait_well_defined noNormalSlot T0 busyRun 7 NORMAL
              Hch Ht0 Hall Hmax Hpfl Hq) as (_ & k & Hk & Heq & _).
  destruct (C10_estimated_wait_well_defined noNormalSlot T0 finishedRun 25 NORMAL
              Hch' Ht0 Hall' Hmax Hpfl Hq') as (_ & k' & Hk' & Heq' & _).
  assert (Hd : Z.max 1 (classSlots noNormalSlot NORMAL
                        - countPriority NORMAL
                            (processingJobs (run (initialState noNormalSlot) busyRun))) = 1)
    by reflexivity.
  assert (Hd' : Z.max 1 (classSlots noNormalSlot NORMAL
                         - countPriority NORMAL
                             (processingJobs (run (initialState noNormalSlot) finishedRun))) = 1)
    by reflexivity.
  rewrite Hd in Hk. rewrite Hd' in Hk'.
  assert (k = 7) by lia. assert (k' = 25) by lia. subst k k'.
  rewrite Heq, Heq'. vm_compute. repeat split.
Defined.

(** *** Monitor timeout *)

Lemma mapGet_mapDelete_None (k k' : Id) (m : list (Id * ProcJob)) :
  mapGet k m = None -> mapGet k (mapDelete k' m) = None.
Proof.
  induction m as [| [k0 v] m IH]; [reflexivity |]. unfold mapDelete in *. simpl.
  destruct (keyEqb k k0) eqn:E; [discriminate |]. intros H.
  destruct (keyEqb k' k0); simpl; [by apply IH |]. rewrite E. by apply IH.
Qed.

(** The monitor never adds to the processing set. *)
Lemma monitorJob_gone (now : Z) (poll : string -> PollOutcome) (s : State) (job : ProcJob)
      (k : Id) :
  mapGet k (processingJobs s) = None ->
  mapGet k (processingJobs (monitorJob now poll s job)) = None.
Proof.
  intros Hk. unfold monitorJob.
  destruct (truthy (runpodJobId job)); cbn [negb]; [| exact Hk].
  destruct (poll (idString (runpodJobId job))) as [st |].
  - destruct (String.eqb (rstatus st) "COMPLETED").
    { unfold handleJobCompletion, decrementUserConcurrent.
      split_ifs; simpl; try assumption; by apply mapGet_mapDelete_None. }
    destruct (String.eqb (rstatus st) "FAILED"); [| exact Hk].
    unfold handleJobFailure, decrementUserConcurrent.
    split_ifs; simpl; by apply mapGet_mapDelete_None.
  - match goal with |- context [if ?b then _ else _] => destruct b end; [| exact Hk].
    unfold handleJobTimeout, decrementUserConcurrent.
    split_ifs; simpl; by apply mapGet_mapDelete_None.
Qed.

Lemma monitor_fold_gone (now : Z) (poll : string -> PollOutcome) (l : list ProcJob)
      (s : State) (k : Id) :
  mapGet k (processingJobs s) = None ->
  mapGet k (processingJobs (fold_left (monitorJob now poll) l s)) = None.
Proof.
  revert s. induction l as [| job l IH]; intros s Hk; [exact Hk |].
  simpl. apply IH. by apply monitorJob_gone.
Qed.

Lemma mapGet_In (k : Id) (v : ProcJob) (m : list (Id * ProcJob)) :
  mapGet k m = Some v -> In v (mapValues m).
Proof.
  induction m as [| [k' v'] m IH]; simpl; [discriminate |].
  destruct (keyEqb k k'); [| by right; apply IH].
  intros H. inversion H. by left.
Qed.

Lemma handleJobTimeout_gone (s : State) (now : Z) (sid : Id) :
  mapGet sid (processingJobs (handleJobTimeout s now sid)) = None.
Proof.
  unfold handleJobTimeout, decrementUserConcurrent. split_ifs; simpl; apply mapGet_mapDelete.
Qed.

(** A sweep removes every job of its snapshot whose poll throws after 45
    minutes. *)
Lemma monitor_sweep_removes (now : Z) (poll : string -> PollOutcome) (l : list ProcJob)
      (s : State) (job : ProcJob) :
  In job l ->
  truthy (runpodJobId job) = true ->
  poll (idString (runpodJobId job)) = PollThrows ->
  45 * 60 * 1000 < now - startedAt job ->
  mapGet (separationId (pjob job))
         (processingJobs (fold_left (monitorJob now poll) l s)) = None.
Proof.
  intros Hin Hid Hpoll Hage. revert s.
  induction l as [| j l IH]; intros s; [destruct Hin |].
  simpl. destruct Hin as [-> | Hin]; [| by apply IH].
  apply monitor_fold_gone. rewrite monitorJob_poll_error by assumption.
  destruct (Z.ltb_spec (45 * 60 * 1000) (now - startedAt job)); [| lia].
  apply handleJobTimeout_gone.
Qed.

(** C9: in every state of a run whose clock never goes back, for a job the
    processing set tracks under its id, submitted to the worker, whose status
    poll throws: if more than 45 minutes have passed since [startedAt], the
    monitor writes the status TIMEOUT, removes the job from the processing set
    (it is absent after the whole sweep too) and decrements its user's
    [concurrent] counter by 1, touching no other user and no list; if not, it
    leaves the state as it is. *)
Theorem C9_poll_error_timeout
        (c : Config) (t0 : Z) (trace : list (Z * Event))
        (now : Z) (poll : string -> PollOutcome) (job : ProcJob) :
  chronological t0 trace ->
  let s := run (initialState c) trace in
  let sid := separationId (pjob job) in
  let uid := idString (userId (pjob job)) in
  mapGet sid (processingJobs s) = Some job ->
  truthy (runpodJobId job) = true ->
  poll (idString (runpodJobId job)) = PollThrows ->
  let s' := monitorJob now poll s job in
  (45 * 60 * 1000 < now - startedAt job ->
   statuses (redis s') !! idString sid =
     Some (mkStatus sid "TIMEOUT" now (DTimeout "Job timed out after 45 minutes")
                    (now + 86400 * 1000)) /\
   processingJobs s' = mapDelete sid (processingJobs s) /\
   mapGet sid (processingJobs s') = None /\
   mapGet sid (processingJobs (monitorRunningJobs s now poll)) = None /\
   concurrent (hgetall (redis s') now uid) = concurrent (hgetall (redis s) now uid) - 1 /\
   (forall v : string, v <> uid -> hgetall (redis s') now v = hgetall (redis s) now v) /\
   queueFiles (redis s') = queueFiles (redis s) /\
   queueUrls (redis s') = queueUrls (redis s) /\
   queueRetry (redis s') = queueRetry (redis s)) /\
  (now - startedAt job <= 45 * 60 * 1000 -> s' = s).
Proof.
  intros Hch s sid uid Hget Hid Hpoll s'.
  destruct (Inv_run (RUNPOD_RATE_LIMIT c) trace t0 (initialState c) Hch) as (t & _ & HI).
  { by apply Inv_initial. }
  fold s in HI.
  assert (Hu : truthy (userId (pjob job)) = true).
  { pose proof (mapGet_Forall (fun v => jobOk (pjob v) /\ startedAt v <= t) _ _ _
                              (inv_proc _ _ _ HI) Hget) as [[_ Hu] _].
    exact Hu. }
  subst s'. rewrite monitorJob_poll_error by assumption.
  split.
  - intros Hage.
    destruct (Z.ltb_spec (45 * 60 * 1000) (now - startedAt job)); [| lia].
    pose proof (handleJobTimeout_tracked s now job Hget Hu) as Ht. cbn zeta in Ht.
    destruct Ht as (Hst & Hp & Hc & Ho & Hqf & Hqu & Hqr).
    subst sid uid.
    split; [exact Hst |]. split; [exact Hp |].
    split; [rewrite Hp; apply mapGet_mapDelete |].
    split; [| by repeat split].
    unfold monitorRunningJobs. apply monitor_sweep_removes; try assumption.
    by apply (mapGet_In (separationId (pjob job))).
  - intros Hage.
    destruct (Z.ltb_spec (45 * 60 * 1000) (now - startedAt job)); [lia | reflexivity].
Qed.

(** The job of the busy run, polled 46 minutes after its start by a worker
    that cannot be reached, leaves the processing set. *)
Lemma C9_poll_error_timeout_witness :
  mapGet (Str "sep6")
         (processingJobs (monitorJob (T0 + 46 * 60 * 1000) pollFails
                                     (run (initialState defaultConfig) busyRun) trackedJob))
  = None.
Proof.
  refine (proj1 (proj2 (proj2 (proj1
            (C9_poll_error_timeout defaultConfig T0 busyRun (T0 + 46 * 60 * 1000)
                                   pollFails trackedJob _ _ _ _) _)))).
  - simpl. lia.
  - reflexivity.
  - reflexivity.
  - reflexivity.
  - vm_compute. reflexivity.
Defined.

(** *** Rate limiter *)

(** C6: the limit is exceeded by two ticks that interleave.  The rate check
    of [processQueue] and [recordRunpodRequest] in [startJobProcessing] are
    two [await]s apart.  With a limit of 8 and seven requests in the last
    minute, the ticks of two admissions both pass the check before either
    records its request, and nine calls fall in the 60 seconds that end with
    the second submission. *)
Theorem C6_interleaved_ticks_exceed_limit :
  RUNPOD_RATE_LIMIT (cfg sevenCalls) = 8 /\
  snd (fst bothChecked) = true /\
  snd bothChecked = true /\
  length (window (T0 + 8002) (callTimes bothDispatched)) = 9%nat /\
  length (window (T0 + 8002) (runpodRequestTimes bothDispatched)) = 9%nat.
Proof. vm_compute. repeat split. Qed.

(** * Further properties of the service *)

(** ** Size buckets *)

Lemma timeout_of_estimate (j : JobData) : getTimeoutForJob j = 2500 * estimateProcessingTime j.
Proof.
  unfold getTimeoutForJob, estimateProcessingTime.
  repeat match goal with |- context [if ?b then _ else _] => destruct b end; reflexivity.
Qed.

Lemma estimate_mono (j1 j2 : JobData) :
  sizeOf j1 <= sizeOf j2 -> estimateProcessingTime j1 <= estimateProcessingTime j2.
Proof.
  intros H. unfold estimateProcessingTime.
  repeat match goal with
         | |- context [?a <? ?b] => destruct (Z.ltb_spec a b)
         end; lia.
Qed.

(** X1: the timeout handed to the worker never decreases with the file size,
    is 2500 times the estimated processing time (in seconds) of the same
    bucket, and lies between 5 and 30 minutes; a job without size is in the
    smallest bucket. *)
Theorem X1_timeout_monotone (j1 j2 : JobData) :
  sizeOf j1 <= sizeOf j2 ->
  getTimeoutForJob j1 <= getTimeoutForJob j2 /\
  estimateProcessingTime j1 <= estimateProcessingTime j2 /\
  getTimeoutForJob j1 = 2500 * estimateProcessingTime j1 /\
  300000 <= getTimeoutForJob j1 <= 1800000 /\
  (fileSize j1 = None -> getTimeoutForJob j1 = 300000).
Proof.
  intros H. pose proof (estimate_mono j1 j2 H) as He.
  rewrite !timeout_of_estimate.
  split; [lia |]. split; [exact He |]. split; [reflexivity |].
  split.
  - unfold estimateProcessingTime.
    repeat match goal with |- context [if ?b then _ else _] => destruct b end; lia.
  - intros Hn. unfold estimateProcessingTime, sizeOf. rewrite Hn. reflexivity.
Qed.

(** A file of 10 MiB waits no longer than one of 200 MiB. *)
Lemma X1_timeout_witness :
  getTimeoutForJob (mkJob (Str "a") None None None None (Some (10 * 1024 * 1024))
                          None None 0%nat None None None)
  <= getTimeoutForJob (mkJob (Str "b") None None None None (Some (200 * 1024 * 1024))
                             None None 0%nat None None None).
Proof.
  refine (proj1 (X1_timeout_monotone _ _ _)). vm_compute. discriminate.
Defined.

(** ** Status store *)

(** X2: a status written at [t] is what [getJobStatus] returns for that id
    until 24 hours have passed, and nothing from then on; the status of an id
    with another key is not touched. *)
Theorem X2_status_round_trip (s : State) (t now : Z) (sid : Id)
        (status : string) (d : StatusData) :
  let s' := updateJobStatus s t sid status d in
  (now < t + 86400000 ->
   getJobStatus s' now sid = Some (mkStatus sid status t d (t + 86400000))) /\
  (t + 86400000 <= now -> getJobStatus s' now sid = None) /\
  (forall sid' : Id,
      idString sid' <> idString sid -> getJobStatus s' now sid' = getJobStatus s now sid').
Proof.
  intros s'. subst s'. unfold getJobStatus.
  rewrite lookup_updateJobStatus. cbn [stExpireAt].
  replace (t + 86400 * 1000) with (t + 86400000) by lia.
  split; [| split].
  - intros H. destruct (Z.ltb_spec now (t + 86400000)); [reflexivity | lia].
  - intros H. destruct (Z.ltb_spec now (t + 86400000)); [lia | reflexivity].
  - intros sid' Hne. rewrite updateJobStatus_other by exact Hne. reflexivity.
Qed.

(** ** Failure counting *)

(** X3: an error that is no service error (no 5xx response, no ECONNRESET or
    ETIMEDOUT code) leaves the state alone.  A service error counts one more
    than the failures still counted, restarts the 60 seconds of the counter,
    and from the fifth on opens the breaker, counts a trip and sets a timer
    five minutes ahead; below five it changes neither breaker, timers nor
    metrics. *)
Theorem X3_failure_counting (s : State) (now : Z) (e : JsError) :
  let s' := handleRunpodError s now e in
  (isServiceError e = false -> s' = s) /\
  (isServiceError e = true ->
   runpod_failures (redis s') = Some (liveFailures (redis s) now + 1, Some (now + 60000)) /\
   (5 <= liveFailures (redis s) now + 1 ->
    circuitBreakerState s' = OPEN /\
    circuitBreakerTrips (metrics s') = circuitBreakerTrips (metrics s) + 1 /\
    halfOpenTimers s' = halfOpenTimers s ++ [now + 300000]) /\
   (liveFailures (redis s) now + 1 < 5 ->
    circuitBreakerState s' = circuitBreakerState s /\
    metrics s' = metrics s /\
    halfOpenTimers s' = halfOpenTimers s)).
Proof.
  intros s'. subst s'. unfold handleRunpodError. split.
  - intros ->. reflexivity.
  - intros ->. unfold incrFailures, expireFailures, liveFailures.
    destruct (runpod_failures (redis s)) as [[n x] |] eqn:Hf.
    + destruct (keyLive now x) eqn:Hl; cbn [fst snd withFailures runpod_failures];
        rewrite ?Hl; cbn [keyLive withFailures runpod_failures].
      * destruct (Z.leb_spec 5 (n + 1)); simpl; rewrite ?Hl; simpl;
          (split; [reflexivity |]); split; intros; try lia; by repeat split.
      * destruct (Z.leb_spec 5 1); [lia |]. simpl.
        split; [reflexivity |]. split; intros; try lia. by repeat split.
    + cbn [fst snd withFailures runpod_failures keyLive].
      destruct (Z.leb_spec 5 1); [lia |]. simpl.
      split; [reflexivity |]. split; intros; try lia. by repeat split.
Qed.

(** ** The retry list *)

Lemma addJob_retry_frame (s : State) (now : Z) (jobData : option JobData) :
  queueRetry (redis (fst (addJob s now jobData))) = queueRetry (redis s) /\
  processingJobs (fst (addJob s now jobData)) = processingJobs s /\
  runpodCalls (fst (addJob s now jobData)) = runpodCalls s.
Proof.
  destruct jobData as [jd |]; [| by repeat split].
  unfold addJob.
  destruct (truthy (separationId jd)); cbn [negb]; [| by repeat split].
  pose proof (checkUserLimits_frame s now (idString (orElse (userId jd) (Some "unknown"))))
    as Hfr.
  destruct (checkUserLimits s now (idString (orElse (userId jd) (Some "unknown"))))
    as [s1 ok].
  cbn [fst] in Hfr. destruct Hfr as (_ & _ & _ & Hqr & _ & _ & Hpj & _ & _ & _ & _ & Hca).
  destruct ok; cbn [negb]; [| by repeat split].
  destruct (Breaker_eqb (circuitBreakerState s1) OPEN); [by repeat split |].
  destruct (MAX_QUEUE_SIZE (cfg s1) <=? getTotalQueueSize s1); [by repeat split |].
  cbn [fst]. unfold updateJobStatus, updateUserLimits.
  cbn [redis withRedis withStatuses queueRetry processingJobs runpodCalls].
  match goal with |- context [expireUser ?r ?t ?u ?n] =>
    destruct (expireUser_queues r t u n) as (_ & _ & ->) end.
  destruct (isFileUpload jd); simpl; by repeat split.
Qed.

Lemma rpop_snoc (l : list JobData) (x : JobData) : rpop (l ++ [x]) = Some (x, l).
Proof. unfold rpop. rewrite rev_app_distr. simpl. by rewrite rev_involutive. Qed.

(** X4: the retry timer looks at the oldest entry only.  An entry that is not
    due goes back to the other end of the list, so the list is rotated and
    nothing else changes.  A due entry leaves the retry list for good: it is
    handed to [addJob] without its retry fields, and whatever [addJob]
    answers, the retry list is what was behind the entry. *)
Theorem X4_retry_timer (s : State) (now : Z) (job : JobData) (rest : list JobData) :
  queueRetry (redis s) = rest ++ [job] ->
  (isDue job now = false ->
   processRetryQueue s now
   = (withRedis (withQueueRetry (job :: rest) (redis s)) s, None)) /\
  (isDue job now = true ->
   fst (processRetryQueue s now)
   = fst (addJob (withRedis (withQueueRetry rest (redis s)) s) now (Some (clearedJob job))) /\
   queueRetry (redis (fst (processRetryQueue s now))) = rest /\
   processingJobs (fst (processRetryQueue s now)) = processingJobs s).
Proof.
  intros Hq. unfold processRetryQueue. rewrite Hq, rpop_snoc.
  fold (isDue job now). fold (clearedJob job).
  split; intros ->.
  - reflexivity.
  - destruct (addJob_retry_frame (withRedis (withQueueRetry rest (redis s)) s) now
                                 (Some (clearedJob job))) as (Hr & Hp & _).
    destruct (addJob (withRedis (withQueueRetry rest (redis s)) s) now
                     (Some (clearedJob job))) as [s2 res].
    cbn [fst] in *. by repeat split.
Qed.

(** The retry list of the first failure, looked at before and after the
    entry is due. *)
Lemma X4_retry_timer_witness :
  queueRetry (redis (fst (processRetryQueue firstFailure (T0 + 30000))))
  = queueRetry (redis firstFailure) /\
  queueRetry (redis (fst (processRetryQueue firstFailure (T0 + 120000)))) = [].
Proof.
  assert (Hq : queueRetry (redis firstFailure)
               = [] ++ [retriedJob T0 (mkJob (Str "sep6") (Some "u1") (Some "url")
                                            (Some "https://host/f.mp3") None None
                                            (Some NORMAL) (Some T0) 0%nat (Some 120)
                                            None None)
                                   "connect ETIMEDOUT"])
    by (vm_compute; reflexivity).
  split.
  - rewrite (proj1 (X4_retry_timer firstFailure (T0 + 30000) _ _ Hq)).
    + vm_compute. reflexivity.
    + vm_compute. reflexivity.
  - apply (proj2 (X4_retry_timer firstFailure (T0 + 120000) _ _ Hq)).
    vm_compute. reflexivity.
Defined.

(** ** Order of dispatch *)

Lemma rpop_cons (x oldest : JobData) (l rest : list JobData) :
  rpop l = Some (oldest, rest) -> rpop (x :: l) = Some (oldest, x :: rest).
Proof.
  intros H. apply rpop_Some in H. subst l.
  change (x :: rest ++ [oldest]) with ((x :: rest) ++ [oldest]). apply rpop_snoc.
Qed.

(** X5: the lists are first in, first out.  Whatever is submitted, the job a
    tick of a class would pop next stays the next one, and an admitted job
    goes behind every job of its list; on an empty list the admitted job is
    the next one. *)
Theorem X5_first_in_first_out (s : State) (now : Z) (jobData : option JobData)
        (p : Priority) (oldest : JobData) (rest : list JobData) :
  rpop (queueOf p (redis s)) = Some (oldest, rest) ->
  let s' := fst (addJob s now jobData) in
  rpop (queueOf p (redis s')) = Some (oldest, rest) \/
  exists j, queueOf p (redis s') = j :: queueOf p (redis s) /\
            rpop (queueOf p (redis s')) = Some (oldest, j :: rest).
Proof.
  intros Hpop s'. subst s'.
  destruct (addJob_enqueues_zero s now jobData p) as [Hsame | (j & Hj & _)].
  - left. rewrite Hsame. exact Hpop.
  - right. exists j. split; [exact Hj |]. rewrite Hj. by apply rpop_cons.
Qed.

(** An upload submitted while the fourth upload waits goes behind it. *)
Lemma X5_first_in_first_out_witness :
  exists j,
    rpop (queueOf HIGH (redis (fst (addJob fourthWaits (T0 + 4000) (Some (upload "7"))))))
    = Some (fourthUpload, [j]).
Proof.
  assert (Hpop : rpop (queueOf HIGH (redis fourthWaits)) = Some (fourthUpload, []))
    by (vm_compute; reflexivity).
  destruct (X5_first_in_first_out fourthWaits (T0 + 4000) (Some (upload "7")) HIGH _ _ Hpop)
    as [H | (j & _ & H)].
  - exfalso. revert H. vm_compute. discriminate.
  - exists j. exact H.
Defined.

(** X6: a tick is single-flight.  It takes at most one job, from the list of
    its own class only, and calls the worker at most once; the list of the
    other class is as it was. *)
Theorem X6_single_flight (s : State) (now : Z) (p : Priority) (o : SubmitOutcome) :
  let s' := processQueue s now p o in
  let other := match p with HIGH => NORMAL | NORMAL => HIGH end in
  queueOf other (redis s') = queueOf other (redis s) /\
  ((queueOf p (redis s') = queueOf p (redis s) /\ runpodCalls s' = runpodCalls s) \/
   (exists job, queueOf p (redis s) = queueOf p (redis s') ++ [job] /\
                runpodCalls s' = runpodCalls s ++ [callFor now job] /\
                canProcessMoreJobs s p = true)).
Proof.
  intros s' other. subst s'.
  destruct (processQueue_cases s now p o) as [(Hc & Hf & Hu & _) | (job & rest & H)].
  - split; [destruct p; assumption |]. left. split; [destruct p; assumption | exact Hc].
  - destruct H as (Hcan & _ & Hpop & Hq & Hc & _). apply rpop_Some in Hpop.
    split.
    + subst other. unfold processQueue, processQueueCheck, canMakeRunpodRequest in *.
      rewrite Hcan in *. cbn [negb] in *.
      match goal with |- context [if negb ?b then _ else _] => destruct b end;
        cbn [negb]; [| by destruct p].
      unfold processQueueDispatch. cbn [redis withRequestTimes].
      destruct (rpop (queueOf p (redis s))) as [[j r] |]; [| by destruct p].
      match goal with |- context [startJobProcessing ?s0 _ _ _] =>
        pose proof (startJobProcessing_frame s0 now j o) as Hf end.
      cbn zeta in Hf. destruct Hf as (_ & Hqf & Hqu & _).
      destruct p; cbn [queueOf]; [rewrite Hqu | rewrite Hqf]; reflexivity.
    + right. exists job. rewrite Hq. by repeat split.
Qed.

(** ** Cleanup *)

Lemma handleJobTimeout_processing (s : State) (now : Z) (k : Id) :
  processingJobs (handleJobTimeout s now k) = mapDelete k (processingJobs s).
Proof. unfold handleJobTimeout, decrementUserConcurrent. split_ifs; reflexivity. Qed.

Lemma handleJobTimeout_lists (s : State) (now : Z) (k : Id) :
  queueFiles (redis (handleJobTimeout s now k)) = queueFiles (redis s) /\
  queueUrls (redis (handleJobTimeout s now k)) = queueUrls (redis s) /\
  queueRetry (redis (handleJobTimeout s now k)) = queueRetry (redis s) /\
  runpodCalls (handleJobTimeout s now k) = runpodCalls s.
Proof. unfold handleJobTimeout, decrementUserConcurrent. split_ifs; by repeat split. Qed.

Lemma handleJobTimeout_status (s : State) (now : Z) (k k' : Id) :
  statusOf s k = Some "TIMEOUT" \/ idString k = idString k' ->
  statusOf (handleJobTimeout s now k') k = Some "TIMEOUT".
Proof.
  intros H.
  assert (Hst : statuses (redis (handleJobTimeout s now k'))
                = <[idString k' := mkStatus k' "TIMEOUT" now
                                            (DTimeout "Job timed out after 45 minutes")
                                            (now + 86400 * 1000)]> (statuses (redis s))).
  { unfold handleJobTimeout, decrementUserConcurrent. split_ifs; reflexivity. }
  unfold statusOf in *. rewrite Hst.
  destruct (decide (idString k' = idString k)) as [Heq | Hne].
  - rewrite Heq, lookup_insert_eq. reflexivity.
  - rewrite lookup_insert_ne by exact Hne. destruct H as [H | H]; [exact H | congruence].
Qed.

Lemma cleanup_fold_processing (now : Z) (keys : list Id) (s : State) :
  processingJobs (fold_left (fun st k => handleJobTimeout st now k) keys s)
  = fold_left (fun m k => mapDelete k m) keys (processingJobs s).
Proof.
  revert s. induction keys as [| k keys IH]; intros s; [reflexivity |].
  simpl. rewrite IH, handleJobTimeout_processing. reflexivity.
Qed.

Lemma cleanup_fold_lists (now : Z) (keys : list Id) (s : State) :
  let s' := fold_left (fun st k => handleJobTimeout st now k) keys s in
  queueFiles (redis s') = queueFiles (redis s) /\
  queueUrls (redis s') = queueUrls (redis s) /\
  queueRetry (redis s') = queueRetry (redis s) /\
  runpodCalls s' = runpodCalls s.
Proof.
  revert s. induction keys as [| k keys IH]; intros s; [by repeat split |].
  simpl. destruct (IH (handleJobTimeout s now k)) as (-> & -> & -> & ->).
  apply handleJobTimeout_lists.
Qed.

Lemma cleanup_fold_status (now : Z) (keys : list Id) (s : State)
      (k : Id) :
  statusOf s k = Some "TIMEOUT" \/ In k keys ->
  statusOf (fold_left (fun st k' => handleJobTimeout st now k') keys s) k = Some "TIMEOUT".
Proof.
  revert s. induction keys as [| k0 keys IH]; intros s H.
  - destruct H as [H | []]. exact H.
  - simpl. apply IH. destruct H as [H | [-> | H]].
    + left. apply handleJobTimeout_status. by left.
    + left. apply handleJobTimeout_status. by right.
    + by right.
Qed.

Lemma In_mapDelete (kv : Id * ProcJob) (k : Id)
      (m : list (Id * ProcJob)) :
  In kv (mapDelete k m) <-> In kv m /\ fst kv <> k.
Proof.
  unfold mapDelete. rewrite filter_In. unfold keyEqb.
  split; intros [Hin Hk]; (split; [exact Hin |]).
  - intros Heq. rewrite bool_decide_eq_true_2 in Hk by congruence. discriminate.
  - rewrite bool_decide_eq_false_2 by congruence. reflexivity.
Qed.

Lemma In_fold_mapDelete (kv : Id * ProcJob) (keys : list Id)
      (m : list (Id * ProcJob)) :
  In kv (fold_left (fun m k => mapDelete k m) keys m) <-> In kv m /\ ~ In (fst kv) keys.
Proof.
  revert m. induction keys as [| k keys IH]; intros m; simpl.
  - tauto.
  - rewrite IH, In_mapDelete. intuition congruence.
Qed.

Lemma staleJobs_In (s : State) (now : Z) (kv : Id * ProcJob) :
  In kv (processingJobs s) -> 60 * 60 * 1000 < now - startedAt (snd kv) ->
  In (fst kv) (staleJobs s now).
Proof.
  intros Hin Hage. unfold staleJobs. apply in_map. apply filter_In.
  split; [exact Hin |]. apply Z.ltb_lt. exact Hage.
Qed.

(** X7: after a cleanup no tracked job is older than one hour, whether it was
    ever submitted to the worker or not: an entry stays exactly when no entry
    under its key was older.  Every entry that was older has the status
    TIMEOUT and is tracked no more; the lists and the calls made are as they
    were. *)
Theorem X7_cleanup_removes_stale (s : State) (now : Z) :
  let s' := performCleanup s now in
  Forall (fun kv => now - startedAt (snd kv) <= 3600000) (processingJobs s') /\
  (forall kv, In kv (processingJobs s') <->
              In kv (processingJobs s) /\ ~ In (fst kv) (staleJobs s now)) /\
  (forall kv, In kv (processingJobs s) -> 3600000 < now - startedAt (snd kv) ->
              statusOf s' (fst kv) = Some "TIMEOUT" /\
              mapGet (fst kv) (processingJobs s') = None) /\
  queueFiles (redis s') = queueFiles (redis s) /\
  queueUrls (redis s') = queueUrls (redis s) /\
  queueRetry (redis s') = queueRetry (redis s) /\
  runpodCalls s' = runpodCalls s.
Proof.
  intros s'. subst s'. unfold performCleanup.
  assert (Hin : forall kv,
             In kv (processingJobs
                      (fold_left (fun st jobId => handleJobTimeout st now jobId)
                                 (staleJobs s now) s)) <->
             In kv (processingJobs s) /\ ~ In (fst kv) (staleJobs s now)).
  { intros kv. rewrite cleanup_fold_processing. apply In_fold_mapDelete. }
  split; [| split; [exact Hin | split]].
  - apply List.Forall_forall. intros kv Hkv. apply Hin in Hkv. destruct Hkv as [Hkv Hno].
    destruct (Z.le_gt_cases (now - startedAt (snd kv)) 3600000) as [Hle | Hgt];
      [exact Hle |].
    exfalso. apply Hno. apply staleJobs_In; [exact Hkv | lia].
  - intros kv Hkv Hage.
    assert (Hst : In (fst kv) (staleJobs s now)) by (apply staleJobs_In; [exact Hkv | lia]).
    split.
    + apply cleanup_fold_status. by right.
    + destruct (mapGet (fst kv) _) as [v |] eqn:Hget; [| reflexivity].
      exfalso.
      assert (Hv : exists kv', In kv' (processingJobs
                      (fold_left (fun st jobId => handleJobTimeout st now jobId)
                                 (staleJobs s now) s)) /\ fst kv' = fst kv).
      { revert Hget. generalize (processingJobs
                      (fold_left (fun st jobId => handleJobTimeout st now jobId)
                                 (staleJobs s now) s)).
        intros m. induction m as [| [k0 v0] m IH]; simpl; [discriminate |].
        unfold keyEqb. destruct (bool_decide (fst kv = k0)) eqn:E.
        - intros _. exists (k0, v0). split; [by left |].
          apply bool_decide_eq_true_1 in E. simpl. congruence.
        - intros H. destruct (IH H) as (kv' & ? & ?). exists kv'. split; [by right | done]. }
      destruct Hv as (kv' & Hkv' & Heq). apply Hin in Hkv'. destruct Hkv' as [_ Hno].
      apply Hno. rewrite Heq. exact Hst.
  - apply (cleanup_fold_lists now (staleJobs s now) s).
Qed.

(** ** The end of a tracked job *)




Lemma handleJobFailure_gone (s : State) (now : Z) (sid : Id) (r : RunpodStatus) :
  mapGet sid (processingJobs (handleJobFailure s now sid r)) = None.
Proof.
  unfold handleJobFailure, decrementUserConcurrent. split_ifs; simpl; apply mapGet_mapDelete.
Qed.

Lemma handleJobCompletion_gone (s : State) (now : Z) (sid : Id)
      (r : RunpodStatus) :
  mapGet sid (processingJobs (handleJobCompletion s now sid r)) = None.
Proof.
  unfold handleJobCompletion, decrementUserConcurrent.
  destruct (mapGet sid (processingJobs s)) eqn:E; [| exact E].
  split_ifs; simpl; apply mapGet_mapDelete.
Qed.



(** ** A successful admission *)

Lemma hgetall_updateUserLimits (s : State) (now : Z) (uid : string) :
  let u := hgetall (redis s) now uid in
  hgetall (redis (updateUserLimits s now uid)) now uid
  = mkUser (concurrent u + 1) (hourly u + 1) (lastHourReset u) (Some (now + 7200 * 1000)).
Proof.
  intros u. subst u. unfold updateUserLimits. cbn [redis withRedis].
  set (r1 := hincrbyConcurrent (redis s) now uid 1).
  assert (H1 : hgetall r1 now uid
               = mkUser (concurrent (hgetall (redis s) now uid) + 1)
                        (hourly (hgetall (redis s) now uid))
                        (lastHourReset (hgetall (redis s) now uid))
                        (uExpireAt (hgetall (redis s) now uid)))
    by apply hgetall_hincrbyConcurrent.
  set (r2 := hincrbyHourly r1 now uid 1).
  assert (H2 : users r2 !! uid
               = Some (mkUser (concurrent (hgetall (redis s) now uid) + 1)
                              (hourly (hgetall (redis s) now uid) + 1)
                              (lastHourReset (hgetall (redis s) now uid))
                              (uExpireAt (hgetall (redis s) now uid)))).
  { subst r2. unfold hincrbyHourly, hsetUser. cbn [users withUsers].
    rewrite lookup_insert_eq, H1. reflexivity. }
  unfold expireUser. rewrite H2. cbn [uExpireAt concurrent hourly lastHourReset].
  rewrite hgetall_live. apply hgetall_hsetUser. simpl.
  apply Z.ltb_lt. lia.
Qed.

Lemma hgetall_updateUserLimits_other (s : State) (now : Z) (uid v : string) :
  v <> uid -> hgetall (redis (updateUserLimits s now uid)) now v = hgetall (redis s) now v.
Proof.
  intros Hne. unfold updateUserLimits. cbn [redis withRedis].
  assert (H : forall r, users (expireUser r now uid 7200) !! v = users r !! v).
  { intros r. unfold expireUser. destruct (users r !! uid) as [u |]; [| reflexivity].
    destruct (keyLive now (uExpireAt u)); [| reflexivity].
    unfold hsetUser. cbn [users withUsers]. by rewrite lookup_insert_ne. }
  unfold hgetall at 1. rewrite H.
  unfold hincrbyHourly, hsetUser. cbn [users withUsers]. rewrite lookup_insert_ne by done.
  unfold hincrbyConcurrent, hsetUser. cbn [users withUsers]. rewrite lookup_insert_ne by done.
  reflexivity.
Qed.

Lemma updateUserLimits_lists (s : State) (now : Z) (uid : string) :
  queueFiles (redis (updateUserLimits s now uid)) = queueFiles (redis s) /\
  queueUrls (redis (updateUserLimits s now uid)) = queueUrls (redis s) /\
  queueRetry (redis (updateUserLimits s now uid)) = queueRetry (redis s) /\
  processingJobs (updateUserLimits s now uid) = processingJobs s.
Proof.
  unfold updateUserLimits. cbn [redis withRedis processingJobs].
  destruct (expireUser_queues (hincrbyHourly (hincrbyConcurrent (redis s) now uid 1) now uid 1)
                              now uid 7200) as (-> & -> & ->).
  by repeat split.
Qed.

(** [addJob] on a submission object, check by check. *)
Lemma addJob_admits (s : State) (now : Z) (jd : JobData) :
  admissible s now jd ->
  addJob s now (Some jd)
  = (let s1 := fst (checkUserLimits s now (userOf jd)) in
     let p := classOf jd in
     let s2 := withRedis (withQueue p (lpush (admittedJob now jd) (queueOf p (redis s1)))
                                    (redis s1)) s1 in
     let s3 := updateUserLimits s2 now (userOf jd) in
     let queuePosition := llen (queueOf p (redis s3)) in
     (updateJobStatus s3 now (separationId jd) "QUEUED"
        (DQueued p queuePosition
                 (jsonCeil (numDiv (calculateEstimatedWait s3 queuePosition p) (numOfZ 60)))
                 (userOf jd)),
      mkAddResult (Some true)
                  (if mapSize (processingJobs s) <? MAX_CONCURRENT_JOBS (cfg s)
                   then Some p else None))).
Proof.
  intros (Hid & Hlim & Hbr & Hcap). unfold addJob. rewrite Hid. cbn [negb].
  fold (userOf jd).
  pose proof (checkUserLimits_refuses s now (userOf jd)) as Href.
  pose proof (checkUserLimits_frame s now (userOf jd)) as Hfr.
  destruct (checkUserLimits s now (userOf jd)) as [s1 ok]. cbn [fst snd] in *.
  destruct ok; [| exfalso; apply Hlim, Href; reflexivity]. cbn [negb].
  destruct Hfr as (Hcfg & Hqf & Hqu & Hqr & _ & _ & Hpj & _ & Hcb & _).
  rewrite Hcb. destruct (circuitBreakerState s); try congruence; cbn [Breaker_eqb].
  all: assert (Htot : getTotalQueueSize s1 = getTotalQueueSize s)
         by (unfold getTotalQueueSize; rewrite Hqf, Hqu, Hqr; reflexivity).
  all: rewrite Htot, Hcfg.
  all: destruct (Z.leb_spec (MAX_QUEUE_SIZE (cfg s)) (getTotalQueueSize s)); [lia |].
  all: fold (classOf jd); fold (admittedJob now jd).
  all: f_equal; f_equal. 
  all: unfold updateJobStatus, updateUserLimits; cbn [processingJobs cfg withRedis];
       destruct (classOf jd); cbn [withQueue processingJobs cfg withRedis];
       rewrite Hpj, Hcfg; reflexivity.
Qed.

(** X10: [addJob] returns true for a submission object exactly when the four
    checks pass: it carries a [separationId], its user is within the limits,
    the breaker is not OPEN and the three lists together hold fewer than
    [MAX_QUEUE_SIZE] jobs; otherwise it returns false. *)
Theorem X10_admission_iff (s : State) (now : Z) (jobData : JobData) :
  (returned (snd (addJob s now (Some jobData))) = Some true <-> admissible s now jobData) /\
  (returned (snd (addJob s now (Some jobData))) = Some true \/
   returned (snd (addJob s now (Some jobData))) = Some false).
Proof.
  assert (Hdec : admissible s now jobData \/
                 returned (snd (addJob s now (Some jobData))) = Some false).
  { unfold admissible, addJob.
    destruct (truthy (separationId jobData)); cbn [negb]; [| by right].
    fold (userOf jobData).
    pose proof (checkUserLimits_refuses s now (userOf jobData)) as Href.
    pose proof (checkUserLimits_frame s now (userOf jobData)) as Hfr.
    destruct (checkUserLimits s now (userOf jobData)) as [s1 ok]. cbn [fst snd] in *.
    destruct ok; cbn [negb]; [| by right].
    destruct Hfr as (Hcfg & Hqf & Hqu & Hqr & _ & _ & _ & _ & Hcb & _).
    rewrite Hcb. destruct (circuitBreakerState s) eqn:Eb; cbn [Breaker_eqb]; [| by right |].
    all: assert (Htot : getTotalQueueSize s1 = getTotalQueueSize s)
           by (unfold getTotalQueueSize; rewrite Hqf, Hqu, Hqr; reflexivity).
    all: rewrite Htot, Hcfg.
    all: destruct (Z.leb_spec (MAX_QUEUE_SIZE (cfg s)) (getTotalQueueSize s)); [by right |].
    all: left; repeat split; try done.
    all: intros Ho; apply Href in Ho; discriminate. }
  split.
  - split.
    + intros Ht. destruct Hdec as [Ha | Hf]; [exact Ha | congruence].
    + intros Ha. rewrite (addJob_admits s now jobData Ha). reflexivity.
  - destruct Hdec as [Ha | Hf]; [left | by right].
    rewrite (addJob_admits s now jobData Ha). reflexivity.
Qed.

(** X11: an admission puts the job, with its class, the instant, a retry
    count of 0 and its user, behind the jobs of the list of its class (uploads
    of kind 'file' or 'local' HIGH, all others NORMAL), and touches no other
    list and no tracked job.  It raises the user's [concurrent] by 1, counts
    the admission in the hourly window (the first of a new window when the old
    one is more than an hour old), renews the expiry of the user's hash to two
    hours and touches no other user.  The status is QUEUED, at the position
    that is the new length of the list; a tick is triggered exactly when fewer
    than [MAX_CONCURRENT_JOBS] jobs are tracked. *)
Theorem X11_admission_effects (s : State) (now : Z) (jobData : JobData) :
  admissible s now jobData ->
  let p := classOf jobData in
  let other := match p with HIGH => NORMAL | NORMAL => HIGH end in
  let uid := userOf jobData in
  let u := hgetall (redis s) now uid in
  let stale := lastHourReset u <? now - 3600000 in
  let s' := fst (addJob s now (Some jobData)) in
  queueOf p (redis s') = admittedJob now jobData :: queueOf p (redis s) /\
  queueOf other (redis s') = queueOf other (redis s) /\
  queueRetry (redis s') = queueRetry (redis s) /\
  processingJobs s' = processingJobs s /\
  hgetall (redis s') now uid
  = mkUser (concurrent u + 1) ((if stale then 0 else hourly u) + 1)
           (if stale then now else lastHourReset u) (Some (now + 7200 * 1000)) /\
  (forall v : string, v <> uid -> hgetall (redis s') now v = hgetall (redis s) now v) /\
  (exists minutes : option Z,
      statuses (redis s') !! idString (separationId jobData)
      = Some (mkStatus (separationId jobData) "QUEUED" now
                (DQueued p (llen (queueOf p (redis s)) + 1) minutes uid)
                (now + 86400 * 1000))) /\
  immediate (snd (addJob s now (Some jobData)))
  = (if mapSize (processingJobs s) <? MAX_CONCURRENT_JOBS (cfg s) then Some p else None).
Proof.
  intros Ha p other uid u stale s'. subst s' other p.
  rewrite (addJob_admits s now jobData Ha). cbn zeta. cbn [fst snd immediate].
  fold uid.
  destruct Ha as (Hid & Hlim & Hbr & Hcap).
  pose proof (checkUserLimits_frame s now uid) as Hfr. cbn zeta in Hfr.
  destruct Hfr as (Hcfg & Hqf & Hqu & Hqr & _ & _ & Hpj & _).
  pose proof (checkUserLimits_users s now uid) as Hothers. cbn zeta in Hothers.
  assert (Hu1 : hgetall (redis (fst (checkUserLimits s now uid))) now uid
                = mkUser (concurrent u) (if stale then 0 else hourly u)
                         (if stale then now else lastHourReset u) (uExpireAt u)).
  { subst stale. unfold checkUserLimits. fold u.
    assert (Hc : concurrent u < 2).
    { destruct (Z.le_gt_cases 2 (concurrent u)); [| lia]. exfalso. apply Hlim. by left. }
    destruct (Z.leb_spec 2 (concurrent u)); [lia |].
    destruct (lastHourReset u <? now - 3600000) eqn:Est.
    - cbn [fst redis withRedis]. apply hgetall_hsetUser. subst u. apply hgetall_live.
    - destruct (5 <=? hourly u); cbn [fst]; subst u;
        by destruct (hgetall (redis s) now uid). }
  set (s1 := fst (checkUserLimits s now uid)) in *.
  destruct (classOf jobData) eqn:Ec.
  all: match goal with |- context [updateUserLimits ?s0 _ _] => set (s2 := s0) end.
  all: destruct (updateUserLimits_lists s2 now uid) as (Hef & Heu & Her & Hep).
  all: assert (H2 : forall v, hgetall (redis s2) now v = hgetall (redis s1) now v)
         by (intros v; reflexivity).
  all: cbn [queueOf].
  all: split; [cbn [redis updateJobStatus withRedis withStatuses queueFiles queueUrls];
               rewrite ?Hef, ?Heu; subst s2; cbn [redis withRedis withQueue withQueueFiles
                 withQueueUrls queueFiles queueUrls queueOf]; unfold lpush; congruence |].
  all: split; [cbn [redis updateJobStatus withRedis withStatuses queueFiles queueUrls];
               rewrite ?Hef, ?Heu; subst s2; cbn [redis withRedis withQueue withQueueFiles
                 withQueueUrls queueFiles queueUrls queueOf]; unfold lpush; congruence |].
  all: split; [cbn [redis updateJobStatus withRedis withStatuses queueRetry];
               rewrite Her; subst s2; cbn [redis withRedis withQueue withQueueFiles
                 withQueueUrls queueRetry]; congruence |].
  all: split; [cbn [updateJobStatus withRedis processingJobs]; rewrite Hep; subst s2;
               cbn [withRedis processingJobs]; congruence |].
  all: split; [unfold hgetall at 1;
               cbn [redis updateJobStatus withRedis withStatuses users];
               fold (hgetall (redis (updateUserLimits s2 now uid)) now uid);
               rewrite hgetall_updateUserLimits, H2, Hu1; reflexivity |].
  all: split; [intros v Hv; unfold hgetall at 1;
               cbn [redis updateJobStatus withRedis withStatuses users];
               fold (hgetall (redis (updateUserLimits s2 now uid)) now v);
               rewrite hgetall_updateUserLimits_other by exact Hv;
               rewrite H2; destruct (Hothers v) as [H | [H _]]; [exact H | contradiction] |].
  all: split; [| reflexivity].
  all: eexists; rewrite lookup_updateJobStatus; cbn [queueOf]; rewrite ?Hef, ?Heu.
  all: subst s2; cbn [redis withRedis withQueue withQueueFiles withQueueUrls queueFiles
         queueUrls queueOf]; unfold lpush; rewrite ?Hqf, ?Hqu.
  all: unfold llen; cbn [length]; rewrite Nat2Z.inj_succ;
       rewrite <- Z.add_1_r; reflexivity.
Qed.

(** The first upload on the empty store. *)
Lemma X11_admission_effects_witness :
  queueOf HIGH (redis (fst (addJob (initialState defaultConfig) T0 (Some (upload "1")))))
  = [admittedJob T0 (upload "1")].
Proof.
  refine (proj1 (X11_admission_effects (initialState defaultConfig) T0 (upload "1") _)).
  repeat split.
  - vm_compute. intros [H | [_ H]]; apply H; reflexivity.
  - discriminate.
Defined.

(** ** Health and statistics *)

(** X12: a healthy service admits: when the health check reports healthy, a
    submission that carries a [separationId] and whose user is within the
    limits is admitted.  Healthy means that Redis answers the ping, the
    breaker is CLOSED and the lists hold fewer than [MAX_QUEUE_SIZE] jobs, so
    a service whose breaker is HALF_OPEN is reported unhealthy although it
    admits. *)
Theorem X12_healthy_admits (s : State) (now : Z) (ping : bool) (jobData : JobData) :
  healthy (healthCheck s now ping) = true ->
  truthy (separationId jobData) = true ->
  ~ overLimit (hgetall (redis s) now (userOf jobData)) now ->
  (ping = true /\ circuitBreakerState s = CLOSED /\
   getTotalQueueSize s < MAX_QUEUE_SIZE (cfg s)) /\
  returned (snd (addJob s now (Some jobData))) = Some true /\
  (forall s2 : State,
      circuitBreakerState s2 = HALF_OPEN -> healthy (healthCheck s2 now ping) = false).
Proof.
  intros Hh Hid Hlim. unfold healthCheck in Hh. cbn [healthy checkRedis checkRunpod
    checkQueueSize] in Hh.
  apply andb_prop in Hh. destruct Hh as [Hh Hq]. apply andb_prop in Hh.
  destruct Hh as [Hp Hb]. apply Z.ltb_lt in Hq.
  assert (Hc : circuitBreakerState s = CLOSED)
    by (destruct (circuitBreakerState s); simpl in Hb; congruence).
  split; [by repeat split |]. split.
  - rewrite (addJob_admits s now jobData); [reflexivity |].
    repeat split; try assumption. rewrite Hc. discriminate.
  - intros s2 H2. unfold healthCheck. cbn [healthy checkRedis checkRunpod checkQueueSize].
    rewrite H2. cbn [Breaker_eqb]. by rewrite andb_false_r.
Qed.

(** The empty service is healthy and admits the first upload. *)
Lemma X12_healthy_admits_witness :
  returned (snd (addJob (initialState defaultConfig) T0 (Some (upload "1")))) = Some true.
Proof.
  refine (proj1 (proj2 (X12_healthy_admits (initialState defaultConfig) T0 true (upload "1")
                                           eq_refl eq_refl _))).
  vm_compute. intros [H | [_ H]]; apply H; reflexivity.
Defined.

(** The run invariant, at the instant of the last event. *)
Lemma Inv_run_end (limit : Z) (trace : list (Z * Event)) (t0 : Z) (s : State) :
  chronological t0 trace -> Inv limit t0 s ->
  t0 <= endOf t0 trace /\ Inv limit (endOf t0 trace) (run s trace).
Proof.
  revert t0 s. induction trace as [| [t e] trace IH]; intros t0 s Hch HI.
  - split; [simpl; lia | exact HI].
  - destruct Hch as [Hle Hch]. simpl.
    destruct (IH t (step s t e) Hch) as (Hle' & HI').
    + apply Inv_step. by apply (Inv_mono limit t0).
    + unfold endOf in *. simpl. split; [lia | exact HI'].
Qed.

(** X13: the statistics are read off the state: the waiting total is the sum
    of the three lists, which is the depth the admission compares with the
    ceiling.  In every run whose clock never goes back, the count of requests
    of the last minute is never below the number of calls made to the worker
    in the 60 seconds before any instant from the last event on (it counts
    older requests until they are pruned). *)
Theorem X13_statistics (c : Config) (t0 : Z) (trace : list (Z * Event)) (now : Z) :
  chronological t0 trace ->
  endOf t0 trace <= now ->
  let s := run (initialState c) trace in
  totalWaiting (getQueueStatistics s)
  = highPriorityWaiting (getQueueStatistics s) + normalPriorityWaiting (getQueueStatistics s)
    + retryWaiting (getQueueStatistics s) /\
  totalWaiting (getQueueStatistics s) = getTotalQueueSize s /\
  currentlyProcessing (getQueueStatistics s) = mapSize (processingJobs s) /\
  Z.of_nat (length (window now (callTimes s)))
  <= runpodRequestsLastMinute (getQueueStatistics s).
Proof.
  intros Hch Hnow s. split; [reflexivity |]. split; [reflexivity |].
  split; [reflexivity |].
  destruct (Inv_run_end (RUNPOD_RATE_LIMIT c) trace t0 (initialState c) Hch) as (_ & HI).
  { by apply Inv_initial. }
  fold s in HI. cbn [runpodRequestsLastMinute getQueueStatistics].
  pose proof (window_after now (now - 60000) (callTimes s)) as Hw.
  rewrite (inv_recent _ _ _ HI (now - 60000)) in Hw by lia.
  assert (Hl : (length (after (now - 60000) (runpodRequestTimes s))
                <= length (runpodRequestTimes s))%nat)
    by (unfold after; apply filter_length_le).
  lia.
Qed.

(** Seven uploads were refused by the worker within seven seconds; three
    minutes later the seven timestamps are still counted. *)
Lemma X13_statistics_witness :
  Z.of_nat (length (window (T0 + 200000) (callTimes sevenCalls)))
  <= runpodRequestsLastMinute (getQueueStatistics sevenCalls).
Proof.
  refine (proj2 (proj2 (proj2
            (X13_statistics defaultConfig T0
               [(T0 + 1000, EvAddJob (Some (upload "1")));
                (T0 + 1000, EvProcessQueue HIGH (SubmitThrows badRequest));
                (T0 + 2000, EvAddJob (Some (upload "2")));
                (T0 + 2000, EvProcessQueue HIGH (SubmitThrows badRequest));
                (T0 + 3000, EvAddJob (Some (upload "3")));
                (T0 + 3000, EvProcessQueue HIGH (SubmitThrows badRequest));
                (T0 + 4000, EvAddJob (Some (upload "4")));
                (T0 + 4000, EvProcessQueue HIGH (SubmitThrows badRequest));
                (T0 + 5000, EvAddJob (Some (upload "5")));
                (T0 + 5000, EvProcessQueue HIGH (SubmitThrows badRequest));
                (T0 + 6000, EvAddJob (Some (upload "6")));
                (T0 + 6000, EvProcessQueue HIGH (SubmitThrows badRequest));
                (T0 + 7000, EvAddJob (Some (upload "7")));
                (T0 + 7000, EvProcessQueue HIGH (SubmitThrows badRequest));
                (T0 + 8000, EvAddJob (Some (upload "8")));
                (T0 + 8000, EvAddJob (Some urlJob))]
               (T0 + 200000) _ _)))).
  - vm_compute. repeat split; discriminate.
  - vm_compute. discriminate.
Defined.

(** ** The caps of a run *)

Lemma mapSize_mapSet_le (k : Id) (v : ProcJob) (m : list (Id * ProcJob)) :
  mapSize (mapSet k v m) <= mapSize m + 1.
Proof.
  unfold mapSize. induction m as [| [k' v'] m IH]; cbn [mapSet]; [cbn [length]; lia |].
  destruct (keyEqb k k'); cbn [length] in *; lia.
Qed.

Lemma mapSize_mapSet_same (k : Id) (v pj : ProcJob)
      (m : list (Id * ProcJob)) :
  mapGet k m = Some pj -> mapSize (mapSet k v m) = mapSize m.
Proof.
  unfold mapSize. induction m as [| [k' v'] m IH]; cbn [mapGet mapSet]; [discriminate |].
  destruct (keyEqb k k'); [reflexivity |]. intros H. cbn [length]. specialize (IH H). lia.
Qed.

Lemma mapSize_mapDelete_le (k : Id) (m : list (Id * ProcJob)) :
  mapSize (mapDelete k m) <= mapSize m.
Proof.
  unfold mapSize, mapDelete.
  pose proof (filter_length_le (fun kv : Id * ProcJob => negb (keyEqb k (fst kv))) m).
  lia.
Qed.

Lemma countPriority_mapSet (p : Priority) (k : Id) (v : ProcJob)
      (m : list (Id * ProcJob)) :
  countPriority p (mapSet k v m)
  <= countPriority p m
     + (if match priority (pjob v) with Some q => Priority_eqb q p | None => false end
        then 1 else 0).
Proof.
  unfold countPriority, mapValues.
  induction m as [| [k' v'] m IH]; cbn [mapSet map snd List.filter].
  - destruct (match priority (pjob v) with Some q' => Priority_eqb q' p | None => false end);
      cbn [length]; lia.
  - destruct (keyEqb k k'); cbn [map snd List.filter].
    + destruct (match priority (pjob v) with Some q' => Priority_eqb q' p | None => false end);
        destruct (match priority (pjob v') with Some q' => Priority_eqb q' p | None => false end);
        cbn [length]; lia.
    + destruct (match priority (pjob v') with Some q' => Priority_eqb q' p | None => false end);
        cbn [length] in *; lia.
Qed.

Lemma countPriority_mapSet_same (p : Priority) (k : Id) (v pj : ProcJob)
      (m : list (Id * ProcJob)) :
  mapGet k m = Some pj -> pjob v = pjob pj ->
  countPriority p (mapSet k v m) = countPriority p m.
Proof.
  unfold countPriority, mapValues. intros Hget Hj.
  induction m as [| [k' v'] m IH]; cbn [mapGet mapSet] in *; [discriminate |].
  destruct (keyEqb k k'); cbn [map snd List.filter].
  - inversion Hget; subst v'. rewrite Hj.
    destruct (match priority (pjob pj) with Some q' => Priority_eqb q' p | None => false end);
      reflexivity.
  - specialize (IH Hget).
    destruct (match priority (pjob v') with Some q' => Priority_eqb q' p | None => false end);
      cbn [length]; lia.
Qed.

Lemma countPriority_mapDelete_le (p : Priority) (k : Id)
      (m : list (Id * ProcJob)) :
  countPriority p (mapDelete k m) <= countPriority p m.
Proof.
  unfold countPriority, mapValues, mapDelete.
  induction m as [| [k' v'] m IH]; cbn [map snd List.filter fst]; [lia |].
  destruct (keyEqb k k'); cbn [negb map snd List.filter];
    destruct (match priority (pjob v') with Some q' => Priority_eqb q' p | None => false end);
    cbn [length] in *; lia.
Qed.

Lemma Caps_view (c : Config) (s s' : State) : capsView s' = capsView s -> Caps c s -> Caps c s'.
Proof.
  unfold capsView. intros H [? ? ? ? ? ? ?]. inversion H as [[H1 H2 H3 H4 H5 H6]].
  constructor; unfold usersOk in *; rewrite ?H1, ?H2, ?H3, ?H4, ?H5, ?H6; assumption.
Qed.

Lemma capsView_updateJobStatus (s : State) (t : Z) (sid : Id) (st : string)
      (d : StatusData) :
  capsView (updateJobStatus s t sid st d) = capsView s.
Proof. reflexivity. Qed.

Lemma Caps_initial (c : Config) : Caps c (initialState c).
Proof.
  constructor.
  - reflexivity.
  - unfold usersOk. simpl. apply map_Forall_empty.
  - constructor.
  - constructor.
  - unfold mapSize. simpl. lia.
  - unfold countPriority. simpl. lia.
  - simpl. lia.
Qed.

Lemma usersOk_hsetUser (r : Redis) (uid : string) (u : UserData) :
  withinLimits u -> usersOk r -> usersOk (hsetUser r uid u).
Proof. intros Hu Hr. unfold usersOk, hsetUser. simpl. by apply map_Forall_insert_2. Qed.

Lemma usersOk_hgetall (r : Redis) (now : Z) (uid : string) :
  usersOk r -> withinLimits (hgetall r now uid).
Proof.
  intros Hr. unfold hgetall.
  assert (H0 : withinLimits noUser) by (split; simpl; lia).
  destruct (users r !! uid) as [u |] eqn:E; [| exact H0].
  destruct (keyLive now (uExpireAt u)); [| exact H0].
  exact (map_Forall_lookup_1 _ _ _ _ Hr E).
Qed.

Lemma usersOk_expireUser (r : Redis) (now : Z) (uid : string) (sec : Z) :
  usersOk r -> usersOk (expireUser r now uid sec).
Proof.
  intros Hr. unfold expireUser. destruct (users r !! uid) as [u |] eqn:E; [| exact Hr].
  destruct (keyLive now (uExpireAt u)); [| exact Hr].
  apply usersOk_hsetUser; [| exact Hr]. exact (map_Forall_lookup_1 _ _ _ _ Hr E).
Qed.

Lemma usersOk_hincrbyConcurrent (r : Redis) (now : Z) (uid : string) (d : Z) :
  usersOk r -> concurrent (hgetall r now uid) + d <= 2 -> usersOk (hincrbyConcurrent r now uid d).
Proof.
  intros Hr Hc. unfold hincrbyConcurrent. apply usersOk_hsetUser; [| exact Hr].
  destruct (usersOk_hgetall r now uid Hr) as [_ Hh]. split; simpl; assumption.
Qed.

Lemma usersOk_hincrbyHourly (r : Redis) (now : Z) (uid : string) (d : Z) :
  usersOk r -> hourly (hgetall r now uid) + d <= 5 -> usersOk (hincrbyHourly r now uid d).
Proof.
  intros Hr Hh. unfold hincrbyHourly. apply usersOk_hsetUser; [| exact Hr].
  destruct (usersOk_hgetall r now uid Hr) as [Hc _]. split; simpl; assumption.
Qed.

Lemma Caps_withUsers (c : Config) (s : State) (r : Redis) :
  Caps c s -> usersOk r ->
  queueFiles r = queueFiles (redis s) -> queueUrls r = queueUrls (redis s) ->
  Caps c (withRedis r s).
Proof.
  intros [? ? ? ? ? ? ?] Hr Hf Hu. constructor; simpl; rewrite ?Hf, ?Hu; assumption.
Qed.

Lemma Caps_checkUserLimits (c : Config) (s : State) (now : Z) (uid : string) :
  Caps c s ->
  Caps c (fst (checkUserLimits s now uid)) /\
  (snd (checkUserLimits s now uid) = true ->
   concurrent (hgetall (redis (fst (checkUserLimits s now uid))) now uid) < 2 /\
   hourly (hgetall (redis (fst (checkUserLimits s now uid))) now uid) < 5).
Proof.
  intros HC. unfold checkUserLimits.
  destruct (Z.leb_spec 2 (concurrent (hgetall (redis s) now uid))) as [Hc | Hc];
    [split; [exact HC | discriminate] |].
  destruct (lastHourReset (hgetall (redis s) now uid) <? now - 3600000); cbn [fst snd].
  - split.
    + apply Caps_withUsers; [exact HC | | reflexivity | reflexivity].
      apply usersOk_hsetUser; [split; simpl; lia | by destruct HC].
    + intros _. cbn [redis withRedis].
      rewrite hgetall_hsetUser by (simpl; apply hgetall_live). simpl. lia.
  - destruct (Z.leb_spec 5 (hourly (hgetall (redis s) now uid))) as [Hh | Hh]; cbn [fst snd];
      (split; [exact HC |]); [discriminate | intros _; lia].
Qed.

Lemma Caps_updateUserLimits (c : Config) (s : State) (now : Z) (uid : string) :
  Caps c s ->
  concurrent (hgetall (redis s) now uid) < 2 -> hourly (hgetall (redis s) now uid) < 5 ->
  Caps c (updateUserLimits s now uid).
Proof.
  intros HC Hc Hh. unfold updateUserLimits.
  destruct (expireUser_queues (hincrbyHourly (hincrbyConcurrent (redis s) now uid 1) now uid 1)
                              now uid 7200) as (Hf & Hu & _).
  apply Caps_withUsers; [exact HC | | exact Hf | exact Hu].
  apply usersOk_expireUser, usersOk_hincrbyHourly.
  - apply usersOk_hincrbyConcurrent; [by destruct HC | lia].
  - rewrite hgetall_hincrbyConcurrent. simpl. lia.
Qed.

Lemma Caps_decrementUserConcurrent (c : Config) (s : State) (now : Z) (uid : option string) :
  Caps c s -> Caps c (decrementUserConcurrent s now uid).
Proof.
  intros HC. unfold decrementUserConcurrent. destruct (truthy uid); [| exact HC].
  apply Caps_withUsers; [exact HC | | reflexivity | reflexivity].
  assert (Hr : usersOk (redis s)) by (by destruct HC).
  apply usersOk_hincrbyConcurrent; [exact Hr |].
  destruct (usersOk_hgetall (redis s) now (idString uid) Hr). lia.
Qed.

Lemma Caps_push (c : Config) (s : State) (p : Priority) (j : JobData) :
  priority j = Some p -> Caps c s ->
  Caps c (withRedis (withQueue p (lpush j (queueOf p (redis s))) (redis s)) s).
Proof.
  intros Hj [? ? ? ? ? ? ?].
  destruct p; constructor; simpl; try assumption; by constructor.
Qed.

Lemma Caps_addJob (c : Config) (s : State) (now : Z) (jobData : option JobData) :
  Caps c s -> Caps c (fst (addJob s now jobData)).
Proof.
  intros HC. destruct jobData as [jd |]; [| exact HC].
  unfold addJob.
  destruct (truthy (separationId jd)); cbn [negb];
    [| eapply Caps_view; [| exact HC]; reflexivity].
  fold (userOf jd).
  destruct (Caps_checkUserLimits c s now (userOf jd) HC) as [H1 Hok].
  destruct (checkUserLimits s now (userOf jd)) as [s1 ok]. cbn [fst snd] in H1, Hok.
  destruct ok; cbn [negb]; [| eapply Caps_view; [| exact H1]; reflexivity].
  destruct (Hok eq_refl) as [Hc Hh].
  destruct (Breaker_eqb (circuitBreakerState s1) OPEN);
    [eapply Caps_view; [| exact H1]; reflexivity |].
  destruct (MAX_QUEUE_SIZE (cfg s1) <=? getTotalQueueSize s1);
    [eapply Caps_view; [| exact H1]; reflexivity |].
  cbn [fst].
  eapply Caps_view; [apply capsView_updateJobStatus |].
  apply Caps_updateUserLimits.
  - apply Caps_push; [reflexivity | exact H1].
  - destruct (isFileUpload jd); exact Hc.
  - destruct (isFileUpload jd); exact Hh.
Qed.

Lemma Caps_deleteProcessing (c : Config) (s : State) (k : Id) :
  Caps c s -> Caps c (withProcessing (mapDelete k (processingJobs s)) s).
Proof.
  intros [? ? ? ? Hs Hh ?]. constructor; simpl; try assumption.
  - pose proof (mapSize_mapDelete_le k (processingJobs s)). lia.
  - pose proof (countPriority_mapDelete_le HIGH k (processingJobs s)). lia.
Qed.

Lemma peak_handleRunpodError (s : State) (now : Z) (e : JsError) :
  peakConcurrency (metrics (handleRunpodError s now e)) = peakConcurrency (metrics s).
Proof.
  unfold handleRunpodError. destruct (isServiceError e); [| reflexivity].
  destruct (incrFailures (redis s) now) as [r1 f]. destruct (5 <=? f); reflexivity.
Qed.

Lemma capsView_handleRunpodError (s : State) (now : Z) (e : JsError) :
  capsView (handleRunpodError s now e) = capsView s.
Proof.
  pose proof (handleRunpodError_frame s now e) as H. cbn zeta in H.
  destruct H as (Hc & Hf & Hu & _ & Hus & _ & Hp & _).
  unfold capsView. by rewrite Hc, Hf, Hu, Hus, Hp, peak_handleRunpodError.
Qed.

Lemma capsView_addJobToRetryQueue (s s' : State) (now : Z) (job : JobData) (msg : string) :
  addJobToRetryQueue s now job msg = Some s' -> capsView s' = capsView s.
Proof.
  unfold addJobToRetryQueue. destruct (validDate _); [| discriminate].
  intros H. inversion H. reflexivity.
Qed.

Lemma Caps_submissionFailed (c : Config) (s : State) (now : Z) (job : JobData) (e : JsError) :
  Caps c s -> Caps c (submissionFailed s now job e).
Proof.
  intros HC. unfold submissionFailed.
  assert (H1 : Caps c (handleRunpodError s now e))
    by (eapply Caps_view; [apply capsView_handleRunpodError | exact HC]).
  pose proof (Caps_deleteProcessing c _ (separationId job) H1) as H2.
  destruct (shouldRetryJob job e).
  - destruct (addJobToRetryQueue _ now job (message e)) as [s3 |] eqn:E; [| exact H2].
    eapply Caps_view; [exact (capsView_addJobToRetryQueue _ _ _ _ _ E) | exact H2].
  - eapply Caps_view; [| exact H2]. reflexivity.
Qed.

(** A submission keeps the caps when the capacity check has just passed. *)
Lemma Caps_startJobProcessing (c : Config) (s : State) (now : Z) (job : JobData)
      (o : SubmitOutcome) :
  Caps c s ->
  mapSize (processingJobs s) < MAX_CONCURRENT_JOBS c ->
  (priority job = Some HIGH -> countPriority HIGH (processingJobs s) < PRIORITY_FILE_LIMIT c) ->
  Caps c (startJobProcessing s now job o).
Proof.
  intros HC Hsize Hhigh. unfold startJobProcessing.
  set (s5 := withCalls _ _).
  assert (H5 : Caps c s5).
  { destruct HC as [? ? ? ? Hs Hh Hp].
    pose proof (mapSize_mapSet_le (separationId job) (mkProc job now None None)
                                  (processingJobs s)) as Hle.
    pose proof (countPriority_mapSet HIGH (separationId job) (mkProc job now None None)
                                     (processingJobs s)) as Hct.
    constructor; subst s5; simpl; try assumption; try lia.
    cbn [pjob] in Hct. destruct (priority job) as [[|] |]; cbn [Priority_eqb] in Hct; try lia.
    specialize (Hhigh eq_refl). lia. }
  assert (Hfail : forall e, Caps c (submissionFailed s5 now job e))
    by (intros e; by apply Caps_submissionFailed).
  destruct o as [id | | e]; [| apply Hfail | apply Hfail].
  destruct (truthy id); [| apply Hfail].
  assert (H6 : Caps c
                 match mapGet (separationId job) (processingJobs s5) with
                 | Some pj =>
                     withProcessing
                       (mapSet (separationId job) (mkProc (pjob pj) (startedAt pj) id (Some now))
                               (processingJobs s5)) s5
                 | None => s5
                 end).
  { destruct (mapGet (separationId job) (processingJobs s5)) as [pj |] eqn:Hget;
      [| exact H5].
    destruct H5 as [? ? ? ? Hs Hh Hp]. constructor; simpl; try assumption.
    - by rewrite (mapSize_mapSet_same _ _ pj).
    - by rewrite (countPriority_mapSet_same HIGH _ _ pj). }
  match goal with |- context [if ?b then _ else _] => destruct b end;
    eapply Caps_view; try exact H6; reflexivity.
Qed.

Lemma Caps_processQueue (c : Config) (s : State) (now : Z) (p : Priority) (o : SubmitOutcome) :
  Caps c s -> Caps c (processQueue s now p o).
Proof.
  intros HC. unfold processQueue, processQueueCheck, canMakeRunpodRequest.
  destruct (canProcessMoreJobs s p) eqn:Hcan; cbn [negb]; [| exact HC].
  assert (H1 : Caps c (withRequestTimes (pruneTimes now (runpodRequestTimes s)) s))
    by (eapply Caps_view; [| exact HC]; reflexivity).
  cbn [runpodRequestTimes withRequestTimes cfg].
  destruct (Z.of_nat (length (pruneTimes now (runpodRequestTimes s))) <? RUNPOD_RATE_LIMIT (cfg s));
    cbn [negb]; [| eapply Caps_view; [| exact H1]; reflexivity].
  unfold processQueueDispatch. cbn [redis withRequestTimes].
  destruct (rpop (queueOf p (redis s))) as [[job rest] |] eqn:Hpop; [| exact H1].
  apply rpop_Some in Hpop.
  assert (Hq : Forall (fun j => priority j = Some p) (rest ++ [job])).
  { rewrite <- Hpop. destruct HC. destruct p; assumption. }
  apply Forall_app in Hq. destruct Hq as [Hrest Hjob]. apply Forall_inv in Hjob.
  unfold canProcessMoreJobs in Hcan. rewrite (caps_cfg c s HC) in Hcan.
  destruct (Z.leb_spec (MAX_CONCURRENT_JOBS c) (mapSize (processingJobs s))) as [| Hsize];
    [discriminate |].
  apply Caps_startJobProcessing.
  - destruct H1 as [? ? ? ? ? ? ?].
    destruct p; constructor; simpl in *; assumption.
  - destruct p; exact Hsize.
  - intros Hp. rewrite Hjob in Hp. inversion Hp; subst p.
    apply Z.ltb_lt in Hcan. exact Hcan.
Qed.

Lemma Caps_processRetryQueue (c : Config) (s : State) (now : Z) :
  Caps c s -> Caps c (fst (processRetryQueue s now)).
Proof.
  intros HC. unfold processRetryQueue.
  destruct (rpop (queueRetry (redis s))) as [[job rest] |]; [| exact HC].
  assert (H1 : Caps c (withRedis (withQueueRetry rest (redis s)) s))
    by (eapply Caps_view; [| exact HC]; reflexivity).
  match goal with |- context [if ?b then _ else _] => destruct b end.
  - match goal with |- context [addJob ?s0 now ?j] =>
      pose proof (Caps_addJob c s0 now j H1) as H2; destruct (addJob s0 now j) end.
    exact H2.
  - cbn [fst]. eapply Caps_view; [| exact H1]. reflexivity.
Qed.

Lemma Caps_handleJobCompletion (c : Config) (s : State) (now : Z) (sid : Id)
      (r : RunpodStatus) :
  Caps c s -> Caps c (handleJobCompletion s now sid r).
Proof.
  intros HC. unfold handleJobCompletion.
  destruct (mapGet sid (processingJobs s)) as [pj |]; [| exact HC].
  apply Caps_decrementUserConcurrent.
  match goal with |- Caps c (withProcessing (mapDelete sid (processingJobs ?s0)) ?s0) =>
    apply (Caps_deleteProcessing c s0 sid) end.
  eapply Caps_view; [| exact HC]. reflexivity.
Qed.

Lemma Caps_handleJobFailure (c : Config) (s : State) (now : Z) (sid : Id)
      (r : RunpodStatus) :
  Caps c s -> Caps c (handleJobFailure s now sid r).
Proof.
  intros HC. unfold handleJobFailure.
  match goal with |- context [withProcessing (mapDelete sid (processingJobs ?s0)) ?s0] =>
    assert (H3 : Caps c (withProcessing (mapDelete sid (processingJobs s0)) s0))
      by (apply Caps_deleteProcessing; eapply Caps_view; [| exact HC]; reflexivity) end.
  destruct (mapGet sid (processingJobs s)); [| exact H3].
  by apply Caps_decrementUserConcurrent.
Qed.

Lemma Caps_handleJobTimeout (c : Config) (s : State) (now : Z) (sid : Id) :
  Caps c s -> Caps c (handleJobTimeout s now sid).
Proof.
  intros HC. unfold handleJobTimeout.
  match goal with |- context [withProcessing (mapDelete sid (processingJobs ?s0)) ?s0] =>
    assert (H3 : Caps c (withProcessing (mapDelete sid (processingJobs s0)) s0))
      by (apply Caps_deleteProcessing; eapply Caps_view; [| exact HC]; reflexivity) end.
  destruct (mapGet sid (processingJobs s)); [| exact H3].
  by apply Caps_decrementUserConcurrent.
Qed.

Lemma Caps_monitorJob (c : Config) (now : Z) (poll : string -> PollOutcome) (s : State)
      (job : ProcJob) :
  Caps c s -> Caps c (monitorJob now poll s job).
Proof.
  intros HC. unfold monitorJob.
  destruct (truthy (runpodJobId job)); cbn [negb]; [| exact HC].
  destruct (poll (idString (runpodJobId job))) as [st |].
  - destruct (String.eqb (rstatus st) "COMPLETED"); [by apply Caps_handleJobCompletion |].
    destruct (String.eqb (rstatus st) "FAILED"); [by apply Caps_handleJobFailure |].
    eapply Caps_view; [| exact HC]. reflexivity.
  - match goal with |- context [if ?b then _ else _] => destruct b end;
      [by apply Caps_handleJobTimeout | exact HC].
Qed.

Lemma Caps_step (c : Config) (s : State) (now : Z) (e : Event) :
  Caps c s -> Caps c (step s now e).
Proof.
  intros HC. destruct e; simpl.
  - by apply Caps_addJob.
  - by apply Caps_processQueue.
  - unfold monitorRunningJobs. generalize (mapValues (processingJobs s)).
    intros l. revert s HC. induction l as [| job l IH]; intros s HC; [exact HC |].
    simpl. apply IH. by apply Caps_monitorJob.
  - by apply Caps_processRetryQueue.
  - unfold performCleanup. generalize (staleJobs s now).
    intros l. revert s HC. induction l as [| k l IH]; intros s HC; [exact HC |].
    simpl. apply IH. by apply Caps_handleJobTimeout.
  - eapply Caps_view; [| exact HC]. reflexivity.
  - unfold fireHalfOpenTimer. destruct (halfOpenTimers s) as [| t rest]; [exact HC |].
    destruct (t <=? now); [| exact HC]. eapply Caps_view; [| exact HC]. reflexivity.
Qed.

Lemma Caps_run (c : Config) (trace : list (Z * Event)) (s : State) :
  Caps c s -> Caps c (run s trace).
Proof.
  revert s. induction trace as [| [t e] trace IH]; intros s HC; [exact HC |].
  simpl. apply IH. by apply Caps_step.
Qed.

(** X14: in every run from the initial state whose events run one at a
    time, whatever the events and their instants, the hash of a user never
    counts more than 2 concurrent jobs nor more than 5 jobs in the hour, at
    any instant it is read. *)
Theorem X14_user_counters_capped (c : Config) (trace : list (Z * Event)) (now : Z)
        (uid : string) :
  let u := hgetall (redis (run (initialState c) trace)) now uid in
  concurrent u <= 2 /\ hourly u <= 5.
Proof.
  intros u. subst u.
  pose proof (Caps_run c trace (initialState c) (Caps_initial c)) as HC.
  apply usersOk_hgetall. by destruct HC.
Qed.

(** X15: in every run from the initial state whose dispatcher ticks run one at
    a time, the processing set never holds more than MAX_CONCURRENT_JOBS jobs,
    nor more than PRIORITY_FILE_LIMIT HIGH jobs, and the recorded peak never
    exceeds MAX_CONCURRENT_JOBS (the limits counted as 0 when negative); the
    configuration is never changed, and every job waits on the list of its
    own class. *)
Theorem X15_concurrency_capped (c : Config) (trace : list (Z * Event)) :
  let s := run (initialState c) trace in
  cfg s = c /\
  mapSize (processingJobs s) <= Z.max 0 (MAX_CONCURRENT_JOBS c) /\
  countPriority HIGH (processingJobs s) <= Z.max 0 (PRIORITY_FILE_LIMIT c) /\
  peakConcurrency (metrics s) <= Z.max 0 (MAX_CONCURRENT_JOBS c) /\
  Forall (fun j => priority j = Some HIGH) (queueFiles (redis s)) /\
  Forall (fun j => priority j = Some NORMAL) (queueUrls (redis s)).
Proof.
  intros s.
  destruct (Caps_run c trace (initialState c) (Caps_initial c)) as [? ? ? ? ? ? ?].
  by repeat split.
Qed.

(** ** The breaker in a run *)

Lemma breakerStep_view (now : Z) (s0 s s' s1 : State) :
  breakerView s0 = breakerView s -> breakerView s1 = breakerView s' ->
  breakerStep now s s' -> breakerStep now s0 s1.
Proof.
  unfold breakerView. intros H0 H1 Hs.
  inversion H0 as [[Hb0 Ht0]]. inversion H1 as [[Hb1 Ht1]].
  destruct Hs as [Hb Ht | Hh Hc Ht | Ho Ht].
  - apply breakerSame; congruence.
  - apply breakerCloses; congruence.
  - apply breakerTrips; congruence.
Qed.

Lemma breakerStep_same (now : Z) (s s' : State) :
  breakerView s' = breakerView s -> breakerStep now s s'.
Proof. unfold breakerView. intros H. inversion H. by apply breakerSame. Qed.

Lemma breakerView_decrementUserConcurrent (s : State) (t : Z) (uid : option string) :
  breakerView (decrementUserConcurrent s t uid) = breakerView s.
Proof. unfold decrementUserConcurrent. destruct (truthy uid); reflexivity. Qed.

Lemma breakerView_checkUserLimits (s : State) (t : Z) (uid : string) :
  breakerView (fst (checkUserLimits s t uid)) = breakerView s.
Proof. unfold checkUserLimits. split_ifs; reflexivity. Qed.

Lemma breakerView_addJob (s : State) (now : Z) (jobData : option JobData) :
  breakerView (fst (addJob s now jobData)) = breakerView s.
Proof.
  destruct jobData as [jd |]; [| reflexivity]. unfold addJob.
  destruct (truthy (separationId jd)); cbn [negb]; [| reflexivity].
  pose proof (breakerView_checkUserLimits s now (idString (orElse (userId jd) (Some "unknown"))))
    as Hv.
  destruct (checkUserLimits s now _) as [s1 ok]. cbn [fst] in Hv.
  destruct ok; cbn [negb]; [| exact Hv].
  destruct (Breaker_eqb (circuitBreakerState s1) OPEN); [exact Hv |].
  destruct (MAX_QUEUE_SIZE (cfg s1) <=? getTotalQueueSize s1); exact Hv.
Qed.

Lemma breakerView_handleJobCompletion (s : State) (now : Z) (sid : Id)
      (r : RunpodStatus) :
  breakerView (handleJobCompletion s now sid r) = breakerView s.
Proof.
  unfold handleJobCompletion. destruct (mapGet sid (processingJobs s)); [| reflexivity].
  by rewrite breakerView_decrementUserConcurrent.
Qed.

Lemma breakerView_handleJobFailure (s : State) (now : Z) (sid : Id)
      (r : RunpodStatus) :
  breakerView (handleJobFailure s now sid r) = breakerView s.
Proof.
  unfold handleJobFailure. destruct (mapGet sid (processingJobs s)); [| reflexivity].
  by rewrite breakerView_decrementUserConcurrent.
Qed.

Lemma breakerView_handleJobTimeout (s : State) (now : Z) (sid : Id) :
  breakerView (handleJobTimeout s now sid) = breakerView s.
Proof.
  unfold handleJobTimeout. destruct (mapGet sid (processingJobs s)); [| reflexivity].
  by rewrite breakerView_decrementUserConcurrent.
Qed.

Lemma breakerView_monitorJob (now : Z) (poll : string -> PollOutcome) (s : State)
      (job : ProcJob) :
  breakerView (monitorJob now poll s job) = breakerView s.
Proof.
  unfold monitorJob. destruct (truthy (runpodJobId job)); cbn [negb]; [| reflexivity].
  destruct (poll (idString (runpodJobId job))) as [st |].
  - destruct (String.eqb (rstatus st) "COMPLETED"); [apply breakerView_handleJobCompletion |].
    destruct (String.eqb (rstatus st) "FAILED"); [apply breakerView_handleJobFailure |].
    reflexivity.
  - match goal with |- context [if ?b then _ else _] => destruct b end;
      [apply breakerView_handleJobTimeout | reflexivity].
Qed.

Lemma breakerStep_handleRunpodError (s : State) (now : Z) (e : JsError) :
  breakerStep now s (handleRunpodError s now e).
Proof.
  unfold handleRunpodError. destruct (isServiceError e); [| by apply breakerSame].
  destruct (incrFailures (redis s) now) as [r1 f].
  destruct (5 <=? f); [by apply breakerTrips | by apply breakerSame].
Qed.

Lemma breakerStep_submissionFailed (s : State) (now : Z) (job : JobData) (e : JsError) :
  breakerStep now s (submissionFailed s now job e).
Proof.
  unfold submissionFailed.
  eapply breakerStep_view; [reflexivity | | apply (breakerStep_handleRunpodError s now e)].
  destruct (shouldRetryJob job e); [| reflexivity].
  unfold addJobToRetryQueue. destruct (validDate _); reflexivity.
Qed.

Lemma breakerStep_startJobProcessing (s : State) (now : Z) (job : JobData) (o : SubmitOutcome) :
  breakerStep now s (startJobProcessing s now job o).
Proof.
  unfold startJobProcessing.
  set (s5 := withCalls _ _).
  assert (H5 : breakerView s = breakerView s5) by reflexivity.
  assert (Hfail : forall e, breakerStep now s (submissionFailed s5 now job e)).
  { intros e. eapply breakerStep_view; [exact H5 | reflexivity |].
    apply breakerStep_submissionFailed. }
  destruct o as [id | | e]; [| apply Hfail | apply Hfail].
  destruct (truthy id); [| apply Hfail].
  destruct (mapGet (separationId job) (processingJobs s5)) as [pj |];
    cbn [circuitBreakerState updateJobStatus withRedis withProcessing];
    (destruct (circuitBreakerState s5) eqn:Hb; cbn [Breaker_eqb];
     [apply breakerSame | apply breakerSame | apply breakerCloses]);
    try reflexivity; try exact Hb.
Qed.

Lemma breakerStep_processQueue (s : State) (now : Z) (p : Priority) (o : SubmitOutcome) :
  breakerStep now s (processQueue s now p o).
Proof.
  unfold processQueue, processQueueCheck, canMakeRunpodRequest.
  destruct (canProcessMoreJobs s p); cbn [negb]; [| by apply breakerSame].
  match goal with |- context [if negb ?b then _ else _] => destruct b end; cbn [negb];
    [| by apply breakerSame].
  unfold processQueueDispatch.
  match goal with |- context [rpop ?l] => destruct (rpop l) as [[job rest] |] end;
    [| by apply breakerSame].
  eapply breakerStep_view; [| reflexivity | apply breakerStep_startJobProcessing].
  destruct p; reflexivity.
Qed.

Lemma breakerView_processRetryQueue (s : State) (now : Z) :
  breakerView (fst (processRetryQueue s now)) = breakerView s.
Proof.
  unfold processRetryQueue.
  destruct (rpop (queueRetry (redis s))) as [[job rest] |]; [| reflexivity].
  match goal with |- context [if ?b then _ else _] => destruct b end; [| reflexivity].
  match goal with |- context [addJob ?s0 now ?j] =>
    pose proof (breakerView_addJob s0 now j) as H2; destruct (addJob s0 now j) end.
  exact H2.
Qed.

(** What any event but the timer does to the breaker. *)
Lemma breakerStep_step (s : State) (now : Z) (e : Event) :
  e <> EvHalfOpen -> breakerStep now s (step s now e).
Proof.
  intros He. destruct e; simpl.
  - apply breakerStep_same, breakerView_addJob.
  - apply breakerStep_processQueue.
  - apply breakerStep_same. unfold monitorRunningJobs.
    generalize (mapValues (processingJobs s)). intros l.
    assert (H : forall s0, breakerView (fold_left (monitorJob now poll) l s0) = breakerView s0).
    { induction l as [| job l IH]; intros s0; [reflexivity |].
      simpl. rewrite IH. apply breakerView_monitorJob. }
    apply H.
  - apply breakerStep_same, breakerView_processRetryQueue.
  - apply breakerStep_same. unfold performCleanup.
    generalize (staleJobs s now). intros l.
    assert (H : forall s0,
               breakerView (fold_left (fun st jobId => handleJobTimeout st now jobId) l s0)
               = breakerView s0).
    { induction l as [| k l IH]; intros s0; [reflexivity |].
      simpl. rewrite IH. apply breakerView_handleJobTimeout. }
    apply H.
  - by apply breakerSame.
  - congruence.
Qed.

Lemma coolsDown_step (now : Z) (s : State) (e : Event) :
  coolsDown now s -> coolsDown now (step s now e).
Proof.
  unfold coolsDown. intros [Ho Hall].
  assert (He : e = EvHalfOpen \/ e <> EvHalfOpen)
    by (destruct e; first [by left | right; discriminate]).
  destruct He as [-> | He].
  - simpl. unfold fireHalfOpenTimer.
    destruct (halfOpenTimers s) as [| t rest] eqn:Ht; [by rewrite Ht |].
    destruct (t <=? now); [| by rewrite Ht].
    split; [discriminate |]. by apply Forall_inv_tail in Hall.
  - destruct (breakerStep_step s now e He) as [Hb Ht | Hh Hc Ht | Hop Ht].
    + rewrite Hb, Ht. by split.
    + rewrite Hc, Ht. split; [discriminate | exact Hall].
    + rewrite Ht. split.
      * intros _ H. by apply app_eq_nil in H as [_ H].
      * apply Forall_app. split; [exact Hall |]. constructor; [lia | constructor].
Qed.

Lemma coolsDown_mono (t now : Z) (s : State) : t <= now -> coolsDown t s -> coolsDown now s.
Proof.
  unfold coolsDown. intros Hle [Ho Hall]. split; [exact Ho |].
  eapply List.Forall_impl; [| exact Hall]. simpl. intros. lia.
Qed.

Lemma coolsDown_run (trace : list (Z * Event)) (t0 : Z) (s : State) :
  chronological t0 trace -> coolsDown t0 s -> coolsDown (endOf t0 trace) (run s trace).
Proof.
  revert t0 s. induction trace as [| [t e] trace IH]; intros t0 s Hch HI; [exact HI |].
  destruct Hch as [Hle Hch]. simpl.
  apply (IH t (step s t e) Hch).
  apply coolsDown_step. by apply (coolsDown_mono t0).
Qed.

(** X16: in every run whose clock never goes back, every pending timer of the
    breaker is due at most five minutes after the last event; while the
    breaker is OPEN a timer is pending, and the next firing of the timer, five
    minutes after the last event or later, moves the breaker to HALF_OPEN and
    uses up that timer. *)
Theorem X16_open_breaker_cools_down (c : Config) (t0 : Z) (trace : list (Z * Event)) :
  chronological t0 trace ->
  let s := run (initialState c) trace in
  Forall (fun t => t <= endOf t0 trace + 300000) (halfOpenTimers s) /\
  (circuitBreakerState s = OPEN ->
   exists t rest,
     halfOpenTimers s = t :: rest /\
     forall now, endOf t0 trace + 300000 <= now ->
                 circuitBreakerState (step s now EvHalfOpen) = HALF_OPEN /\
                 halfOpenTimers (step s now EvHalfOpen) = rest).
Proof.
  intros Hch s.
  destruct (coolsDown_run trace t0 (initialState c) Hch) as [Ho Hall].
  { split; [discriminate | constructor]. }
  fold s in Ho, Hall. split; [exact Hall |].
  intros Hopen. specialize (Ho Hopen).
  destruct (halfOpenTimers s) as [| t rest] eqn:Ht; [congruence |].
  exists t, rest. split; [reflexivity |].
  intros now Hnow. apply Forall_inv in Hall.
  simpl. unfold fireHalfOpenTimer. rewrite Ht.
  destruct (Z.leb_spec t now); [by split | lia].
Qed.

(** Five URL jobs fail with a connection reset within five seconds: the
    breaker is OPEN, and the timer firing five minutes after the last failure
    half-opens it. *)
Lemma X16_open_breaker_witness :
  circuitBreakerState (step (run (initialState defaultConfig) fiveResets) (T0 + 304100) EvHalfOpen)
  = HALF_OPEN.
Proof.
  assert (Hch : chronological T0 fiveResets) by (vm_compute; repeat split; discriminate).
  destruct (X16_open_breaker_cools_down defaultConfig T0 fiveResets Hch) as [_ H].
  destruct H as (t & rest & _ & Hfire); [vm_compute; reflexivity |].
  apply Hfire. vm_compute. discriminate.
Defined.

(** X17: what an event can do to the breaker.  No event takes it from OPEN to
    CLOSED.  An event other than the breaker's own timer leaves an OPEN
    breaker OPEN, never half-opens it, and either leaves breaker and timers as
    they are, or closes a HALF_OPEN breaker, or opens the breaker and starts a
    five-minute timer; only a dispatcher tick changes the breaker.  The timer
    event, when the oldest timer is due, half-opens the breaker whatever its
    state, CLOSED included; otherwise it changes nothing.  A submission the
    worker accepts closes a HALF_OPEN breaker and leaves an OPEN one OPEN. *)
Theorem X17_breaker_transitions (s : State) (now : Z) (e : Event) :
  let s' := step s now e in
  (circuitBreakerState s' = CLOSED -> circuitBreakerState s <> OPEN) /\
  (e <> EvHalfOpen ->
   (circuitBreakerState s = OPEN -> circuitBreakerState s' = OPEN) /\
   (circuitBreakerState s' = HALF_OPEN -> circuitBreakerState s = HALF_OPEN) /\
   ((circuitBreakerState s' = circuitBreakerState s /\ halfOpenTimers s' = halfOpenTimers s) \/
    (circuitBreakerState s = HALF_OPEN /\ circuitBreakerState s' = CLOSED /\
     halfOpenTimers s' = halfOpenTimers s) \/
    (circuitBreakerState s' = OPEN /\
     halfOpenTimers s' = halfOpenTimers s ++ [now + 300000])) /\
   (circuitBreakerState s' <> circuitBreakerState s -> exists p o, e = EvProcessQueue p o)) /\
  (e = EvHalfOpen ->
   match halfOpenTimers s with
   | t :: rest =>
       if t <=? now
       then circuitBreakerState s' = HALF_OPEN /\ halfOpenTimers s' = rest
       else s' = s
   | [] => s' = s
   end) /\
  (forall (job : JobData) (id : option string),
      truthy id = true ->
      circuitBreakerState (startJobProcessing s now job (Accepted id))
      = match circuitBreakerState s with
        | HALF_OPEN => CLOSED
        | b => b
        end).
Proof.
  intros s'. subst s'.
  assert (Hfire : e = EvHalfOpen ->
                  match halfOpenTimers s with
                  | t :: rest =>
                      if t <=? now
                      then circuitBreakerState (step s now e) = HALF_OPEN /\
                           halfOpenTimers (step s now e) = rest
                      else step s now e = s
                  | [] => step s now e = s
                  end).
  { intros ->. simpl. unfold fireHalfOpenTimer.
    destruct (halfOpenTimers s) as [| t rest]; [reflexivity |].
    destruct (t <=? now); [by split | reflexivity]. }
  split; [| split; [| split; [exact Hfire |]]].
  - intros Hc Ho.
    assert (He : e = EvHalfOpen \/ e <> EvHalfOpen)
      by (destruct e; first [by left | right; discriminate]).
    destruct He as [He | He].
    + specialize (Hfire He). destruct (halfOpenTimers s) as [| t rest]; [congruence |].
      destruct (t <=? now); [destruct Hfire; congruence | congruence].
    + destruct (breakerStep_step s now e He) as [Hb Ht | Hh Hcl Ht | Hop Ht]; congruence.
  - intros He. pose proof (breakerStep_step s now e He) as Hs.
    split; [| split; [| split]].
    + intros Ho. destruct Hs as [Hb Ht | Hh Hcl Ht | Hop Ht]; congruence.
    + intros Hh'. destruct Hs as [Hb Ht | Hh Hcl Ht | Hop Ht]; congruence.
    + destruct Hs as [Hb Ht | Hh Hcl Ht | Hop Ht]; [by left | right; by left | right; by right].
    + intros Hne. destruct e as [jd | p o | poll | | | |].
      * exfalso. apply Hne. exact (f_equal fst (breakerView_addJob s now jd)).
      * by exists p, o.
      * exfalso. apply Hne.
        simpl. unfold monitorRunningJobs. generalize (mapValues (processingJobs s)). intros l.
        assert (H : forall s0,
                   breakerView (fold_left (monitorJob now poll) l s0) = breakerView s0).
        { induction l as [| job l IH]; intros s0; [reflexivity |].
          simpl. rewrite IH. apply breakerView_monitorJob. }
        exact (f_equal fst (H s)).
      * exfalso. apply Hne. exact (f_equal fst (breakerView_processRetryQueue s now)).
      * exfalso. apply Hne.
        simpl. unfold performCleanup. generalize (staleJobs s now). intros l.
        assert (H : forall s0,
                   breakerView (fold_left (fun st jobId => handleJobTimeout st now jobId) l s0)
                   = breakerView s0).
        { induction l as [| k l IH]; intros s0; [reflexivity |].
          simpl. rewrite IH. apply breakerView_handleJobTimeout. }
        exact (f_equal fst (H s)).
      * exfalso. apply Hne. reflexivity.
      * congruence.
  - intros job id Hid. unfold startJobProcessing. rewrite Hid.
    match goal with |- context [mapGet ?k ?m] => destruct (mapGet k m) end;
      cbn [circuitBreakerState updateJobStatus withRedis withProcessing withCalls
           recordRunpodRequest withRequestTimes withMetrics];
      destruct (circuitBreakerState s) eqn:Hb; first [reflexivity | exact Hb].
Qed.

(** ** The worker's client *)

Lemma statusIs_below_500 (e : JsError) : statusAtLeast500 e = true -> statusIs e 401 = false.
Proof.
  unfold statusAtLeast500, statusIs. destruct (responseStatus e) as [n |]; [| discriminate].
  intros H. apply Z.leb_le in H. apply Z.eqb_neq. lia.
Qed.

Lemma processAsynchronously_returned (audioUrl : option string) (answers : list PostAnswer)
      (r : SubmitOutcome) (n : nat) :
  processAsynchronously audioUrl answers = (Some r, n) ->
  (n <= length answers)%nat /\
  (truthy audioUrl = true -> (1 <= n)%nat) /\
  match r with
  | Accepted id =>
      truthy id = true /\ truthy audioUrl = true /\
      nth_error answers (n - 1) = Some (PostData id)
  | NoResult => False
  | SubmitThrows e => statusAtLeast500 e = false
  end.
Proof.
  revert n. induction answers as [| a rest IH]; intros n; cbn [processAsynchronously].
  - destruct (truthy audioUrl); cbn [negb]; intros H; inversion H; subst.
    split; [simpl; lia | split; [discriminate | reflexivity]].
  - destruct (truthy audioUrl) eqn:Hurl; cbn [negb].
    + destruct a as [id | | e].
      * destruct (truthy id) eqn:Hid; intros H; inversion H; subst; cbn [length].
        -- split; [lia | split; [lia |]]. by repeat split.
        -- split; [lia | split; [lia | reflexivity]].
      * intros H; inversion H; subst. cbn [length]. split; [lia | split; [lia | reflexivity]].
      * destruct (statusIs e 401);
          [intros H; inversion H; subst; cbn [length];
           split; [lia | split; [lia | reflexivity]] |].
        destruct (statusAtLeast500 e) eqn:H5.
        -- destruct (processAsynchronously audioUrl rest) as [r' n'] eqn:E.
           intros H; inversion H; subst. destruct (IH n' eq_refl) as (Hle & Hpos & Hr).
           specialize (Hpos eq_refl).
           cbn [length]. split; [lia | split; [lia |]].
           destruct r as [id | | e']; try exact Hr.
           destruct Hr as (Hid & _ & Hnth). repeat split; try assumption.
           destruct n' as [| m]; [lia |].
           cbn [Nat.sub nth_error] in *. rewrite Nat.sub_0_r in Hnth. exact Hnth.
        -- intros H; inversion H; subst. cbn [length].
           split; [lia | split; [lia | exact H5]].
    + intros H; inversion H; subst. split; [simpl; lia | split; [discriminate | reflexivity]].
Qed.

Lemma processAsynchronously_retries (audioUrl : option string) (answers : list PostAnswer)
      (e : JsError) (k : nat) :
  truthy audioUrl = true -> statusAtLeast500 e = true ->
  processAsynchronously audioUrl (repeat (PostFails e) k ++ answers)
  = (fst (processAsynchronously audioUrl answers),
     (k + snd (processAsynchronously audioUrl answers))%nat).
Proof.
  intros Hurl H5. induction k as [| k IH].
  - simpl. by destruct (processAsynchronously audioUrl answers).
  - cbn [repeat app processAsynchronously]. rewrite Hurl. cbn [negb].
    rewrite (statusIs_below_500 e H5), H5, IH. reflexivity.
Qed.

(** X18: the client's submission.  Without a URL it throws 'Audio URL is
    required' and makes no request.  When it returns, it made at most as many
    requests as there are answers; a result it returns carries a truthy job
    id, the one of the last answer read; it never returns a falsy result; and
    an error it throws never has a status of 500 or more.  Each server error
    (status >= 500) costs one more request and changes nothing else: there is
    no bound on the number of attempts, and while the server keeps answering
    with such errors the call does not return. *)
Theorem X18_submit_client (audioUrl : option string) (answers : list PostAnswer) :
  (truthy audioUrl = false ->
   processAsynchronously audioUrl answers = (Some (SubmitThrows missingUrlError), 0%nat)) /\
  (forall (r : SubmitOutcome) (n : nat),
      processAsynchronously audioUrl answers = (Some r, n) ->
      (n <= length answers)%nat /\
      match r with
      | Accepted id =>
          truthy id = true /\ truthy audioUrl = true /\
          nth_error answers (n - 1) = Some (PostData id)
      | NoResult => False
      | SubmitThrows e => statusAtLeast500 e = false
      end) /\
  (forall (e : JsError) (k : nat),
      truthy audioUrl = true -> statusAtLeast500 e = true ->
      processAsynchronously audioUrl (repeat (PostFails e) k ++ answers)
      = (fst (processAsynchronously audioUrl answers),
         (k + snd (processAsynchronously audioUrl answers))%nat) /\
      processAsynchronously audioUrl (repeat (PostFails e) k) = (None, k)).
Proof.
  split; [| split].
  - intros Hurl. destruct answers; cbn [processAsynchronously]; by rewrite Hurl.
  - intros r n H. destruct (processAsynchronously_returned _ _ _ _ H) as (Hle & _ & Hr).
    by split.
  - intros e k Hurl H5. split; [by apply processAsynchronously_retries |].
    pose proof (processAsynchronously_retries audioUrl [] e k Hurl H5) as H.
    rewrite app_nil_r in H. rewrite H. cbn [processAsynchronously]. rewrite Hurl. simpl.
    by rewrite Nat.add_0_r.
Qed.

Lemma truthy_default (x : option string) (c : Ascii.ascii) (rest : string) :
  truthy (Some (idString (orElse x (Some (String c rest))))) = true.
Proof.
  unfold orElse. destruct (truthy x) eqn:E; [by apply truthy_idString | reflexivity].
Qed.

Lemma isString_exclusive (o : option string) (a b : string) :
  a <> b -> isString o a = true -> isString o b = false.
Proof.
  intros Hne. destruct o as [x |]; simpl; [| discriminate].
  intros H. apply String.eqb_eq in H. subst x. by apply String.eqb_neq.
Qed.

(** The three shapes of what [checkStatus] makes of an answer. *)
Lemma standardize_cases (d : WorkerData) :
  (reportsFailure d = true /\
   rstatus (standardize d) = "FAILED" /\
   truthy (rerror (standardize d)) = true /\
   vocal_audio (standardize d) = None /\ instrument_audio (standardize d) = None) \/
  (reportsFailure d = false /\
   rstatus (standardize d) = dataStatus d /\
   dataStatus d <> "FAILED" /\
   (dataStatus d = "COMPLETED" ->
    vocal_audio (standardize d) = vocalOf d /\
    instrument_audio (standardize d) = instrumentOf d)).
Proof.
  unfold reportsFailure, standardize, vocalOf, instrumentOf.
  destruct (String.eqb_spec (dataStatus d) "COMPLETED") as [Hc | Hc].
  - assert (Hf : String.eqb (dataStatus d) "FAILED" = false)
      by (rewrite Hc; reflexivity).
    rewrite Hf. cbn [orb andb].
    assert (Hne : dataStatus d <> "FAILED") by (rewrite Hc; discriminate).
    destruct (dataOutput d) as [o |]; [| right; by repeat split].
    destruct (isString (processing_status o) "COMPLETED") eqn:Hpc.
    + rewrite (isString_exclusive _ "COMPLETED" "FAILED") by (discriminate || exact Hpc).
      right. by repeat split.
    + destruct (isString (processing_status o) "FAILED").
      * left. repeat split; try reflexivity. cbn [rerror]. apply truthy_default.
      * right. by repeat split.
  - cbn [andb]. rewrite orb_false_r.
    destruct (String.eqb_spec (dataStatus d) "FAILED") as [Hf | Hf].
    + left. repeat split; try reflexivity. cbn [rerror]. apply truthy_default.
    + right. split; [reflexivity |].
      destruct (String.eqb (dataStatus d) "IN_QUEUE" || String.eqb (dataStatus d) "IN_PROGRESS");
        repeat split; try reflexivity; try assumption; intros; contradiction.
Qed.

Lemma checkStatus_retries (jobId : option string) (answers : list GetAnswer)
      (e : JsError) (k : nat) :
  truthy jobId = true -> statusAtLeast500 e = true ->
  checkStatus jobId (repeat (GetFails e) k ++ answers)
  = (fst (checkStatus jobId answers), (k + snd (checkStatus jobId answers))%nat).
Proof.
  intros Hid H5. induction k as [| k IH].
  - simpl. by destruct (checkStatus jobId answers).
  - cbn [repeat app checkStatus]. rewrite Hid. cbn [negb]. rewrite H5, IH. reflexivity.
Qed.

(** X19: the client's status check.  The answer it returns is FAILED exactly
    for a failed job and for a completed job whose output reports a failed
    processing; a FAILED answer carries a non-empty error and no audio URL;
    every other answer keeps the worker's status, and a COMPLETED one carries
    the URLs of the output, none when the output is missing.  Without a job id
    the check throws and makes no request; with one, a response with data is
    returned after one request, and each server error (status >= 500) costs
    one more request and changes nothing else. *)
Theorem X19_status_client (jobId : option string) (d : WorkerData) (answers : list GetAnswer) :
  let r := standardize d in
  (rstatus r = "FAILED" <-> reportsFailure d = true) /\
  (rstatus r = "FAILED" ->
   truthy (rerror r) = true /\ vocal_audio r = None /\ instrument_audio r = None) /\
  (rstatus r <> "FAILED" -> rstatus r = dataStatus d) /\
  (rstatus r = "COMPLETED" ->
   dataStatus d = "COMPLETED" /\ vocal_audio r = vocalOf d /\
   instrument_audio r = instrumentOf d) /\
  (truthy jobId = false -> checkStatus jobId answers = (Some PollThrows, 0%nat)) /\
  (truthy jobId = true ->
   checkStatus jobId (GetData d :: answers) = (Some (PollOk r), 1%nat) /\
   forall (e : JsError) (k : nat),
     statusAtLeast500 e = true ->
     checkStatus jobId (repeat (GetFails e) k ++ GetData d :: answers)
     = (Some (PollOk r), S k)).
Proof.
  intros r. subst r.
  destruct (standardize_cases d) as [(Hrf & Hst & Herr & Hv & Hi) | (Hrf & Hst & Hne & Hout)].
  - split; [split; intros; assumption |]. split; [by intros _ |].
    split; [intros H; contradiction |].
    split; [rewrite Hst; discriminate |].
    split; [intros Hid; destruct answers; cbn [checkStatus]; by rewrite Hid |].
    intros Hid. split; [cbn [checkStatus]; by rewrite Hid |].
    intros e k H5. rewrite (checkStatus_retries jobId _ e k Hid H5).
    cbn [checkStatus]. rewrite Hid. simpl. by rewrite Nat.add_1_r.
  - split; [split; intros H; [rewrite Hst in H; contradiction | congruence] |].
    split; [intros H; rewrite Hst in H; contradiction |].
    split; [by intros _ |].
    split; [intros H; rewrite Hst in H; destruct (Hout H); by repeat split |].
    split; [intros Hid; destruct answers; cbn [checkStatus]; by rewrite Hid |].
    intros Hid. split; [cbn [checkStatus]; by rewrite Hid |].
    intros e k H5. rewrite (checkStatus_retries jobId _ e k Hid H5).
    cbn [checkStatus]. rewrite Hid. simpl. by rewrite Nat.add_1_r.
Qed.

(** ** The service and the worker's client together *)

(** X20: what a sweep of the monitor does with a job whose status check is
    answered with data.  When the answer reports a failure (a failed job, or
    a completed one whose output says the processing failed), the job is
    marked FAILED, counted as failed and tracked no more.  When the worker
    says COMPLETED otherwise, a tracked job is marked COMPLETE with the URLs
    of the output (none when the output is missing) and tracked no more.  For
    any other status the job is marked PROCESSING and stays tracked. *)
Theorem X20_monitor_reads_worker (s : State) (now : Z) (poll : string -> PollOutcome)
        (job : ProcJob) (d : WorkerData) (answers : list GetAnswer) :
  truthy (runpodJobId job) = true ->
  checkStatus (runpodJobId job) (GetData d :: answers)
  = (Some (poll (idString (runpodJobId job))), 1%nat) ->
  let sid := separationId (pjob job) in
  let s' := monitorJob now poll s job in
  (reportsFailure d = true ->
   statusOf s' sid = Some "FAILED" /\
   mapGet sid (processingJobs s') = None /\
   totalFailed (metrics s') = totalFailed (metrics s) + 1) /\
  (reportsFailure d = false -> dataStatus d = "COMPLETED" ->
   forall pj : ProcJob,
     mapGet sid (processingJobs s) = Some pj ->
     statuses (redis s') !! idString sid
     = Some (mkStatus sid "COMPLETE" now
               (DComplete (vocalOf d) (instrumentOf d) (roundSeconds (now - startedAt pj)) 100)
               (now + 86400 * 1000)) /\
     mapGet sid (processingJobs s') = None) /\
  (reportsFailure d = false -> dataStatus d <> "COMPLETED" ->
   statusOf s' sid = Some "PROCESSING" /\ processingJobs s' = processingJobs s).
Proof.
  intros Hid Hcheck sid s'. subst sid s'.
  cbn [checkStatus] in Hcheck. rewrite Hid in Hcheck. cbn [negb] in Hcheck.
  assert (Hpoll : poll (idString (runpodJobId job)) = PollOk (standardize d)) by congruence.
  unfold monitorJob. rewrite Hid, Hpoll. cbn [negb].
  destruct (standardize_cases d) as [(Hrf & Hst & _) | (Hrf & Hst & Hne & Hout)];
    rewrite Hrf, Hst.
  - split; [intros _ | split; intros; discriminate].
    cbn [String.eqb Ascii.eqb Bool.eqb].
    split; [| split; [apply handleJobFailure_gone |]];
      unfold handleJobFailure, decrementUserConcurrent; split_ifs;
        first [apply statusOf_updateJobStatus | reflexivity].
  - split; [intros; discriminate |]. split.
    + intros _ Hc pj Hget. rewrite Hc. cbn [String.eqb Ascii.eqb Bool.eqb].
      destruct (Hout Hc) as [Hv Hi].
      split; [| apply handleJobCompletion_gone].
      unfold handleJobCompletion. rewrite Hget. rewrite Hv, Hi.
      unfold decrementUserConcurrent. split_ifs; simpl; by rewrite lookup_insert_eq.
    + intros _ Hc.
      apply String.eqb_neq in Hc, Hne. rewrite Hc, Hne.
      split; [apply statusOf_updateJobStatus | reflexivity].
Qed.

(** The job of the busy run: the worker answers that it completed and that
    the processing failed. *)
Lemma X20_monitor_reads_worker_witness :
  statusOf (monitorJob (T0 + 90000) (fun _ => PollOk (standardize badAudio))
                       (run (initialState defaultConfig) busyRun) trackedJob)
           (Str "sep6")
  = Some "FAILED".
Proof.
  exact (proj1 (proj1 (X20_monitor_reads_worker
                         (run (initialState defaultConfig) busyRun) (T0 + 90000)
                         (fun _ => PollOk (standardize badAudio)) trackedJob badAudio []
                         eq_refl eq_refl)
                      eq_refl)).
Defined.

(** X21: the errors the client raises itself (no URL, no job id in the
    response, authentication refused) end the job at once: the job is marked
    FAILED and tracked no more, it is not put on the retry list, and the
    failure is not counted against the breaker, whose state, timers and
    failure counter stay as they are.  The submission has been counted
    against the rate limit all the same; so it is for a job that carries no
    URL, for which the client makes no request at all. *)
Theorem X21_client_errors_fail_the_job (s : State) (now : Z) (job : JobData) (e : JsError) :
  In e [missingUrlError; missingIdError; authenticationError] ->
  let sid := separationId job in
  let s' := startJobProcessing s now job (SubmitThrows e) in
  statusOf s' sid = Some "FAILED" /\
  mapGet sid (processingJobs s') = None /\
  queueRetry (redis s') = queueRetry (redis s) /\
  circuitBreakerState s' = circuitBreakerState s /\
  halfOpenTimers s' = halfOpenTimers s /\
  runpod_failures (redis s') = runpod_failures (redis s) /\
  circuitBreakerTrips (metrics s') = circuitBreakerTrips (metrics s) /\
  runpodRequestTimes s' = runpodRequestTimes s ++ [now] /\
  (truthy (orElse (filePath job) (publicUrl job)) = false ->
   forall answers : list PostAnswer,
     processAsynchronously (orElse (filePath job) (publicUrl job)) answers
     = (Some (SubmitThrows missingUrlError), 0%nat)).
Proof.
  intros Hin sid s'. subst sid s'.
  assert (Hse : isServiceError e = false)
    by (destruct Hin as [<- | [<- | [<- | []]]]; reflexivity).
  assert (Hno : shouldRetryJob job e = false).
  { unfold shouldRetryJob. destruct (3 <=? retryCount job)%nat; [reflexivity |].
    destruct Hin as [<- | [<- | [<- | []]]]; vm_compute; reflexivity. }
  unfold startJobProcessing, submissionFailed, handleRunpodError. rewrite Hse, Hno.
  split; [apply statusOf_updateJobStatus |].
  split; [simpl; apply mapGet_mapDelete |].
  repeat (split; [reflexivity |]).
  intros Hurl answers. destruct answers; cbn [processAsynchronously]; by rewrite Hurl.
Qed.

(** A job without a file path or a URL, submitted in the initial state. *)
Lemma X21_client_errors_witness :
  statusOf (startJobProcessing (initialState defaultConfig) T0 noPayloadJob
                               (SubmitThrows missingUrlError))
           (separationId noPayloadJob)
  = Some "FAILED".
Proof.
  exact (proj1 (X21_client_errors_fail_the_job (initialState defaultConfig) T0 noPayloadJob
                                               missingUrlError (or_introl eq_refl))).
Defined.

(** ** The depth of the waiting lists *)

Lemma total_view (s s' : State) :
  listsView s' = listsView s ->
  cfg s' = cfg s /\ getTotalQueueSize s' = getTotalQueueSize s.
Proof.
  unfold listsView, getTotalQueueSize. intros H. inversion H as [[Hc Hf Hu Hr]].
  by rewrite Hf, Hu, Hr.
Qed.

Lemma listsView_decrementUserConcurrent (s : State) (t : Z) (uid : option string) :
  listsView (decrementUserConcurrent s t uid) = listsView s.
Proof. unfold decrementUserConcurrent. destruct (truthy uid); reflexivity. Qed.

Lemma listsView_checkUserLimits (s : State) (t : Z) (uid : string) :
  listsView (fst (checkUserLimits s t uid)) = listsView s.
Proof. unfold checkUserLimits. split_ifs; reflexivity. Qed.

Lemma listsView_handleJobTimeout (s : State) (now : Z) (sid : Id) :
  listsView (handleJobTimeout s now sid) = listsView s.
Proof.
  unfold handleJobTimeout. destruct (mapGet sid (processingJobs s)); [| reflexivity].
  by rewrite listsView_decrementUserConcurrent.
Qed.

Lemma listsView_monitorJob (now : Z) (poll : string -> PollOutcome) (s : State)
      (job : ProcJob) :
  listsView (monitorJob now poll s job) = listsView s.
Proof.
  unfold monitorJob. destruct (truthy (runpodJobId job)); cbn [negb]; [| reflexivity].
  destruct (poll (idString (runpodJobId job))) as [st |].
  - destruct (String.eqb (rstatus st) "COMPLETED").
    + unfold handleJobCompletion. destruct (mapGet _ (processingJobs s)); [| reflexivity].
      by rewrite listsView_decrementUserConcurrent.
    + destruct (String.eqb (rstatus st) "FAILED"); [| reflexivity].
      unfold handleJobFailure. destruct (mapGet _ (processingJobs s)); [| reflexivity].
      by rewrite listsView_decrementUserConcurrent.
  - match goal with |- context [if ?b then _ else _] => destruct b end;
      [apply listsView_handleJobTimeout | reflexivity].
Qed.

(** An admission adds one waiting job, below the ceiling, or none. *)
Lemma addJob_total (s : State) (now : Z) (jobData : option JobData) :
  let s' := fst (addJob s now jobData) in
  cfg s' = cfg s /\
  (getTotalQueueSize s' = getTotalQueueSize s \/
   (getTotalQueueSize s < MAX_QUEUE_SIZE (cfg s) /\
    getTotalQueueSize s' = getTotalQueueSize s + 1)).
Proof.
  destruct jobData as [jd |]; [| by split; [| left]].
  unfold addJob.
  destruct (truthy (separationId jd)); cbn [negb]; [| by split; [| left]].
  destruct (total_view _ _ (listsView_checkUserLimits s now
              (idString (orElse (userId jd) (Some "unknown"))))) as [Hc Ht].
  destruct (checkUserLimits s now _) as [s1 ok]. cbn [fst] in Hc, Ht.
  destruct ok; cbn [negb]; [| by split; [| left]].
  destruct (Breaker_eqb (circuitBreakerState s1) OPEN); [by split; [| left] |].
  destruct (Z.leb_spec (MAX_QUEUE_SIZE (cfg s1)) (getTotalQueueSize s1)) as [Hfull | Hroom];
    [by split; [| left] |].
  cbn [fst]. split.
  - unfold updateUserLimits. exact Hc.
  - right. split; [rewrite <- Hc, <- Ht; exact Hroom |]. rewrite <- Ht.
    unfold getTotalQueueSize at 1. cbn [redis updateJobStatus withRedis withStatuses
      queueFiles queueUrls queueRetry].
    match goal with |- context [updateUserLimits ?s2 now ?u] =>
      destruct (updateUserLimits_lists s2 now u) as (-> & -> & -> & _) end.
    unfold getTotalQueueSize, llen, lpush.
    destruct (isFileUpload jd); cbn [redis withRedis withQueue withQueueFiles withQueueUrls
      queueFiles queueUrls queueRetry queueOf length]; lia.
Qed.

(** A failed submission puts at most one job on the retry list. *)
Lemma submissionFailed_total (s : State) (now : Z) (job : JobData) (e : JsError) :
  let s' := submissionFailed s now job e in
  cfg s' = cfg s /\
  getTotalQueueSize s <= getTotalQueueSize s' <= getTotalQueueSize s + 1.
Proof.
  pose proof (handleRunpodError_frame s now e) as Hh. cbn zeta in Hh.
  destruct Hh as (Hc & Hf & Hu & Hr & _).
  unfold submissionFailed, getTotalQueueSize.
  destruct (shouldRetryJob job e).
  - unfold addJobToRetryQueue. destruct (validDate _); simpl; rewrite Hc, Hf, Hu, Hr;
      unfold llen; simpl; (split; [reflexivity | lia]).
  - simpl. rewrite Hc, Hf, Hu, Hr. split; [reflexivity | lia].
Qed.

Lemma startJobProcessing_total (s : State) (now : Z) (job : JobData) (o : SubmitOutcome) :
  let s' := startJobProcessing s now job o in
  cfg s' = cfg s /\
  getTotalQueueSize s <= getTotalQueueSize s' <= getTotalQueueSize s + 1.
Proof.
  unfold startJobProcessing.
  set (s5 := withCalls _ _).
  assert (Hfail : forall e,
             cfg (submissionFailed s5 now job e) = cfg s /\
             getTotalQueueSize s <= getTotalQueueSize (submissionFailed s5 now job e)
             <= getTotalQueueSize s + 1)
    by (intros e; apply (submissionFailed_total s5 now job e)).
  destruct o as [id | | e]; [| apply Hfail | apply Hfail].
  destruct (truthy id); [| apply Hfail].
  destruct (mapGet (separationId job) (processingJobs s5));
    match goal with |- context [if ?b then _ else _] => destruct b end;
    (split; [reflexivity |]); unfold getTotalQueueSize; simpl; lia.
Qed.

(** A dispatcher tick never lengthens the lists. *)
Lemma processQueue_total (s : State) (now : Z) (p : Priority) (o : SubmitOutcome) :
  let s' := processQueue s now p o in
  cfg s' = cfg s /\ getTotalQueueSize s' <= getTotalQueueSize s.
Proof.
  unfold processQueue, processQueueCheck, canMakeRunpodRequest.
  destruct (canProcessMoreJobs s p); cbn [negb]; [| split; [reflexivity | lia]].
  match goal with |- context [if negb ?b then _ else _] => destruct b end; cbn [negb];
    [| split; [reflexivity | unfold getTotalQueueSize; simpl; lia]].
  unfold processQueueDispatch. cbn [redis withRequestTimes].
  destruct (rpop (queueOf p (redis s))) as [[job rest] |] eqn:Hpop;
    [| split; [reflexivity | unfold getTotalQueueSize; simpl; lia]].
  apply rpop_Some in Hpop.
  match goal with |- context [startJobProcessing ?s0 now job o] =>
    destruct (startJobProcessing_total s0 now job o) as [Hc Ht] end.
  split; [exact Hc |].
  etransitivity; [apply Ht |].
  unfold getTotalQueueSize, llen.
  destruct p; cbn [queueOf] in Hpop; rewrite Hpop;
    cbn [redis withRedis withQueue withQueueFiles withQueueUrls withRequestTimes
         queueFiles queueUrls queueRetry];
    rewrite length_app; cbn [length]; lia.
Qed.

(** Neither does the retry timer. *)
Lemma processRetryQueue_total (s : State) (now : Z) :
  let s' := fst (processRetryQueue s now) in
  cfg s' = cfg s /\ getTotalQueueSize s' <= getTotalQueueSize s.
Proof.
  unfold processRetryQueue.
  destruct (rpop (queueRetry (redis s))) as [[job rest] |] eqn:Hpop;
    [| split; [reflexivity | simpl; lia]].
  apply rpop_Some in Hpop.
  assert (Hpopped : getTotalQueueSize (withRedis (withQueueRetry rest (redis s)) s) + 1
                    = getTotalQueueSize s).
  { unfold getTotalQueueSize, llen. cbn [redis withRedis withQueueRetry
      queueFiles queueUrls queueRetry]. rewrite Hpop, length_app. cbn [length]. lia. }
  match goal with |- context [if ?b then _ else _] => destruct b end.
  - match goal with |- context [addJob ?s0 now ?j] =>
      pose proof (addJob_total s0 now j) as H2; destruct (addJob s0 now j) end.
    cbn zeta in H2. cbn [fst] in *. destruct H2 as [Hc Ht]. split; [exact Hc |].
    destruct Ht as [Ht | [_ Ht]]; lia.
  - cbn [fst]. split; [reflexivity |].
    unfold getTotalQueueSize, llen, lpush in *. cbn [redis withRedis withQueueRetry
      queueFiles queueUrls queueRetry length] in *. lia.
Qed.

(** Only an admission lengthens the lists. *)
Lemma step_total (s : State) (now : Z) (e : Event) :
  cfg (step s now e) = cfg s /\
  (getTotalQueueSize (step s now e) <= getTotalQueueSize s \/
   (exists jd, e = EvAddJob jd) /\
   getTotalQueueSize s < MAX_QUEUE_SIZE (cfg s) /\
   getTotalQueueSize (step s now e) = getTotalQueueSize s + 1).
Proof.
  destruct e as [jd | p o | poll | | | |]; simpl.
  - destruct (addJob_total s now jd) as [Hc [Ht | [Hlt Ht]]]; (split; [exact Hc |]).
    + left. lia.
    + right. split; [by exists jd | by split].
  - destruct (processQueue_total s now p o) as [Hc Ht]. split; [exact Hc | by left].
  - unfold monitorRunningJobs. generalize (mapValues (processingJobs s)). intros l.
    assert (H : forall s0, listsView (fold_left (monitorJob now poll) l s0) = listsView s0).
    { induction l as [| job l IH]; intros s0; [reflexivity |].
      simpl. rewrite IH. apply listsView_monitorJob. }
    destruct (total_view _ _ (H s)) as [Hc Ht]. split; [exact Hc | left; lia].
  - destruct (processRetryQueue_total s now) as [Hc Ht]. split; [exact Hc | by left].
  - unfold performCleanup. generalize (staleJobs s now). intros l.
    assert (H : forall s0,
               listsView (fold_left (fun st jobId => handleJobTimeout st now jobId) l s0)
               = listsView s0).
    { induction l as [| k l IH]; intros s0; [reflexivity |].
      simpl. rewrite IH. apply listsView_handleJobTimeout. }
    destruct (total_view _ _ (H s)) as [Hc Ht]. split; [exact Hc | left; lia].
  - split; [reflexivity | left; unfold getTotalQueueSize; simpl; lia].
  - unfold fireHalfOpenTimer. destruct (halfOpenTimers s) as [| t rest];
      [split; [reflexivity | left; lia] |].
    destruct (t <=? now); split; try reflexivity; left; unfold getTotalQueueSize; simpl; lia.
Qed.

(** X22: the depth of the waiting lists.  Run from its call to its last
    effect, an event that is not a submission never lengthens the three lists
    taken together (a tick that fails moves its job to the retry list, the
    retry timer moves a job back or drops it), and a submission adds at most
    one job.  So in every run from the initial
    state whose events run one at a time (each submission, tick and timer to
    completion before the next starts), the waiting total, which is what the
    statistics report, never exceeds MAX_QUEUE_SIZE (counted as 0 when
    negative). *)
Theorem X22_waiting_bounded (c : Config) (trace : list (Z * Event)) :
  let s := run (initialState c) trace in
  getTotalQueueSize s <= Z.max 0 (MAX_QUEUE_SIZE c) /\
  totalWaiting (getQueueStatistics s) <= Z.max 0 (MAX_QUEUE_SIZE c) /\
  (forall (s0 : State) (now : Z) (e : Event),
      getTotalQueueSize (step s0 now e) <= getTotalQueueSize s0 + 1 /\
      ((forall jd, e <> EvAddJob jd) ->
       getTotalQueueSize (step s0 now e) <= getTotalQueueSize s0)).
Proof.
  intros s.
  assert (Hrun : forall tr s0,
             cfg s0 = c -> getTotalQueueSize s0 <= Z.max 0 (MAX_QUEUE_SIZE c) ->
             getTotalQueueSize (run s0 tr) <= Z.max 0 (MAX_QUEUE_SIZE c)).
  { induction tr as [| [t e] tr IH]; intros s0 Hc Hb; [exact Hb |].
    simpl. destruct (step_total s0 t e) as [Hc' Hs]. apply IH; [congruence |].
    destruct Hs as [Hle | (_ & Hlt & Heq)]; [lia |]. rewrite Hc in Hlt. lia. }
  assert (Hs : getTotalQueueSize s <= Z.max 0 (MAX_QUEUE_SIZE c)).
  { apply Hrun; [reflexivity |]. change (0 <= Z.max 0 (MAX_QUEUE_SIZE c)). lia. }
  split; [exact Hs |]. split; [exact Hs |].
  intros s0 now e. destruct (step_total s0 now e) as [_ Ht].
  split.
  - destruct Ht as [Hle | (_ & _ & Heq)]; lia.
  - intros Hne. destruct Ht as [Hle | ([jd Hjd] & _)]; [exact Hle |].
    exfalso. exact (Hne jd Hjd).
Qed.

(** ** The rate limit when events run one at a time *)

(** X23: a tick pops a job and calls the worker only if, at its rate check,
    fewer than N timestamps of the request-time list lie in the trailing 60
    seconds, and then it records exactly one new timestamp, the instant of
    the call; hence in every run whose events run one at a time, the clock
    never going back, no more than N calls fall in any window of 60
    seconds. *)
Theorem X23_rate_limit_of_atomic_events
        (c : Config) (t0 : Z) (trace : list (Z * Event)) (u : Z) :
  chronological t0 trace ->
  0 <= RUNPOD_RATE_LIMIT c ->
  (forall (s : State) (now : Z) (p : Priority) (o : SubmitOutcome),
      let s' := processQueue s now p o in
      (runpodCalls s' = runpodCalls s /\
       queueFiles (redis s') = queueFiles (redis s) /\
       queueUrls (redis s') = queueUrls (redis s)) \/
      (exists job rest,
          Z.of_nat (length (pruneTimes now (runpodRequestTimes s))) < RUNPOD_RATE_LIMIT (cfg s) /\
          rpop (queueOf p (redis s)) = Some (job, rest) /\
          queueOf p (redis s') = rest /\
          runpodCalls s' = runpodCalls s ++ [callFor now job] /\
          runpodRequestTimes s' = pruneTimes now (runpodRequestTimes s) ++ [now])) /\
  Z.of_nat (length (window u (callTimes (run (initialState c) trace)))) <= RUNPOD_RATE_LIMIT c.
Proof.
  intros Hch Hn. split.
  - intros s now p o s'.
    destruct (processQueue_cases s now p o) as [(H1 & H2 & H3 & _) | (job & rest & H)].
    + left. by repeat split.
    + right. exists job, rest. destruct H as (_ & ? & ? & ? & ? & ?). by repeat split.
  - destruct (Inv_run (RUNPOD_RATE_LIMIT c) trace t0 (initialState c) Hch) as (t & _ & HI).
    { by apply Inv_initial. }
    pose proof (inv_window _ _ _ HI u) as Hw. lia.
Qed.

(** One submission of a run, in a window that holds it. *)
Lemma X23_rate_limit_witness :
  Z.of_nat (length (window (T0 + 21000)
                           (callTimes (run (initialState defaultConfig)
                              [(T0, EvAddJob (Some (upload "1")));
                               (T0 + 3000, EvProcessQueue HIGH (SubmitThrows badRequest))]))))
  <= 8.
Proof.
  refine (proj2 (X23_rate_limit_of_atomic_events defaultConfig T0
                   [(T0, EvAddJob (Some (upload "1")));
                    (T0 + 3000, EvProcessQueue HIGH (SubmitThrows badRequest))]
                   (T0 + 21000) _ _)).
  - simpl. lia.
  - simpl. lia.
Defined.
